(** * mm-map: the Webflow CMS client and its proxy routes

    A shallow embedding of
      - [src/WebflowCMS.js]  (browser client: TTL cache, paginator, normalizer)
      - [proxy-fix/src/lib/fetchAllCollectionItems.ts]  (server paginator)
      - [proxy-fix/src/pages/api/{monuments,ecosystem}.json.ts]  (routes)

    JavaScript values are an inductive type, thrown exceptions are an
    explicit completion, the [while (true)] loops run on fuel, and the
    network is a function from requests to responses. *)

From Stdlib Require Import QArith Ascii DecimalString.
From Stdlib Require Import DecimalNat.
From stdpp Require Import gmap strings list.

Local Open Scope string_scope.
Local Open Scope list_scope.

(** ** Numbers

    A JavaScript number is NaN, an infinity or a finite double.  Finite
    doubles are carried as rationals (every double is one); [-0] and [+0]
    are both [Fin 0], which no operation used here tells apart. *)

Inductive JsNum : Type :=
| NaN
| PosInf
| NegInf
| Fin (q : Q).

Definition num_of_nat (n : nat) : JsNum := Fin (inject_Z (Z.of_nat n)).

(** [a < b] of two numbers; [None] is the "undefined" of the abstract
    relational comparison, reached when an operand is NaN. *)
Definition num_lt (a b : JsNum) : option bool :=
  match a, b with
  | NaN, _ | _, NaN => None
  | PosInf, _ => Some false
  | _, NegInf => Some false
  | NegInf, _ => Some true
  | _, PosInf => Some true
  | Fin x, Fin y => Some (negb (Qle_bool y x))
  end.

(** The operators [<] and [>=] on numbers: [a >= b] is "[a < b] is false",
    and an undefined comparison makes both operators answer [false]. *)
Definition num_ltb (a b : JsNum) : bool := default false (num_lt a b).
Definition num_geb (a b : JsNum) : bool := default false (negb <$> num_lt a b).

Definition num_is_nan (a : JsNum) : bool :=
  match a with NaN => true | _ => false end.

(** ToBoolean on a number: [0] and NaN are falsy. *)
Definition num_truthy (a : JsNum) : bool :=
  match a with
  | NaN => false
  | Fin q => negb (Qeq_bool q 0)
  | _ => true
  end.

(** Decimal rendering of an array index, a length, an offset or an HTTP
    status inside a template literal. *)
Definition nat_to_string (n : nat) : string :=
  NilZero.string_of_uint (Nat.to_uint n).

(** ** Values *)

#[local] Set Warnings "-register-all".

Inductive JsValue : Type :=
| JUndefined
| JNull
| JBool (b : bool)
| JNum (n : JsNum)
| JStr (s : string)
| JArr (elems : list JsValue)
| JObj (fields : list (string * JsValue))
| JBuiltin (name : string).
(** [JBuiltin name] is the function or object a property read finds on a
    built-in prototype ([Object.prototype.toString], [String.prototype.link],
    ...).  It never occurs in parsed JSON; it is truthy. *)

Definition JArr_of_strings (l : list string) : JsValue := JArr (JStr <$> l).

(** ToBoolean. *)
Definition truthy (v : JsValue) : bool :=
  match v with
  | JUndefined | JNull => false
  | JBool b => b
  | JNum n => num_truthy n
  | JStr s => negb (String.eqb s EmptyString)
  | JArr _ | JObj _ | JBuiltin _ => true
  end.

(** [a || b] *)
Definition js_or (a b : JsValue) : JsValue := if truthy a then a else b.
Infix "|||" := js_or (at level 50, left associativity).

(** [a ?? b] *)
Definition js_nullish (a b : JsValue) : JsValue :=
  match a with JUndefined | JNull => b | _ => a end.

(** [v != null] *)
Definition not_nullish (v : JsValue) : bool :=
  match v with JUndefined | JNull => false | _ => true end.

Definition is_array (v : JsValue) : bool :=
  match v with JArr _ => true | _ => false end.

Definition is_string (v : JsValue) : bool :=
  match v with JStr _ => true | _ => false end.

(** ** Exceptions *)

Inductive ErrorKind := PlainError | TypeError | SyntaxError.

Record JsError := mkError { err_kind : ErrorKind; err_message : string }.

Inductive Completion (A : Type) : Type :=
| Normal (a : A)
| Throw (e : JsError).
Arguments Normal {A} a.
Arguments Throw {A} e.

Definition cbind {A B} (c : Completion A) (k : A -> Completion B) : Completion B :=
  match c with
  | Normal a => k a
  | Throw e => Throw e
  end.

Notation "'let!' x ':=' c 'in' k" := (cbind c (fun x => k))
  (at level 10, x name, c at level 100, k at level 200).

Definition returns {A} (c : Completion A) : bool :=
  match c with Normal _ => true | Throw _ => false end.

(** [Array.prototype.map] with a callback that may throw: the first
    exception aborts the traversal. *)
Fixpoint map_throwing {A B} (f : A -> Completion B) (l : list A) : Completion (list B) :=
  match l with
  | [] => Normal []
  | x :: rest =>
      let! y := f x in
      let! ys := map_throwing f rest in
      Normal (y :: ys)
  end.

(** [a || b] where evaluating either operand may throw; [b] is evaluated
    only when [a] is falsy. *)
Definition or_else (a b : Completion JsValue) : Completion JsValue :=
  let! x := a in
  if truthy x then Normal x else b.
Infix "||!" := or_else (at level 51, right associativity).

(** ** The host's string/number conversions

    [parseFloat], [Number::toString] and [StringToNumber] belong to the
    JavaScript engine, not to this repository; the development is
    parametric in them. *)

Class Host := {
  parseFloat : string -> JsNum;
  Number_toString : JsNum -> string;
  StringToNumber : string -> JsNum
}.

(** ** Property reads *)

Fixpoint own_property (fields : list (string * JsValue)) (k : string) : option JsValue :=
  match fields with
  | [] => None
  | (k', v) :: rest => if String.eqb k' k then Some v else own_property rest k
  end.

(** The property names every ordinary object inherits. *)
Definition Object_prototype_names : list string :=
  [ "constructor"; "hasOwnProperty"; "isPrototypeOf"; "propertyIsEnumerable";
    "toLocaleString"; "toString"; "valueOf"; "__proto__";
    "__defineGetter__"; "__defineSetter__"; "__lookupGetter__"; "__lookupSetter__" ].

Definition inherited (k : string) : bool :=
  existsb (String.eqb k) Object_prototype_names.

(** [o[k]] on an ordinary object with own data properties [fields]:
    the own property, else what [Object.prototype] holds under [k]. *)
Definition object_get (fields : list (string * JsValue)) (k : string) : JsValue :=
  match own_property fields k with
  | Some v => v
  | None => if inherited k then JBuiltin ("Object.prototype." +:+ k) else JUndefined
  end.

Definition read_of_nullish (base k : string) : JsError :=
  mkError TypeError
    ("Cannot read properties of " +:+ base +:+ " (reading '" +:+ k +:+ "')").

(** [v.k] for a parsed JSON value [v] and one of the property names the
    sources spell out.  Among those names only [length] (arrays, strings)
    and [link] (strings, from [String.prototype]) exist on a non-object;
    reading anything off [null] or [undefined] throws. *)
Definition get (v : JsValue) (k : string) : Completion JsValue :=
  match v with
  | JUndefined => Throw (read_of_nullish "undefined" k)
  | JNull => Throw (read_of_nullish "null" k)
  | JObj fields => Normal (object_get fields k)
  | JArr l =>
      if String.eqb k "length" then Normal (JNum (num_of_nat (length l)))
      else if inherited k then Normal (JBuiltin ("Object.prototype." +:+ k))
      else Normal JUndefined
  | JStr s =>
      if String.eqb k "length" then Normal (JNum (num_of_nat (String.length s)))
      else if String.eqb k "link" then Normal (JBuiltin "String.prototype.link")
      else if inherited k then Normal (JBuiltin ("Object.prototype." +:+ k))
      else Normal JUndefined
  | JBool _ | JNum _ | JBuiltin _ =>
      if inherited k then Normal (JBuiltin ("Object.prototype." +:+ k))
      else Normal JUndefined
  end.

(** [v?.k] *)
Definition get_opt (v : JsValue) (k : string) : Completion JsValue :=
  match v with
  | JUndefined | JNull => Normal JUndefined
  | _ => get v k
  end.

(** ** Coercions

    ToString of a parsed JSON value.  An array joins the strings of its
    elements with commas, [null] and [undefined] elements giving the empty
    string.  A plain object answers "[object Object]" through the inherited
    [toString], unless it has an own [toString] property: a JSON value is
    never callable, so OrdinaryToPrimitive skips it, gets the object itself
    back from [valueOf] (or skips an own [valueOf] too) and throws. *)

Definition cannot_convert : JsError :=
  mkError TypeError "Cannot convert object to primitive value".

Section Coercions.
Context `{Host}.

Fixpoint ToString (v : JsValue) : Completion string :=
  match v with
  | JUndefined => Normal "undefined"
  | JNull => Normal "null"
  | JBool true => Normal "true"
  | JBool false => Normal "false"
  | JNum n => Normal (Number_toString n)
  | JStr s => Normal s
  | JArr l =>
      let element (x : JsValue) : Completion string :=
        match x with
        | JUndefined | JNull => Normal EmptyString
        | _ => ToString x
        end in
      (fix join (l : list JsValue) : Completion string :=
         match l with
         | [] => Normal EmptyString
         | [x] => element x
         | x :: rest =>
             let! s := element x in
             let! r := join rest in
             Normal (s +:+ "," +:+ r)
         end) l
  | JObj fields =>
      match own_property fields "toString" with
      | Some _ => Throw cannot_convert
      | None => Normal "[object Object]"
      end
  | JBuiltin name => Normal ("function " +:+ name +:+ "() { [native code] }")
  end.

(** ToNumber; arrays and objects go through their primitive string. *)
Definition ToNumber (v : JsValue) : Completion JsNum :=
  match v with
  | JUndefined => Normal NaN
  | JNull => Normal (Fin 0)
  | JBool true => Normal (Fin 1)
  | JBool false => Normal (Fin 0)
  | JNum n => Normal n
  | JStr s => Normal (StringToNumber s)
  | JArr _ | JObj _ | JBuiltin _ =>
      let! s := ToString v in Normal (StringToNumber s)
  end.

(** [n >= v] and [v < n] for a number [n] (a length, the page size) and an
    arbitrary value [v]: [v] is converted with ToNumber first. *)
Definition nat_ge (n : nat) (v : JsValue) : Completion bool :=
  let! x := ToNumber v in Normal (num_geb (num_of_nat n) x).

Definition lt_nat (v : JsValue) (n : nat) : Completion bool :=
  let! x := ToNumber v in Normal (num_ltb x (num_of_nat n)).

(** [table[key]] on an object literal of the source: the key is converted
    to a property name, then looked up as on any ordinary object. *)
Definition table_get (table : list (string * JsValue)) (key : JsValue) : Completion JsValue :=
  let! k := ToString key in Normal (object_get table k).

End Coercions.

(** [v === n] for a numeric literal [n]. *)
Definition strict_eq_nat (v : JsValue) (n : nat) : bool :=
  match v with
  | JNum (Fin q) => Qeq_bool q (inject_Z (Z.of_nat n))
  | _ => false
  end.

(** ** Strings

    A string is a sequence of code units below 256 (Latin-1). *)

Definition comma : ascii := ","%char.

(** [s.includes(',')] *)
Fixpoint includes (c : ascii) (s : string) : bool :=
  match s with
  | EmptyString => false
  | String a rest => if Ascii.eqb a c then true else includes c rest
  end.

(** [s.split(',')]: the pieces between the separators; never empty. *)
Fixpoint split (c : ascii) (s : string) : list string :=
  match s with
  | EmptyString => [EmptyString]
  | String a rest =>
      if Ascii.eqb a c then EmptyString :: split c rest
      else match split c rest with
           | [] => [String a EmptyString]
           | piece :: pieces => String a piece :: pieces
           end
  end.

(** [pieces.join(',')], the inverse of [split]. *)
Fixpoint join (c : ascii) (pieces : list string) : string :=
  match pieces with
  | [] => EmptyString
  | [piece] => piece
  | piece :: rest => piece +:+ String c (join c rest)
  end.

(** WhiteSpace and LineTerminator below 256: TAB, LF, VT, FF, CR, SP, NBSP. *)
Definition is_space (a : ascii) : bool :=
  let n := nat_of_ascii a in
  (Nat.leb 9 n && Nat.leb n 13) || Nat.eqb n 32 || Nat.eqb n 160.

Fixpoint trim_start (s : string) : string :=
  match s with
  | EmptyString => EmptyString
  | String a rest => if is_space a then trim_start rest else s
  end.

(** Drops the trailing white space: a character is kept iff it is not
    white space or something kept follows it. *)
Fixpoint trim_end (s : string) : string :=
  match s with
  | EmptyString => EmptyString
  | String a rest =>
      match trim_end rest with
      | EmptyString => if is_space a then EmptyString else String a EmptyString
      | kept => String a kept
      end
  end.

(** [s.trim()] *)
Definition trim (s : string) : string := trim_end (trim_start s).

(** [s.replace(/<[^>]*>/g, '')]: every run from a [<] to the first [>]
    after it is deleted.  [in_tag] says that the scan is inside such a run;
    a [<] opens one only when some [>] follows. *)
Fixpoint strip_tags (in_tag : bool) (s : string) : string :=
  match s with
  | EmptyString => EmptyString
  | String a rest =>
      if in_tag then
        strip_tags (negb (Ascii.eqb a ">"%char)) rest
      else if Ascii.eqb a "<"%char && includes ">"%char rest then
        strip_tags true rest
      else String a (strip_tags false rest)
  end.

(** ** The network

    [fetch] answers a request with a response or rejects.  A response is
    read through [status], [text()] and [json()]: either read of the body
    can reject, [text()] when the body cannot be received or decoded,
    [json()] also when the body is not JSON. *)

Record Request := mkRequest {
  req_url : string;
  req_headers : list (string * string)
}.

Record HttpResponse := mkResponse {
  status : nat;
  text : Completion string;
  json : Completion JsValue
}.

(** [response.ok]: the status is in the range 200-299. *)
Definition ok (r : HttpResponse) : bool :=
  Nat.leb 200 (status r) && Nat.leb (status r) 299.

Definition Network : Type := Request -> Completion HttpResponse.

(** What a run of a loop leaves behind: the requests issued, oldest first,
    and the completion, [None] while the loop is still turning when the
    fuel is spent. *)
Record Sweep := mkSweep {
  sent : list Request;
  result : option (Completion (list JsValue))
}.

Definition finished (c : Completion (list JsValue)) : Sweep := mkSweep [] (Some c).
Definition after (req : Request) (s : Sweep) : Sweep := mkSweep (req :: sent s) (result s).

(** [allItems.concat(items)]: an array argument is spread, anything else
    is appended as one element. *)
Definition concat_value (allItems : list JsValue) (items : JsValue) : list JsValue :=
  match items with
  | JArr l => allItems ++ l
  | v => allItems ++ [v]
  end.

(** * proxy-fix/src/lib/fetchAllCollectionItems.ts *)

Module Proxy.
Section Proxy.
Context `{Host}.

Definition PAGE_SIZE : nat := 100.

Definition page_request (collectionId apiToken : string) (offset : nat) : Request :=
  mkRequest
    ("https://api.webflow.com/v2/collections/" +:+ collectionId +:+ "/items"
       +:+ "?limit=" +:+ nat_to_string PAGE_SIZE +:+ "&offset=" +:+ nat_to_string offset)
    [ ("Authorization", "Bearer " +:+ apiToken);
      ("Accept-Version", "1.0.0");
      ("Content-Type", "application/json") ].

(** [new Error(`Webflow API ${response.status}: ${body}`)] *)
Definition upstream_error (r : HttpResponse) (body : string) : JsError :=
  mkError PlainError ("Webflow API " +:+ nat_to_string (status r) +:+ ": " +:+ body).

(** [data.items ?? []] *)
Definition page_items (data : JsValue) : Completion JsValue :=
  let! items := get data "items" in
  Normal (js_nullish items (JArr [])).

(** [data.pagination?.total] *)
Definition page_total (data : JsValue) : Completion JsValue :=
  let! pagination := get data "pagination" in
  get_opt pagination "total".

(** One turn of the [while (true)] body after the response has arrived:
    [inl out] is a [break] leaving [allItems = out], [inr acc] falls
    through to [offset += PAGE_SIZE] with [allItems = acc]. *)
Definition turn (data : JsValue) (allItems : list JsValue)
  : Completion (list JsValue + list JsValue) :=
  let! items := page_items data in
  let! len := get items "length" in
  if strict_eq_nat len 0 then Normal (inl allItems)
  else
    let allItems := concat_value allItems items in
    let! total := page_total data in
    let! reached :=
      (if not_nullish total then nat_ge (length allItems) total else Normal false) in
    if reached then Normal (inl allItems)
    else
      let! short := lt_nat len PAGE_SIZE in
      if short then Normal (inl allItems)
      else Normal (inr allItems).

Fixpoint loop (fuel : nat) (fetch : Network) (collectionId apiToken : string)
    (offset : nat) (allItems : list JsValue) : Sweep :=
  match fuel with
  | O => mkSweep [] None
  | S fuel =>
      let req := page_request collectionId apiToken offset in
      after req
        match fetch req with
        | Throw e => finished (Throw e)
        | Normal response =>
            if negb (ok response) then
              match text response with
              | Throw e => finished (Throw e)
              | Normal body => finished (Throw (upstream_error response body))
              end
            else
              match json response with
              | Throw e => finished (Throw e)
              | Normal data =>
                  match turn data allItems with
                  | Throw e => finished (Throw e)
                  | Normal (inl out) => finished (Normal out)
                  | Normal (inr acc) =>
                      loop fuel fetch collectionId apiToken (offset + PAGE_SIZE) acc
                  end
              end
        end
  end.

Definition fetchAllCollectionItems (fuel : nat) (fetch : Network)
    (collectionId apiToken : string) : Sweep :=
  loop fuel fetch collectionId apiToken 0 [].

End Proxy.
End Proxy.

(** * src/WebflowCMS.js *)

Module Client.

(** [{ data, timestamp }]; only [fetchMonuments] and [fetchEcosystem] store
    entries, and what they store is the array [items.map(...)] returned. *)
Record CacheEntry := mkEntry {
  data : list JsValue;
  timestamp : Z
}.

(** The instance state the methods read or write.  ([apiToken], [siteId]
    and [baseUrl] are set by the constructor and never read.) *)
Record WebflowCMS := mkCMS {
  cache : gmap string CacheEntry;
  cacheExpiry : Z;
  pageSize : nat
}.

Definition constructor : WebflowCMS :=
  mkCMS ∅ (5 * 60 * 1000) 100.

(** [Date.now()] is passed in as [now]. *)
Definition getCachedData (this : WebflowCMS) (key : string) (now : Z) : option (list JsValue) :=
  match cache this !! key with
  | Some cached =>
      if (now - timestamp cached <? cacheExpiry this)%Z then Some (data cached) else None
  | None => None
  end.

Definition setCachedData (this : WebflowCMS) (key : string) (items : list JsValue) (now : Z)
  : WebflowCMS :=
  mkCMS (<[key := mkEntry items now]> (cache this)) (cacheExpiry this) (pageSize this).

Section Client.
Context `{Host}.

(** ** fetchAllPages *)

Definition page_request (this : WebflowCMS) (baseUrl : string) (offset : nat) : Request :=
  let separator := if includes "?"%char baseUrl then "&" else "?" in
  mkRequest
    (baseUrl +:+ separator +:+ "offset=" +:+ nat_to_string offset
       +:+ "&limit=" +:+ nat_to_string (pageSize this))
    [].

(** [new Error(`HTTP error! status: ${response.status}`)] *)
Definition http_error (r : HttpResponse) : JsError :=
  mkError PlainError ("HTTP error! status: " +:+ nat_to_string (status r)).

(** [data.items || data] *)
Definition page_items (data : JsValue) : Completion JsValue :=
  let! items := get data "items" in
  Normal (items ||| data).

(** One turn of the [while (true)] body after the response has arrived,
    as for the proxy: [inl out] is a [break], [inr acc] goes on to
    [offset += limit]. *)
Definition turn (this : WebflowCMS) (data : JsValue) (allItems : list JsValue)
  : Completion (list JsValue + list JsValue) :=
  let! items := page_items data in
  match items with
  | JArr [] => Normal (inl allItems)
  | JArr l =>
      let allItems := allItems ++ l in
      let! total := get data "total" in
      let! reached :=
        (if not_nullish total then nat_ge (length allItems) total else Normal false) in
      if reached then Normal (inl allItems)
      else if Nat.ltb (length l) (pageSize this) then Normal (inl allItems)
      else Normal (inr allItems)
  | _ => Normal (inl allItems)
  end.

Fixpoint loop (fuel : nat) (this : WebflowCMS) (fetch : Network) (baseUrl : string)
    (offset : nat) (allItems : list JsValue) : Sweep :=
  match fuel with
  | O => mkSweep [] None
  | S fuel =>
      let req := page_request this baseUrl offset in
      after req
        match fetch req with
        | Throw e => finished (Throw e)
        | Normal response =>
            if negb (ok response) then finished (Throw (http_error response))
            else
              match json response with
              | Throw e => finished (Throw e)
              | Normal data =>
                  match turn this data allItems with
                  | Throw e => finished (Throw e)
                  | Normal (inl out) => finished (Normal out)
                  | Normal (inr acc) =>
                      loop fuel this fetch baseUrl (offset + pageSize this) acc
                  end
              end
        end
  end.

Definition fetchAllPages (fuel : nat) (this : WebflowCMS) (fetch : Network)
    (baseUrl : string) : Sweep :=
  loop fuel this fetch baseUrl 0 [].

(** ** Normalizer helpers *)

Definition not_a_function (what : string) : JsError :=
  mkError TypeError (what +:+ " is not a function").

Definition stripHtml (html : JsValue) : Completion JsValue :=
  if negb (truthy html) then Normal (JStr EmptyString)
  else match html with
       | JStr s => Normal (JStr (trim (strip_tags false s)))
       | _ => Throw (not_a_function "html.replace")
       end.

Definition typeMap : list (string * JsValue) :=
  [ ("4366ebc98f6a5310d65de8fa30194fc3", JStr "Concept");
    ("22d312e5d5bdb036a439464ba7db1649", JStr "Program");
    ("6737f113b6ca753ef687b05fe225fb03", JStr "Organization");
    ("1f06ba3b3460d24d4fc5a9514218ab36", JStr "Person") ].

Definition categoryMap : list (string * JsValue) :=
  [ ("74d298c5fdf925022955774e728ae1f9", JStr "Concepts");
    ("1c06d86c3ae633dbc20c19e1d1c254e4", JStr "Programs");
    ("422c7e052591ecf49dad28dc44a1a4c5", JStr "Organizations");
    ("51843361dbdbe24b3b64462d465f5a9f", JStr "Patrons");
    ("75a13f4fd7c61b3339c61c0a7612c0d3", JStr "Founders") ].

(** Returns the pair [{ type, category }]. *)
Definition mapTypeAndCategory (typeId categoryId : JsValue) : Completion (JsValue * JsValue) :=
  let! type := table_get typeMap typeId in
  let! category := table_get categoryMap categoryId in
  Normal (type ||| JStr "Unknown", category ||| JStr "Unknown").

Definition coords (lat lng : Q) : JsValue := JArr [JNum (Fin lat); JNum (Fin lng)].

Definition commonLocations : list (string * JsValue) :=
  [ ("New York, NY", coords 40.7128 (-74.0060));
    ("Washington, DC", coords 38.9072 (-77.0369));
    ("South Dakota", coords 43.9695 (-99.9018));
    ("California", coords 36.7783 (-119.4179));
    ("Texas", coords 31.9686 (-99.9018));
    ("Florida", coords 27.7663 (-82.6404)) ].

Definition geocodeLocation (location : JsValue) : Completion JsValue :=
  let! found := table_get commonLocations location in
  Normal (found ||| JNull).

Definition parseCoordinates (locationData : JsValue) : Completion JsValue :=
  if negb (truthy locationData) then Normal JNull
  else
    match locationData with
    | JArr [_; _] => Normal locationData
    | _ =>
        let parsed :=
          match locationData with
          | JStr s =>
              if includes comma s then
                match (fun coord => parseFloat (trim coord)) <$> split comma s with
                | [lat; lng] =>
                    if negb (num_is_nan lat) && negb (num_is_nan lng)
                    then Some (JArr [JNum lat; JNum lng])
                    else None
                | _ => None
                end
              else None
          | _ => None
          end in
        match parsed with
        | Some coords => Normal coords
        | None => geocodeLocation locationData
        end
    end.

Definition parseTags (tags : JsValue) : JsValue :=
  if negb (truthy tags) then JArr []
  else match tags with
       | JArr _ => tags
       | JStr s =>
           JArr_of_strings
             (List.filter (fun tag => truthy (JStr tag)) (trim <$> split comma s))
       | _ => JArr []
       end.

(** ** The two transforms inside [items.map(...)] *)

Definition normalizeMonument (item : JsValue) : Completion JsValue :=
  let! fieldData := get item "fieldData" ||! Normal item in
  let! id := get item "id" ||! get item "_id" in
  let! name := get fieldData "name" ||! get fieldData "Name" in
  let! status := get fieldData "status" ||! get fieldData "Status" in
  let! location := get fieldData "location" ||! get fieldData "Location" in
  let! locationData :=
    get fieldData "locationcoords" ||! get fieldData "coordinates"
      ||! get fieldData "Location" in
  let! coordinates := parseCoordinates locationData in
  let! html :=
    get fieldData "description" ||! get fieldData "Description" ||! Normal (JStr EmptyString) in
  let! description := stripHtml html in
  let! year := get fieldData "year" ||! get fieldData "Year" in
  let! height := get fieldData "height" ||! get fieldData "Height" in
  let! builtBy := get fieldData "built-by" ||! get fieldData "Built By" in
  let! fundedBy := get fieldData "funded-by" ||! get fieldData "Funded By" in
  let! conceptualizedBy :=
    get fieldData "conceptualized-by" ||! get fieldData "Conceptualized By" in
  let! tags := get fieldData "tags" ||! get fieldData "Tags" in
  let! link := get fieldData "link-2" ||! get fieldData "link" ||! get fieldData "Link" in
  Normal (JObj
    [ ("id", id); ("name", name); ("status", status); ("location", location);
      ("coordinates", coordinates); ("description", description);
      ("year", year); ("height", height); ("builtBy", builtBy);
      ("fundedBy", fundedBy); ("conceptualizedBy", conceptualizedBy);
      ("tags", parseTags tags); ("link", link) ]).

Definition normalizeEcosystem (item : JsValue) : Completion JsValue :=
  let! fieldData := get item "fieldData" ||! Normal item in
  let! typeId := get fieldData "type" in
  let! categoryId := get fieldData "category" in
  let! mappedTypes := mapTypeAndCategory typeId categoryId in
  let! id := get item "id" ||! get item "_id" in
  let! name := get fieldData "name" ||! get fieldData "Name" in
  let! association := get fieldData "association" ||! get fieldData "Association" in
  let! location := get fieldData "location" ||! get fieldData "Location" in
  let! website := get fieldData "website" ||! get fieldData "Website" in
  let! html :=
    get fieldData "description" ||! get fieldData "Description"
      ||! get fieldData "notes" ||! Normal (JStr EmptyString) in
  let! description := stripHtml html in
  let! tags := get fieldData "tags" ||! get fieldData "Tags" in
  Normal (JObj
    [ ("id", id); ("name", name); ("type", fst mappedTypes);
      ("category", snd mappedTypes); ("association", association);
      ("location", location); ("website", website);
      ("description", description); ("tags", parseTags tags) ]).

(** ** fetchMonuments, fetchEcosystem

    A call leaves the requests it issued, what it returned to its caller
    ([None] while the sweep is still turning) and the instance afterwards.
    [now] is the reading of [Date.now()] inside [getCachedData], [now']
    the later one inside [setCachedData]. *)

Record Call := mkCall {
  requests : list Request;
  returned : option (Completion (list JsValue));
  instance : WebflowCMS
}.

Definition monumentsUrl : string :=
  "https://mm1-fe52fb-7bc93d167bfbe6de86cc672332aa.webflow.io/api/api/monuments.json".

Definition ecosystemUrl : string :=
  "https://mm1-fe52fb-7bc93d167bfbe6de86cc672332aa.webflow.io/api/api/ecosystem.json".

Definition fetchMonuments (fuel : nat) (this : WebflowCMS) (fetch : Network) (now now' : Z)
  : Call :=
  let cacheKey := "monuments" in
  match getCachedData this cacheKey now with
  | Some cachedData => mkCall [] (Some (Normal cachedData)) this
  | None =>
      let sweep := fetchAllPages fuel this fetch monumentsUrl in
      match result sweep with
      | None => mkCall (sent sweep) None this
      | Some tried =>
          match (let! items := tried in map_throwing normalizeMonument items) with
          | Normal processedData =>
              mkCall (sent sweep) (Some (Normal processedData))
                (setCachedData this cacheKey processedData now')
          | Throw error => mkCall (sent sweep) (Some (Normal [])) this
          end
      end
  end.

Definition fetchEcosystem (fuel : nat) (this : WebflowCMS) (fetch : Network) (now now' : Z)
  : Call :=
  let cacheKey := "ecosystem" in
  match getCachedData this cacheKey now with
  | Some cachedData => mkCall [] (Some (Normal cachedData)) this
  | None =>
      let sweep := fetchAllPages fuel this fetch ecosystemUrl in
      match result sweep with
      | None => mkCall (sent sweep) None this
      | Some tried =>
          match (let! items := tried in map_throwing normalizeEcosystem items) with
          | Normal processedData =>
              mkCall (sent sweep) (Some (Normal processedData))
                (setCachedData this cacheKey processedData now')
          | Throw error => mkCall (sent sweep) (Some (Normal [])) this
          end
      end
  end.

End Client.
End Client.

(** * proxy-fix/src/pages/api/monuments.json.ts, ecosystem.json.ts *)

Module Routes.

(** [locals.runtime.env]: a variable is a string or is not set. *)
Record Env := mkEnv {
  WEBFLOW_API_TOKEN : option string;
  MONUMENTS_COLLECTION_ID : option string;
  ECOSYSTEM_COLLECTION_ID : option string
}.

(** [new Response(JSON.stringify(payload), { status, headers })]; the
    record keeps the payload that is stringified. *)
Record Response := mkResponse {
  res_status : nat;
  res_headers : list (string * string);
  res_payload : JsValue
}.

Definition error_response (message : string) : Response :=
  mkResponse 500
    [ ("Content-Type", "application/json") ]
    (JObj [ ("error", JStr message) ]).

Definition items_response (items : list JsValue) : Response :=
  mkResponse 200
    [ ("Content-Type", "application/json");
      ("Access-Control-Allow-Origin", "*");
      ("Access-Control-Allow-Methods", "GET");
      ("Access-Control-Allow-Headers", "Content-Type");
      ("Cache-Control", "max-age=3600") ]
    (JObj [ ("items", JArr items) ]).

Section Routes.
Context `{Host}.

(** [!variable] is false: the variable is set to a non-empty string. *)
Definition present (variable : option string) : option string :=
  match variable with
  | Some s => if String.eqb s EmptyString then None else Some s
  | None => None
  end.

(** [None]: the handler is still awaiting the sweep when the fuel is spent. *)
Definition GET_monuments (fuel : nat) (env : Env) (fetch : Network) : option Response :=
  match present (WEBFLOW_API_TOKEN env), present (MONUMENTS_COLLECTION_ID env) with
  | Some apiToken, Some collectionId =>
      match result (Proxy.fetchAllCollectionItems fuel fetch collectionId apiToken) with
      | None => None
      | Some (Normal items) => Some (items_response items)
      | Some (Throw error) => Some (error_response "Failed to fetch monuments")
      end
  | _, _ => Some (error_response "Missing API credentials")
  end.

Definition GET_ecosystem (fuel : nat) (env : Env) (fetch : Network) : option Response :=
  match present (WEBFLOW_API_TOKEN env), present (ECOSYSTEM_COLLECTION_ID env) with
  | Some apiToken, Some collectionId =>
      match result (Proxy.fetchAllCollectionItems fuel fetch collectionId apiToken) with
      | None => None
      | Some (Normal items) => Some (items_response items)
      | Some (Throw error) => Some (error_response "Failed to fetch ecosystem")
      end
  | _, _ => Some (error_response "Missing API credentials")
  end.

End Routes.
End Routes.

(** * A host and upstreams for the examples *)

Module Examples.

(** ** A host that reads and prints plain decimal numerals exactly
    (no exponent part, no rounding to a double). *)

Definition digit_of (a : ascii) : option Z :=
  let n := nat_of_ascii a in
  if Nat.leb 48 n && Nat.leb n 57 then Some (Z.of_nat (n - 48)) else None.

(** Reads a run of digits: its value on top of [acc], its length, the rest. *)
Fixpoint read_digits (acc : Z) (count : nat) (s : string) : Z * nat * string :=
  match s with
  | EmptyString => (acc, count, s)
  | String a rest =>
      match digit_of a with
      | Some d => read_digits (10 * acc + d) (S count) rest
      | None => (acc, count, s)
      end
  end.

(** The longest prefix [sign digits [. digits]] with at least one digit. *)
Definition read_decimal (s : string) : option (Q * string) :=
  let '(negative, s1) :=
    match s with
    | String "-" rest => (true, rest)
    | String "+" rest => (false, rest)
    | _ => (false, s)
    end in
  let '(whole, n_whole, s2) := read_digits 0 0 s1 in
  let '(scaled, n_frac, s3) :=
    match s2 with
    | String "." rest => read_digits whole 0 rest
    | _ => (whole, 0, s2)
    end in
  if Nat.eqb (n_whole + n_frac) 0 then None
  else
    let magnitude := Qmake scaled (Z.to_pos (10 ^ Z.of_nat n_frac)) in
    Some (if negative then Qopp magnitude else magnitude, s3).

Definition decimal_parseFloat (s : string) : JsNum :=
  match read_decimal (trim_start s) with
  | Some (q, _) => Fin q
  | None => NaN
  end.

Definition decimal_StringToNumber (s : string) : JsNum :=
  match trim s with
  | EmptyString => Fin 0
  | t => match read_decimal t with
         | Some (q, EmptyString) => Fin q
         | _ => NaN
         end
  end.

(** The digits after the decimal point of [num / den], for [0 <= num < den];
    at most [fuel] of them. *)
Fixpoint fraction_digits (fuel : nat) (num den : Z) : string :=
  match fuel with
  | O => EmptyString
  | S fuel =>
      if (num =? 0)%Z then EmptyString
      else
        String (ascii_of_nat (48 + Z.to_nat (10 * num / den)))
               (fraction_digits fuel ((10 * num) mod den) den)
  end.

(** Sign, whole part and, when there is a fraction, a point and its digits. *)
Definition decimal_Number_toString (n : JsNum) : string :=
  match n with
  | NaN => "NaN"
  | PosInf => "Infinity"
  | NegInf => "-Infinity"
  | Fin q =>
      let r := Qred q in
      let den := Zpos (Qden r) in
      let magnitude := Z.abs (Qnum r) in
      (if (Qnum r <? 0)%Z then "-" else EmptyString)
        +:+ nat_to_string (Z.to_nat (magnitude / den))
        +:+ (if (magnitude mod den =? 0)%Z then EmptyString
             else "." +:+ fraction_digits 20 (magnitude mod den) den)
  end.

Definition decimal_host : Host :=
  Build_Host decimal_parseFloat decimal_Number_toString decimal_StringToNumber.

(** ** Upstreams *)

Definition record (i : nat) : JsValue :=
  JObj [ ("id", JStr (nat_to_string i));
         ("fieldData", JObj [ ("name", JStr ("record " +:+ nat_to_string i)) ]) ].

Definition records (first count : nat) : list JsValue := record <$> seq first count.

Definition answer (body : JsValue) : Completion HttpResponse :=
  Normal (mkResponse 200 (Normal EmptyString) (Normal body)).

Definition refusal (code : nat) (body : string) : Completion HttpResponse :=
  Normal (mkResponse code (Normal body) (Throw (mkError SyntaxError "Unexpected token"))).

(** Serves [pages], one per request, to whoever asks for the offsets the
    [request] function spells; anything else is a 404. *)
Fixpoint serve (request : nat -> Request) (step offset : nat) (pages : list JsValue)
  : Network :=
  fun req =>
    match pages with
    | [] => refusal 404 "Not Found"
    | body :: later =>
        if String.eqb (req_url req) (req_url (request offset)) then answer body
        else serve request step (offset + step) later req
    end.

Definition with_items (l : list JsValue) : JsValue := JObj [ ("items", JArr l) ].

(** A page as the proxy's upstream sends it, with a total. *)
Definition with_pagination (l : list JsValue) (total : nat) : JsValue :=
  JObj [ ("items", JArr l);
         ("pagination", JObj [ ("total", JNum (num_of_nat total)) ]) ].

(** A page with a total where the browser client looks for one. *)
Definition with_total (l : list JsValue) (total : nat) : JsValue :=
  JObj [ ("items", JArr l); ("total", JNum (num_of_nat total)) ].

(** Pages of 100, 100 and 37 records, no total anywhere. *)
Definition three_pages : list JsValue :=
  [ with_items (records 0 100); with_items (records 100 100); with_items (records 200 37) ].

Definition down : Network := fun _ => refusal 503 "upstream unavailable".

(** A 503 whose body breaks off while it is read. *)
Definition terminated : JsError := mkError TypeError "terminated".

Definition cut_off : Network :=
  fun _ => Normal (mkResponse 503 (Throw terminated) (Throw terminated)).

Definition collection : string := "64f0c1monuments".
Definition token : string := "wf-secret".

(** An instance holding three records stored at time 0. *)
Definition warmed : Client.WebflowCMS :=
  Client.setCachedData Client.constructor "monuments" (records 0 3) 0.

Definition configured : Routes.Env :=
  Routes.mkEnv (Some token) (Some collection) (Some collection).

Definition unconfigured : Routes.Env :=
  Routes.mkEnv (Some token) None (Some EmptyString).

(** The instance after a first call at time 1000 that stored at 1500. *)
Definition after_first_call `{Host} : Client.WebflowCMS :=
  Client.instance
    (Client.fetchMonuments 5 Client.constructor
       (serve (Client.page_request Client.constructor Client.monumentsUrl) 100 0
          [with_items (records 0 3)])
       1000 1500).

(** An upstream that answers every request, whatever its offset, with the
    same page: a full one, and a short one. *)
Definition always_full : Network := fun _ => answer (with_items (records 0 100)).
Definition always_short : Network := fun _ => answer (with_items (records 0 3)).

(** An upstream whose only page holds an item that cannot be normalized. *)
Definition spoiled : Network := fun _ => answer (with_items [record 0; JNull]).

(** A raw record as the vendor delivers it. *)
Definition statue : JsValue :=
  JObj [ ("id", JStr "m1");
         ("fieldData", JObj
            [ ("name", JStr "Statue of Liberty");
              ("locationcoords", JStr "40.6892,-74.0445");
              ("description", JStr "<p>A <b>gift</b> from France</p>");
              ("tags", JStr "copper, harbor ,1886");
              ("type", JStr "6737f113b6ca753ef687b05fe225fb03") ]) ].

End Examples.

(** * What the specification says, in its own words *)

Module Spec.

(** "split on [,], trim each piece, drop empty pieces" *)
Definition tags_of_string (s : string) : list string :=
  flat_map
    (fun piece => match trim piece with EmptyString => [] | tag => [tag] end)
    (split comma s).

(** A two-element array. *)
Definition is_pair (v : JsValue) : bool :=
  match v with JArr [_; _] => true | _ => false end.

(** "a string of the form [<lat>,<lng>]", "only accepted if both parse
    successfully". *)
Definition coordinate_string `{Host} (v : JsValue) : bool :=
  match v with
  | JStr s =>
      match split comma s with
      | [lat; lng] =>
          negb (num_is_nan (parseFloat (trim lat)))
            && negb (num_is_nan (parseFloat (trim lng)))
      | _ => false
      end
  | _ => false
  end.

(** The items a value holds when it is taken for an item list. *)
Definition item_list (v : JsValue) : list JsValue :=
  match v with JArr l => l | _ => [] end.

(** "extract the item list from either an [items] field or treat the whole
    body as the list if no such field exists" *)
Definition body_items (body : JsValue) : list JsValue :=
  match body with
  | JObj fields =>
      match own_property fields "items" with
      | Some items => item_list items
      | None => item_list body
      end
  | _ => item_list body
  end.

(** [v.k], with [undefined] where the read would throw. *)
Definition field (v : JsValue) (k : string) : JsValue :=
  match get v k with
  | Normal x => x
  | Throw _ => JUndefined
  end.

(** The record the vendor fields are read from: [item.fieldData || item]. *)
Definition field_data (item : JsValue) : JsValue := field item "fieldData" ||| item.

(** Absent, empty or otherwise falsy, or else a string. *)
Definition textual (v : JsValue) : bool := negb (truthy v) || is_string v.

(** The value can be turned into a property name. *)
Definition converts `{Host} (v : JsValue) : bool := returns (ToString v).

(** The value a description is made of: the first truthy one among the
    description keys, else the empty string. *)
Definition monument_description (fd : JsValue) : JsValue :=
  field fd "description" ||| (field fd "Description" ||| JStr EmptyString).

Definition ecosystem_description (fd : JsValue) : JsValue :=
  field fd "description"
    ||| (field fd "Description" ||| (field fd "notes" ||| JStr EmptyString)).

(** The value a monument's coordinates are made of: the first truthy one
    among the coordinate keys, else what the last key holds. *)
Definition coordinate_source (fd : JsValue) : JsValue :=
  field fd "locationcoords" ||| (field fd "coordinates" ||| field fd "Location").

(** A coordinate source the parser has an answer for: falsy, a two-element
    array, a string [<lat>,<lng>] that parses, or a value with a property
    name to look up. *)
Definition coordinates_ok `{Host} (v : JsValue) : bool :=
  negb (truthy v) || is_pair v || coordinate_string v || converts v.

(** Every one of [keys] reads as [undefined] in [v]. *)
Definition absent (v : JsValue) (keys : list string) : Prop :=
  Forall (fun k => field v k = JUndefined) keys.

(** The fields handed through as they are, each with the vendor keys it
    is read from, in the order tried. *)
Definition monument_passed : list (string * list string) :=
  [ ("name", ["name"; "Name"]);
    ("status", ["status"; "Status"]);
    ("location", ["location"; "Location"]);
    ("year", ["year"; "Year"]);
    ("height", ["height"; "Height"]);
    ("builtBy", ["built-by"; "Built By"]);
    ("fundedBy", ["funded-by"; "Funded By"]);
    ("conceptualizedBy", ["conceptualized-by"; "Conceptualized By"]);
    ("link", ["link-2"; "link"; "Link"]) ].

Definition ecosystem_passed : list (string * list string) :=
  [ ("name", ["name"; "Name"]);
    ("association", ["association"; "Association"]);
    ("location", ["location"; "Location"]);
    ("website", ["website"; "Website"]) ].

(** The first truthy value among those [keys] hold in [v], else what the
    last key holds. *)
Fixpoint first_truthy (v : JsValue) (keys : list string) : JsValue :=
  match keys with
  | [] => JUndefined
  | [k] => field v k
  | k :: later => if truthy (field v k) then field v k else first_truthy v later
  end.

(** What a page reports as its total: nothing, or a number. *)
Inductive reports : JsValue -> option JsNum -> Prop :=
| reports_undefined : reports JUndefined None
| reports_null : reports JNull None
| reports_count n : reports (JNum n) (Some n).

Inductive Verdict :=
| Stop (out : list JsValue)
| Advance (collected : list JsValue).

(** "Termination conditions, checked in order after each page: (a) zero
    items returned: stop; (b) a total count is present and the running
    total collected so far is >= it: stop; (c) the number of items in this
    page is less than the page size: stop.  Otherwise advance." *)
Definition three_checks (pageSize : nat) (collected page : list JsValue)
    (total : option JsNum) : Verdict :=
  let running := collected ++ page in
  if Nat.eqb (length page) 0 then Stop collected
  else if match total with
          | Some count => num_geb (num_of_nat (length running)) count
          | None => false
          end then Stop running
  else if Nat.ltb (length page) pageSize then Stop running
  else Advance running.

(** [t] occurs inside [s]. *)
Definition occurs_in (t s : string) : Prop :=
  exists before behind, s = before +:+ t +:+ behind.

Fixpoint starts_with (t s : string) : bool :=
  match t, s with
  | EmptyString, _ => true
  | String a t', String b s' => Ascii.eqb a b && starts_with t' s'
  | String _ _, EmptyString => false
  end.

(** The decision procedure for [occurs_in]. *)
Fixpoint occurs (t s : string) : bool :=
  starts_with t s ||
  match s with
  | EmptyString => false
  | String _ s' => occurs t s'
  end.

(** How a paginator must treat a page, whatever precedes it: [run fuel
    offset collected] is the loop entered with that offset and those items;
    the page answered at [offset] holds the items [items_of] extracts and
    may report a total through [total_of]. *)
Definition follows_three_checks (pageSize : nat) (request : nat -> Request)
    (run : nat -> nat -> list JsValue -> Sweep) (fetch : Network)
    (items_of total_of : JsValue -> Completion JsValue) : Prop :=
  forall (fuel offset : nat) (collected : list JsValue) (response : HttpResponse)
         (body : JsValue) (page : list JsValue) (t : JsValue) (total : option JsNum),
    fetch (request offset) = Normal response ->
    ok response = true ->
    json response = Normal body ->
    items_of body = Normal (JArr page) ->
    total_of body = Normal t ->
    reports t total ->
    run (S fuel) offset collected =
      after (request offset)
        match three_checks pageSize collected page total with
        | Stop out => finished (Normal out)
        | Advance running => run fuel (offset + pageSize) running
        end.

(** The same, of a page [{ items: [...], ... }] as it arrives: the body
    answered at [offset] holds the array [page] under [items], and what is
    found at [total_at] in the body is the total the paginator goes by. *)
Definition checks_pages (pageSize : nat) (request : nat -> Request)
    (run : nat -> nat -> list JsValue -> Sweep) (fetch : Network)
    (total_at : JsValue -> JsValue) : Prop :=
  forall (fuel offset : nat) (collected : list JsValue) (response : HttpResponse)
         (body : JsValue) (page : list JsValue) (total : option JsNum),
    fetch (request offset) = Normal response ->
    ok response = true ->
    json response = Normal body ->
    field body "items" = JArr page ->
    reports (total_at body) total ->
    run (S fuel) offset collected =
      after (request offset)
        match three_checks pageSize collected page total with
        | Stop out => finished (Normal out)
        | Advance running => run fuel (offset + pageSize) running
        end.

(** Every turn of the loop opens with the request for the page at its
    offset. *)
Definition asks_at_offset (request : nat -> Request)
    (run : nat -> nat -> list JsValue -> Sweep) : Prop :=
  forall (fuel offset : nat) (collected : list JsValue),
    exists later, sent (run (S fuel) offset collected) = request offset :: later.

(** The items of the page a request was answered with. *)
Definition page_of (items_of : JsValue -> Completion JsValue)
    (answer : Completion HttpResponse) : list JsValue :=
  match answer with
  | Normal response =>
      if ok response then
        match json response with
        | Normal body =>
            match items_of body with
            | Normal v => item_list v
            | Throw _ => []
            end
        | Throw _ => []
        end
      else []
  | Throw _ => []
  end.

(** The upstream keeps to the declared shape of a page: what it sends as
    [items] is an array, if it sends any. *)
Definition sends_lists (items_of : JsValue -> Completion JsValue) (fetch : Network) : Prop :=
  forall req response body v,
    fetch req = Normal response -> json response = Normal body ->
    items_of body = Normal v -> is_array v = true.

(** The upstream answers the [i]-th request of a sweep with the [i]-th of
    [pages], as a body [{ items: [...] }] without a total. *)
Definition serves (fetch : Network) (request : nat -> Request) (step : nat)
    (pages : list (list JsValue)) : Prop :=
  forall i page, pages !! i = Some page ->
    exists response,
      fetch (request (i * step)) = Normal response
      /\ ok response = true
      /\ json response = Normal (JObj [ ("items", JArr page) ]).

(** The offsets of the first [n] requests of a sweep. *)
Definition offsets (step n : nat) : list nat := (fun i => i * step) <$> seq 0 n.

(** The value of a response header, if the response carries it. *)
Fixpoint header_in (headers : list (string * string)) (name : string) : option string :=
  match headers with
  | [] => None
  | (name', value) :: rest =>
      if String.eqb name' name then Some value else header_in rest name
  end.

Definition header (response : Routes.Response) (name : string) : option string :=
  header_in (Routes.res_headers response) name.

Definition cors_headers : list string :=
  [ "Access-Control-Allow-Origin"; "Access-Control-Allow-Methods";
    "Access-Control-Allow-Headers" ].

(** A 500 with the single header [Content-Type: application/json]. *)
Definition bare_error (response : Routes.Response) : Prop :=
  Routes.res_status response = 500
  /\ Routes.res_headers response = [ ("Content-Type", "application/json") ]
  /\ Forall (fun name => header response name = None) cors_headers.

(** A 200 with the three CORS headers. *)
Definition open_success (response : Routes.Response) : Prop :=
  Routes.res_status response = 200
  /\ header response "Access-Control-Allow-Origin" = Some "*"
  /\ header response "Access-Control-Allow-Methods" = Some "GET"
  /\ header response "Access-Control-Allow-Headers" = Some "Content-Type".

(** The producer behind a cached fetcher: "the paginate+normalize work".
    [None] while the sweep is still turning. *)
Definition producer `{Host} (fuel : nat) (this : Client.WebflowCMS) (fetch : Network)
    (url : string) (normalize : JsValue -> Completion JsValue)
  : option (Completion (list JsValue)) :=
  match result (Client.fetchAllPages fuel this fetch url) with
  | Some tried => Some (let! items := tried in map_throwing normalize items)
  | None => None
  end.

(** An entry for [key] exists and is younger than the TTL at [now]. *)
Definition fresh (this : Client.WebflowCMS) (key : string) (now : Z) (items : list JsValue)
  : Prop :=
  exists entry,
    Client.cache this !! key = Some entry
    /\ (now - Client.timestamp entry < Client.cacheExpiry this)%Z
    /\ Client.data entry = items.

(** No entry for [key], or one that has reached the TTL at [now]. *)
Definition stale (this : Client.WebflowCMS) (key : string) (now : Z) : Prop :=
  forall items, ~ fresh this key now items.

(** What the TTL cache promises of a fetcher for [key], as long as the
    producer does not fail.
    - A fresh entry is returned and the producer is left alone: no request
      goes out and the instance stays as it is.
    - Without a fresh entry the producer runs (requests go out), and what
      it produces is returned and stored under [key] with the time of the
      store.
    - Hence, after a call that produced [items] and stored them at [t1'],
      a call within the TTL of [t1'] returns [items] without running the
      producer, and a call at or after the expiry runs it again and
      overwrites the entry with what it produces and the new time. *)
Definition caches `{Host} (key url : string) (normalize : JsValue -> Completion JsValue)
    (fetcher : nat -> Client.WebflowCMS -> Network -> Z -> Z -> Client.Call) : Prop :=
  (forall fuel this fetch now now' items,
     fresh this key now items ->
     fetcher fuel this fetch now now' = Client.mkCall [] (Some (Normal items)) this)
  /\ (forall fuel this fetch now now',
        stale this key now ->
        Client.requests (fetcher (S fuel) this fetch now now')
          = sent (Client.fetchAllPages (S fuel) this fetch url)
        /\ Client.requests (fetcher (S fuel) this fetch now now') <> [])
  /\ (forall fuel this fetch now now' items,
        stale this key now ->
        producer fuel this fetch url normalize = Some (Normal items) ->
        Client.returned (fetcher fuel this fetch now now') = Some (Normal items)
        /\ Client.instance (fetcher fuel this fetch now now')
           = Client.setCachedData this key items now')
  /\ (forall fuel1 this fetch1 t1 t1' items,
        stale this key t1 ->
        producer fuel1 this fetch1 url normalize = Some (Normal items) ->
        let first := fetcher fuel1 this fetch1 t1 t1' in
        Client.requests first <> []
        /\ (forall fuel fetch t2 t2',
              (t2 - t1' < Client.cacheExpiry this)%Z ->
              fetcher fuel (Client.instance first) fetch t2 t2'
              = Client.mkCall [] (Some (Normal items)) (Client.instance first))
        /\ (forall fuel fetch t3 t3',
              (Client.cacheExpiry this <= t3 - t1')%Z ->
              Client.requests (fetcher (S fuel) (Client.instance first) fetch t3 t3') <> []
              /\ forall items3,
                   producer (S fuel) (Client.instance first) fetch url normalize
                     = Some (Normal items3) ->
                   Client.returned (fetcher (S fuel) (Client.instance first) fetch t3 t3')
                     = Some (Normal items3)
                   /\ Client.cache
                        (Client.instance (fetcher (S fuel) (Client.instance first) fetch t3 t3'))
                        !! key
                      = Some (Client.mkEntry items3 t3'))).

(** What the fetchers do when the producer fails. *)
Definition swallows_failures `{Host} (key url : string)
    (normalize : JsValue -> Completion JsValue)
    (fetcher : nat -> Client.WebflowCMS -> Network -> Z -> Z -> Client.Call) : Prop :=
  forall fuel this fetch now now' error,
    stale this key now ->
    producer fuel this fetch url normalize = Some (Throw error) ->
    fetcher fuel this fetch now now'
    = Client.mkCall (sent (Client.fetchAllPages fuel this fetch url)) (Some (Normal [])) this.

End Spec.

(** * Observations used by the further properties *)

Module Observe.

(** The string holds a complete tag: a [<] with a [>] somewhere after it,
    which is what [/<[^>]*>/] matches. *)
Fixpoint has_tag (s : string) : bool :=
  match s with
  | EmptyString => false
  | String a rest =>
      (Ascii.eqb a "<"%char && includes ">"%char rest) || has_tag rest
  end.

(** The keys of an object, in order. *)
Definition keys_of (v : JsValue) : list string :=
  match v with
  | JObj fields => fst <$> fields
  | _ => []
  end.

Definition monument_keys : list string :=
  [ "id"; "name"; "status"; "location"; "coordinates"; "description"; "year";
    "height"; "builtBy"; "fundedBy"; "conceptualizedBy"; "tags"; "link" ].

Definition ecosystem_keys : list string :=
  [ "id"; "name"; "type"; "category"; "association"; "location"; "website";
    "description"; "tags" ].

(** The labels [mapTypeAndCategory] can give for a type and for a category. *)
Definition type_labels : list JsValue :=
  JStr <$> [ "Concept"; "Program"; "Organization"; "Person"; "Unknown" ].

Definition category_labels : list JsValue :=
  JStr <$> [ "Concepts"; "Programs"; "Organizations"; "Patrons"; "Founders"; "Unknown" ].

(** The fields of an object. *)
Definition item_fields (v : JsValue) : list (string * JsValue) :=
  match v with
  | JObj fields => fields
  | _ => []
  end.

(** A pair of numbers neither of which is NaN. *)
Definition is_coordinate_pair (v : JsValue) : bool :=
  match v with
  | JArr [JNum lat; JNum lng] => negb (num_is_nan lat) && negb (num_is_nan lng)
  | _ => false
  end.

(** The shape the two [while (true)] loops share: request the page at the
    offset, fail on a rejected request, a bad status or a bad body, else let
    [turns] decide between leaving with a result and going on [step] further. *)
Fixpoint sweep_loop (request : nat -> Request) (error_of : HttpResponse -> JsError)
    (turns : JsValue -> list JsValue -> Completion (list JsValue + list JsValue))
    (step fuel : nat) (fetch : Network) (offset : nat) (collected : list JsValue) : Sweep :=
  match fuel with
  | O => mkSweep [] None
  | S fuel =>
      after (request offset)
        match fetch (request offset) with
        | Throw e => finished (Throw e)
        | Normal response =>
            if negb (ok response) then finished (Throw (error_of response))
            else
              match json response with
              | Throw e => finished (Throw e)
              | Normal body =>
                  match turns body collected with
                  | Throw e => finished (Throw e)
                  | Normal (inl out) => finished (Normal out)
                  | Normal (inr acc) =>
                      sweep_loop request error_of turns step fuel fetch (offset + step) acc
                  end
              end
        end
  end.

(** What a paginator does with an answer whose status is not a success
    before it throws: the proxy reads the body text, which may fail, and
    builds its error from the status and the text; the browser client
    builds its error from the status alone. *)
Definition proxy_refusal (response : HttpResponse) : Completion JsError :=
  let! body := text response in
  Normal (Proxy.upstream_error response body).

Definition client_refusal (response : HttpResponse) : Completion JsError :=
  Normal (Client.http_error response).

(** The exception the [throw] of a refusal leaves: the error built, or the
    one that kept it from being built. *)
Definition thrown (refusal : Completion JsError) : JsError :=
  match refusal with
  | Normal error => error
  | Throw error => error
  end.

(** How the answer to a request made a sweep fail with [error]: the
    request was rejected; the status was not a success and [error] is the
    error the paginator built for it; the status was not a success and
    [error] is what building that error threw; the body was not JSON; a
    turn of the loop threw on the body. *)
Definition fails_with (fetch : Network) (refusal : HttpResponse -> Completion JsError)
    (turns : JsValue -> list JsValue -> Completion (list JsValue + list JsValue))
    (req : Request) (error : JsError) : Prop :=
  fetch req = Throw error
  \/ (exists response,
        fetch req = Normal response /\ ok response = false
        /\ refusal response = Normal error)
  \/ (exists response,
        fetch req = Normal response /\ ok response = false
        /\ refusal response = Throw error)
  \/ (exists response,
        fetch req = Normal response /\ ok response = true
        /\ json response = Throw error)
  \/ (exists response body collected,
        fetch req = Normal response /\ ok response = true
        /\ json response = Normal body
        /\ turns body collected = Throw error).

(** The request was answered with a success status and a JSON body. *)
Definition answered_well (fetch : Network) (req : Request) : Prop :=
  exists response body,
    fetch req = Normal response /\ ok response = true /\ json response = Normal body.

(** What every call of a cached fetcher for [key] leaves alone: it never
    throws, keeps the TTL and the page size, touches no entry but its own,
    removes none, and changes nothing when it sends no request. *)
Definition keeps_instance `{Host} (key : string)
    (fetcher : nat -> Client.WebflowCMS -> Network -> Z -> Z -> Client.Call) : Prop :=
  forall fuel this fetch now now',
    (forall error, Client.returned (fetcher fuel this fetch now now') <> Some (Throw error))
    /\ Client.cacheExpiry (Client.instance (fetcher fuel this fetch now now'))
       = Client.cacheExpiry this
    /\ Client.pageSize (Client.instance (fetcher fuel this fetch now now'))
       = Client.pageSize this
    /\ (forall other, other <> key ->
          Client.cache (Client.instance (fetcher fuel this fetch now now')) !! other
          = Client.cache this !! other)
    /\ dom (Client.cache this)
         ⊆ dom (Client.cache (Client.instance (fetcher fuel this fetch now now')))
    /\ (Client.requests (fetcher fuel this fetch now now') = [] ->
        Client.instance (fetcher fuel this fetch now now') = this).

(** A fetcher that finds no fresh entry and whose sweep brought [raw]
    returns the normalized items, one per raw item in the same order, and
    stores them, or, when one item cannot be normalized, returns the empty
    list and stores nothing. *)
Definition all_or_nothing `{Host} (key url : string)
    (normalize : JsValue -> Completion JsValue)
    (fetcher : nat -> Client.WebflowCMS -> Network -> Z -> Z -> Client.Call) : Prop :=
  forall fuel this fetch now now' raw,
    Client.getCachedData this key now = None ->
    result (Client.fetchAllPages fuel this fetch url) = Some (Normal raw) ->
    (exists items,
       Forall2 (fun item normalized => normalize item = Normal normalized) raw items
       /\ fetcher fuel this fetch now now'
          = Client.mkCall (sent (Client.fetchAllPages fuel this fetch url))
              (Some (Normal items)) (Client.setCachedData this key items now'))
    \/ (exists bad error,
          bad ∈ raw /\ normalize bad = Throw error
          /\ fetcher fuel this fetch now now'
             = Client.mkCall (sent (Client.fetchAllPages fuel this fetch url))
                 (Some (Normal [])) this).

(** What a route answers, for the collection id [id_of] reads from the
    environment and the message [failure] of its [catch]: without the token
    or the id, the fixed configuration error whatever the network does;
    a 500 carries one of two fixed messages and nothing of the cause; a 200
    carries the swept items as they came. *)
Definition route_contract `{Host} (GET : nat -> Routes.Env -> Network -> option Routes.Response)
    (id_of : Routes.Env -> option string) (failure : string) : Prop :=
  (forall fuel fuel' env fetch fetch',
     Routes.present (Routes.WEBFLOW_API_TOKEN env) = None
     \/ Routes.present (id_of env) = None ->
     GET fuel env fetch = Some (Routes.error_response "Missing API credentials")
     /\ GET fuel' env fetch' = GET fuel env fetch)
  /\ (forall fuel env fetch response,
        GET fuel env fetch = Some response ->
        Routes.res_status response = 500 ->
        Routes.res_payload response = JObj [ ("error", JStr "Missing API credentials") ]
        \/ Routes.res_payload response = JObj [ ("error", JStr failure) ])
  /\ (forall fuel env fetch response,
        GET fuel env fetch = Some response ->
        Routes.res_status response = 200 ->
        exists apiToken collectionId items,
          Routes.present (Routes.WEBFLOW_API_TOKEN env) = Some apiToken
          /\ Routes.present (id_of env) = Some collectionId
          /\ result (Proxy.fetchAllCollectionItems fuel fetch collectionId apiToken)
             = Some (Normal items)
          /\ Routes.res_payload response = JObj [ ("items", JArr items) ]).

(** Every answer of the upstream is a success whose body is an object with
    an array under [items] and neither [total] nor [pagination]; the proxy
    and the browser client get the same answer for the same offset. *)
Definition plain_pages (fetch fetch' : Network) (request request' : nat -> Request) : Prop :=
  forall offset,
    exists response fields page,
      fetch (request offset) = Normal response
      /\ fetch' (request' offset) = Normal response
      /\ ok response = true
      /\ json response = Normal (JObj fields)
      /\ own_property fields "items" = Some (JArr page)
      /\ own_property fields "total" = None
      /\ own_property fields "pagination" = None.

End Observe.

(** * Proofs *)

(** ** Completions *)

Lemma cbind_normal {A B} (c : Completion A) (k : A -> Completion B) (b : B) :
  (let! x := c in k x) = Normal b ->
  exists a, c = Normal a /\ k a = Normal b.
Proof. destruct c as [a|e]; simpl; [eauto | discriminate]. Qed.

Lemma cbind_returns {A B} (c : Completion A) (k : A -> Completion B) :
  returns c = true ->
  (forall a, c = Normal a -> returns (k a) = true) ->
  returns (let! x := c in k x) = true.
Proof. destruct c as [a|e]; simpl; [auto | discriminate]. Qed.

Lemma returns_normal {A} (c : Completion A) :
  returns c = true <-> exists a, c = Normal a.
Proof.
  destruct c as [a|e]; simpl; split; try done; eauto.
  by intros [a Ha].
Qed.

Lemma or_else_returns (a b : Completion JsValue) :
  returns a = true -> returns b = true -> returns (a ||! b) = true.
Proof.
  intros Ha Hb. unfold or_else. apply cbind_returns; [done|].
  intros x _. by destruct (truthy x).
Qed.

(** An [||] chain yields one of its operands. *)
Lemma or_else_operand (a b : Completion JsValue) (x : JsValue) :
  (a ||! b) = Normal x -> a = Normal x \/ b = Normal x.
Proof.
  unfold or_else. destruct a as [y|e]; simpl; [|discriminate].
  destruct (truthy y); [intros [= ->]; by left | by right].
Qed.

(** ** Property reads *)

Lemma get_not_nullish (v : JsValue) (k : string) :
  not_nullish v = true -> returns (get v k) = true.
Proof.
  destruct v; simpl; try discriminate; intros _; try done.
  all: repeat case_match; done.
Qed.

Lemma get_throws_iff (v : JsValue) (k : string) :
  returns (get v k) = false <-> not_nullish v = false.
Proof.
  split.
  - intros Hr. destruct (not_nullish v) eqn:Hv; [|done].
    apply (get_not_nullish v k) in Hv. congruence.
  - destruct v; simpl; done.
Qed.

Lemma js_or_not_nullish (a b : JsValue) :
  not_nullish b = true -> not_nullish (a ||| b) = true.
Proof.
  intros Hb. unfold js_or. destruct (truthy a) eqn:Ha; [|done].
  by destruct a.
Qed.

(** ** Strings *)

Lemma split_nonempty (c : ascii) (s : string) : split c s <> [].
Proof.
  destruct s as [|a rest]; simpl; [done|].
  destruct (Ascii.eqb a c); [done|]. by destruct (split c rest).
Qed.

(** Joining the pieces with the separator gives the string back. *)
Lemma join_split (c : ascii) (s : string) : join c (split c s) = s.
Proof.
  induction s as [|a rest IH]; simpl; [done|].
  destruct (Ascii.eqb a c) eqn:Hac.
  - apply Ascii.eqb_eq in Hac as ->.
    pose proof (split_nonempty c rest).
    destruct (split c rest) as [|p ps] eqn:Hs; [done|].
    simpl in *. by rewrite IH.
  - pose proof (split_nonempty c rest).
    destruct (split c rest) as [|p ps] eqn:Hs; [done|].
    destruct ps; simpl in *; by rewrite <- IH.
Qed.

Lemma split_pieces_clean (c : ascii) (s : string) :
  Forall (fun piece => includes c piece = false) (split c s).
Proof.
  induction s as [|a rest IH]; simpl.
  - by repeat constructor.
  - destruct (Ascii.eqb a c) eqn:Hac.
    + by constructor.
    + destruct (split c rest) as [|p ps]; [repeat constructor; simpl; by rewrite Hac|].
      inversion IH; subst. constructor; [simpl; by rewrite Hac | done].
Qed.

Lemma split_without (c : ascii) (s : string) :
  includes c s = false -> split c s = [s].
Proof.
  induction s as [|a rest IH]; simpl; [done|].
  destruct (Ascii.eqb a c); [discriminate|].
  intros Hr. by rewrite (IH Hr).
Qed.

Lemma split_with (c : ascii) (s : string) :
  includes c s = true -> 2 <= length (split c s).
Proof.
  induction s as [|a rest IH]; simpl; [discriminate|].
  destruct (Ascii.eqb a c).
  - intros _. pose proof (split_nonempty c rest).
    destruct (split c rest); [done | simpl; lia].
  - intros Hr. specialize (IH Hr).
    destruct (split c rest); simpl in *; lia.
Qed.

Lemma split_two_includes (c : ascii) (s a b : string) :
  split c s = [a; b] -> includes c s = true.
Proof.
  intros Hs. destruct (includes c s) eqn:Hi; [done|].
  rewrite (split_without _ _ Hi) in Hs. discriminate.
Qed.

Lemma trim_start_clean (s : string) :
  match trim_start s with
  | EmptyString => True
  | String a _ => is_space a = false
  end.
Proof.
  induction s as [|a rest IH]; simpl; [done|].
  destruct (is_space a) eqn:Ha; [done | simpl; done].
Qed.

Lemma trim_clean (s : string) :
  match trim s with
  | EmptyString => True
  | String a _ => is_space a = false
  end.
Proof.
  unfold trim. pose proof (trim_start_clean s) as Hstart.
  destruct (trim_start s) as [|a rest]; [done|].
  cbn [trim_end]. destruct (trim_end rest); [by rewrite Hstart | done].
Qed.

Example split_example : split comma "a, b ,c" = ["a"; " b "; "c"].
Proof. reflexivity. Qed.

Example trim_example : trim (String "009" "  b ,") = "b ," /\ trim "   " = EmptyString.
Proof. split; reflexivity. Qed.

Example strip_tags_example :
  strip_tags false "<p>Hi <b>there</b></p>" = "Hi there"
  /\ strip_tags false "3 < 4 <i>or</i> 5 <" = "3 or 5 <".
Proof. split; reflexivity. Qed.

Lemma strip_tags_no_open (s : string) :
  includes "<"%char s = false -> strip_tags false s = s.
Proof.
  induction s as [|a rest IH]; simpl; [done|].
  destruct (Ascii.eqb a "<"); [discriminate|].
  intros Hr. simpl. by rewrite (IH Hr).
Qed.

(** ** The normalizer's tag parser *)

Section Tags.
Import Client Spec.

Lemma kept_tags (pieces : list string) :
  List.filter (fun tag => truthy (JStr tag)) (trim <$> pieces)
  = flat_map (fun piece => match trim piece with EmptyString => [] | tag => [tag] end)
      pieces.
Proof.
  induction pieces as [|p ps IH]; [done|].
  cbn [fmap list_fmap flat_map List.filter]. fold (fmap (M:=list) trim ps).
  rewrite IH. by destruct (trim p).
Qed.

(** Every tag that comes out of a string is trimmed at the front, is not
    empty and holds no comma. *)
Lemma tags_of_string_nonempty (s : string) :
  Forall (fun tag => tag <> EmptyString) (tags_of_string s).
Proof.
  unfold tags_of_string. induction (split comma s) as [|p ps IH]; simpl; [done|].
  apply Forall_app; split; [|done].
  destruct (trim p) eqn:Hp; by repeat constructor.
Qed.

(** C9. The tag parser returns an array unchanged, turns a string into the
    array of its comma-separated pieces, each trimmed, the empty ones
    dropped (so ["a, b ,c"] gives [["a","b","c"]]), and answers the empty
    array on every other input, [undefined] included. *)
Theorem parseTags_cases :
  (forall tags : JsValue,
     parseTags tags =
       match tags with
       | JArr l => JArr l
       | JStr s => JArr (JStr <$> tags_of_string s)
       | _ => JArr []
       end)
  /\ parseTags (JStr "a, b ,c") = JArr [JStr "a"; JStr "b"; JStr "c"]
  /\ parseTags (JStr " , ,") = JArr []
  /\ parseTags (JArr [JNum (Fin 1); JStr " x "]) = JArr [JNum (Fin 1); JStr " x "]
  /\ parseTags (JArr []) = JArr []
  /\ parseTags (JNum (Fin 7)) = JArr []
  /\ parseTags JUndefined = JArr [].
Proof.
  split; [|by vm_compute].
  intros tags. unfold parseTags.
  destruct tags as [| |b|n|s|l|fs|name]; simpl; try done.
  - by destruct b.
  - by destruct (num_truthy n).
  - destruct s as [|a rest]; [done|].
    cbn [String.eqb negb]. unfold tags_of_string. by rewrite kept_tags.
Qed.

End Tags.

(** ** The normalizer's coordinate parser *)

Section Coordinates.
Context `{Host}.
Import Client Spec.

Lemma table_get_key (table : list (string * JsValue)) (key : JsValue) (name : string) :
  ToString key = Normal name -> table_get table key = Normal (object_get table name).
Proof. intros Hk. unfold table_get. by rewrite Hk. Qed.

(** Every value of the location table is truthy. *)
Lemma commonLocations_truthy (name : string) (c : JsValue) :
  own_property commonLocations name = Some c -> truthy c = true.
Proof.
  unfold commonLocations, own_property. intros Hc.
  repeat (case_match; [by simplify_eq|]). discriminate.
Qed.

Lemma geocodeLocation_hit (location : JsValue) (name : string) (c : JsValue) :
  ToString location = Normal name ->
  own_property commonLocations name = Some c ->
  geocodeLocation location = Normal c.
Proof.
  intros Hk Hc. unfold geocodeLocation. rewrite (table_get_key _ _ _ Hk). simpl.
  unfold object_get. rewrite Hc. unfold js_or.
  by rewrite (commonLocations_truthy _ _ Hc).
Qed.

Lemma geocodeLocation_miss (location : JsValue) (name : string) :
  ToString location = Normal name ->
  own_property commonLocations name = None ->
  inherited name = false ->
  geocodeLocation location = Normal JNull.
Proof.
  intros Hk Hc Hi. unfold geocodeLocation. rewrite (table_get_key _ _ _ Hk). simpl.
  unfold object_get. by rewrite Hc, Hi.
Qed.

(** A name that is no key of the table but is inherited from
    [Object.prototype] finds the inherited member, not [null]. *)
Lemma geocodeLocation_inherited (location : JsValue) (name : string) :
  ToString location = Normal name ->
  own_property commonLocations name = None ->
  inherited name = true ->
  geocodeLocation location = Normal (JBuiltin ("Object.prototype." +:+ name)).
Proof.
  intros Hk Hc Hi. unfold geocodeLocation. rewrite (table_get_key _ _ _ Hk). simpl.
  unfold object_get. by rewrite Hc, Hi.
Qed.

Lemma parseCoordinates_falsy (v : JsValue) :
  truthy v = false -> parseCoordinates v = Normal JNull.
Proof. intros Hv. unfold parseCoordinates. by rewrite Hv. Qed.

Lemma parseCoordinates_pair (x y : JsValue) :
  parseCoordinates (JArr [x; y]) = Normal (JArr [x; y]).
Proof. done. Qed.

Lemma parseCoordinates_string (s lat lng : string) :
  split comma s = [lat; lng] ->
  num_is_nan (parseFloat (trim lat)) = false ->
  num_is_nan (parseFloat (trim lng)) = false ->
  parseCoordinates (JStr s)
  = Normal (JArr [JNum (parseFloat (trim lat)); JNum (parseFloat (trim lng))]).
Proof.
  intros Hs Hlat Hlng. unfold parseCoordinates.
  pose proof (split_two_includes _ _ _ _ Hs) as Hi.
  assert (truthy (JStr s) = true) as ->.
  { destruct s; [discriminate Hi | done]. }
  simpl. rewrite Hi, Hs. simpl. by rewrite Hlat, Hlng.
Qed.

Lemma parseCoordinates_fallback (v : JsValue) :
  truthy v = true -> is_pair v = false -> coordinate_string v = false ->
  parseCoordinates v = geocodeLocation v.
Proof.
  intros Hv Hp Hc. unfold parseCoordinates. rewrite Hv. simpl.
  destruct v as [| |b|n|s|l|fs|name]; try done.
  - simpl in Hc. destruct (includes comma s) eqn:Hi; [|done].
    destruct (split comma s) as [|lat [|lng [|more rest]]]; simpl; try done.
    by rewrite Hc.
  - destruct l as [|x [|y [|z rest]]]; try done.
Qed.

(** C2, as the code has it.  A string [<lat>,<lng>] whose two pieces both
    parse gives the two parsed numbers; every two-element array passes
    through unchanged, whatever its elements are; a falsy input gives
    [null]; any other input is looked up, by its property name, in the
    location table, and the lookup gives [null] when that name is neither
    a key of the table nor a name inherited from [Object.prototype] (an
    input that has no property name makes the parser throw). *)
Theorem parseCoordinates_cases :
  (forall s lat lng : string,
     split comma s = [lat; lng] ->
     num_is_nan (parseFloat (trim lat)) = false ->
     num_is_nan (parseFloat (trim lng)) = false ->
     parseCoordinates (JStr s)
     = Normal (JArr [JNum (parseFloat (trim lat)); JNum (parseFloat (trim lng))]))
  /\ (forall x y : JsValue, parseCoordinates (JArr [x; y]) = Normal (JArr [x; y]))
  /\ (forall v : JsValue, truthy v = false -> parseCoordinates v = Normal JNull)
  /\ (forall (v : JsValue) (name : string),
        truthy v = true -> is_pair v = false -> coordinate_string v = false ->
        ToString v = Normal name ->
        parseCoordinates v =
          match own_property commonLocations name with
          | Some found => Normal found
          | None =>
              if inherited name then Normal (JBuiltin ("Object.prototype." +:+ name))
              else Normal JNull
          end)
  /\ (forall (v : JsValue) (error : JsError),
        truthy v = true -> is_pair v = false -> coordinate_string v = false ->
        ToString v = Throw error ->
        parseCoordinates v = Throw error).
Proof.
  split; [exact parseCoordinates_string|].
  split; [exact parseCoordinates_pair|].
  split; [exact parseCoordinates_falsy|].
  split.
  - intros v name Hv Hp Hc Hk.
    rewrite (parseCoordinates_fallback v Hv Hp Hc).
    destruct (own_property commonLocations name) as [found|] eqn:Hf.
    + by apply geocodeLocation_hit with name.
    + destruct (inherited name) eqn:Hi.
      * by apply geocodeLocation_inherited.
      * by apply geocodeLocation_miss with name.
  - intros v error Hv Hp Hc Hk.
    rewrite (parseCoordinates_fallback v Hv Hp Hc).
    unfold geocodeLocation, table_get. by rewrite Hk.
Qed.

End Coordinates.

(** ** The normalizer's transforms *)

Section Normalizer.
Context `{Host}.
Import Client Spec.

Lemma get_field (v : JsValue) (k : string) :
  not_nullish v = true -> get v k = Normal (field v k).
Proof.
  intros Hv. unfold field.
  pose proof (get_not_nullish v k Hv) as Hr.
  by destruct (get v k).
Qed.

Lemma or_else_normal (a : JsValue) (b : Completion JsValue) (y : JsValue) :
  b = Normal y -> (Normal a ||! b) = Normal (a ||| y).
Proof. intros ->. unfold or_else, js_or. simpl. by destruct (truthy a). Qed.

Lemma field_data_not_nullish (item : JsValue) :
  not_nullish item = true -> not_nullish (field_data item) = true.
Proof. apply js_or_not_nullish. Qed.

(** [stripHtml] throws exactly on a truthy value that is not a string. *)
Lemma stripHtml_returns (html : JsValue) : returns (stripHtml html) = textual html.
Proof.
  unfold stripHtml, textual.
  destruct html as [| |b|n|s|l|fs|name]; simpl; try done.
  - by destruct b.
  - by destruct (num_truthy n).
  - by destruct (String.eqb s EmptyString).
Qed.

Lemma geocodeLocation_returns (v : JsValue) :
  returns (geocodeLocation v) = converts v.
Proof.
  unfold geocodeLocation, table_get, converts.
  by destruct (ToString v).
Qed.

(** [parseCoordinates] throws exactly on a truthy value that is neither a
    pair nor a coordinate string and has no property name. *)
Lemma parseCoordinates_ok (v : JsValue) :
  returns (parseCoordinates v) = coordinates_ok v.
Proof.
  unfold coordinates_ok.
  destruct (truthy v) eqn:Hv; [|by rewrite parseCoordinates_falsy].
  destruct (is_pair v) eqn:Hp.
  { destruct v as [| | | | |[|x [|y [|z l]]]| |]; done. }
  destruct (coordinate_string v) eqn:Hc.
  { destruct v as [| | | |s| | |]; try done. cbn [coordinate_string] in Hc.
    destruct (split comma s) as [|lat [|lng [|more rest]]] eqn:Hs; try done.
    apply andb_prop in Hc as [Hlat%negb_true_iff Hlng%negb_true_iff].
    by rewrite (parseCoordinates_string s lat lng Hs Hlat Hlng). }
  by rewrite (parseCoordinates_fallback v Hv Hp Hc), geocodeLocation_returns.
Qed.

Lemma mapTypeAndCategory_ok (typeId categoryId : JsValue) :
  returns (mapTypeAndCategory typeId categoryId) = converts typeId && converts categoryId.
Proof.
  unfold converts, mapTypeAndCategory, table_get.
  destruct (ToString typeId); [|done]. by destruct (ToString categoryId).
Qed.

(** The first truthy value of a list of keys is the value of their [||]
    chain. *)
Lemma first_truthy_three (v : JsValue) (a b c : string) :
  first_truthy v [a; b; c] = field v a ||| (field v b ||| field v c).
Proof. done. Qed.

(** The record a monument comes out as, given its parsed coordinates and
    its stripped description. *)
Lemma normalizeMonument_unfold (item : JsValue) :
  not_nullish item = true ->
  normalizeMonument item =
    let! coordinates := parseCoordinates (coordinate_source (field_data item)) in
    let! description := stripHtml (monument_description (field_data item)) in
    Normal (JObj
      [ ("id", first_truthy item ["id"; "_id"]);
        ("name", first_truthy (field_data item) ["name"; "Name"]);
        ("status", first_truthy (field_data item) ["status"; "Status"]);
        ("location", first_truthy (field_data item) ["location"; "Location"]);
        ("coordinates", coordinates);
        ("description", description);
        ("year", first_truthy (field_data item) ["year"; "Year"]);
        ("height", first_truthy (field_data item) ["height"; "Height"]);
        ("builtBy", first_truthy (field_data item) ["built-by"; "Built By"]);
        ("fundedBy", first_truthy (field_data item) ["funded-by"; "Funded By"]);
        ("conceptualizedBy",
         first_truthy (field_data item) ["conceptualized-by"; "Conceptualized By"]);
        ("tags", parseTags (first_truthy (field_data item) ["tags"; "Tags"]));
        ("link", first_truthy (field_data item) ["link-2"; "link"; "Link"]) ]).
Proof.
  intros Hitem.
  pose proof (field_data_not_nullish item Hitem) as Hfd.
  unfold normalizeMonument.
  rewrite (get_field item "fieldData" Hitem).
  rewrite (or_else_normal _ _ item eq_refl). fold (field_data item).
  cbn [cbind].
  repeat rewrite (get_field item _ Hitem).
  repeat rewrite (get_field (field_data item) _ Hfd).
  repeat (erewrite or_else_normal; [|first [reflexivity | by (erewrite or_else_normal; reflexivity)]]).
  cbn [cbind]. reflexivity.
Qed.

Lemma normalizeEcosystem_unfold (item : JsValue) :
  not_nullish item = true ->
  normalizeEcosystem item =
    let! mappedTypes :=
      mapTypeAndCategory (field (field_data item) "type") (field (field_data item) "category") in
    let! description := stripHtml (ecosystem_description (field_data item)) in
    Normal (JObj
      [ ("id", first_truthy item ["id"; "_id"]);
        ("name", first_truthy (field_data item) ["name"; "Name"]);
        ("type", fst mappedTypes);
        ("category", snd mappedTypes);
        ("association", first_truthy (field_data item) ["association"; "Association"]);
        ("location", first_truthy (field_data item) ["location"; "Location"]);
        ("website", first_truthy (field_data item) ["website"; "Website"]);
        ("description", description);
        ("tags", parseTags (first_truthy (field_data item) ["tags"; "Tags"])) ]).
Proof.
  intros Hitem.
  pose proof (field_data_not_nullish item Hitem) as Hfd.
  unfold normalizeEcosystem.
  rewrite (get_field item "fieldData" Hitem).
  rewrite (or_else_normal _ _ item eq_refl). fold (field_data item).
  cbn [cbind].
  repeat rewrite (get_field item _ Hitem).
  repeat rewrite (get_field (field_data item) _ Hfd).
  repeat (erewrite or_else_normal;
          [|first [reflexivity
                  | by (erewrite or_else_normal; reflexivity)
                  | by (erewrite or_else_normal;
                        [reflexivity | by (erewrite or_else_normal; reflexivity)])]]).
  cbn [cbind]. reflexivity.
Qed.

(** A field whose vendor keys all read as [undefined] has [undefined] as
    its first truthy value. *)
Lemma first_truthy_absent (v : JsValue) (keys : list string) :
  absent v keys -> first_truthy v keys = JUndefined.
Proof.
  induction 1 as [|k [|k' later] Hk _ IH]; [done | done |].
  cbn [first_truthy] in *. by rewrite Hk.
Qed.

Ltac passed_through :=
  let Habs := fresh "Habs" in
  intros Habs; exact (first_truthy_absent _ _ Habs).

(** C6, as the code has it.  The transforms raise on a [null] item.  On
    any other item whose chosen description (the first truthy value among
    its description keys, else the empty string) is falsy or a string, they
    raise exactly when a value used as a lookup key has no property name:
    for a monument the chosen coordinate source, when it is truthy, not a
    two-element array and not a string [<lat>,<lng>] that parses; for an
    ecosystem record [type] or [category].  In the record they return, each
    field handed through is the first truthy value among its vendor keys
    (else what the last key holds), and a field whose vendor keys all read
    as [undefined] comes out as [undefined], as [null] (coordinates), the
    empty string (description), the empty array (tags) or the label
    "Unknown" (type, category). *)
Theorem normalize_returns :
  (forall item : JsValue,
     textual (monument_description (field_data item)) = true ->
     returns (normalizeMonument item)
     = not_nullish item && coordinates_ok (coordinate_source (field_data item)))
  /\ (forall item : JsValue,
        textual (ecosystem_description (field_data item)) = true ->
        returns (normalizeEcosystem item)
        = not_nullish item
          && (converts (field (field_data item) "type")
              && converts (field (field_data item) "category")))
  /\ (forall item out : JsValue,
        normalizeMonument item = Normal out ->
        field out "id" = first_truthy item ["id"; "_id"]
        /\ Forall (fun '(key, keys) => field out key = first_truthy (field_data item) keys)
             monument_passed
        /\ (absent item ["id"; "_id"] -> field out "id" = JUndefined)
        /\ Forall (fun '(key, keys) =>
                     absent (field_data item) keys -> field out key = JUndefined)
             monument_passed
        /\ (absent (field_data item) ["locationcoords"; "coordinates"; "Location"] ->
            field out "coordinates" = JNull)
        /\ (absent (field_data item) ["description"; "Description"] ->
            field out "description" = JStr EmptyString)
        /\ (absent (field_data item) ["tags"; "Tags"] -> field out "tags" = JArr []))
  /\ (forall item out : JsValue,
        normalizeEcosystem item = Normal out ->
        field out "id" = first_truthy item ["id"; "_id"]
        /\ Forall (fun '(key, keys) => field out key = first_truthy (field_data item) keys)
             ecosystem_passed
        /\ (absent item ["id"; "_id"] -> field out "id" = JUndefined)
        /\ Forall (fun '(key, keys) =>
                     absent (field_data item) keys -> field out key = JUndefined)
             ecosystem_passed
        /\ (absent (field_data item) ["type"] -> field out "type" = JStr "Unknown")
        /\ (absent (field_data item) ["category"] -> field out "category" = JStr "Unknown")
        /\ (absent (field_data item) ["description"; "Description"; "notes"] ->
            field out "description" = JStr EmptyString)
        /\ (absent (field_data item) ["tags"; "Tags"] -> field out "tags" = JArr []))
  /\ normalizeMonument (JObj []) =
       Normal (JObj
         [ ("id", JUndefined); ("name", JUndefined); ("status", JUndefined);
           ("location", JUndefined); ("coordinates", JNull);
           ("description", JStr EmptyString); ("year", JUndefined);
           ("height", JUndefined); ("builtBy", JUndefined);
           ("fundedBy", JUndefined); ("conceptualizedBy", JUndefined);
           ("tags", JArr []); ("link", JUndefined) ])
  /\ normalizeEcosystem (JObj []) =
       Normal (JObj
         [ ("id", JUndefined); ("name", JUndefined); ("type", JStr "Unknown");
           ("category", JStr "Unknown"); ("association", JUndefined);
           ("location", JUndefined); ("website", JUndefined);
           ("description", JStr EmptyString); ("tags", JArr []) ]).
Proof.
  split; [|split; [|split; [|split; [|split; reflexivity]]]].
  - intros item Htext.
    destruct (not_nullish item) eqn:Hitem; [|by destruct item].
    rewrite (normalizeMonument_unfold item Hitem). cbn [andb].
    rewrite <- parseCoordinates_ok. rewrite <- stripHtml_returns in Htext.
    destruct (parseCoordinates _) as [c|e]; [|done]. cbn [cbind].
    by destruct (stripHtml _).
  - intros item Htext.
    destruct (not_nullish item) eqn:Hitem; [|by destruct item].
    rewrite (normalizeEcosystem_unfold item Hitem). cbn [andb].
    rewrite <- mapTypeAndCategory_ok. rewrite <- stripHtml_returns in Htext.
    destruct (mapTypeAndCategory _ _) as [m|e]; [|done]. cbn [cbind].
    by destruct (stripHtml _).
  - intros item out Hout.
    destruct (not_nullish item) eqn:Hitem; [|by destruct item].
    rewrite (normalizeMonument_unfold item Hitem) in Hout.
    destruct (parseCoordinates _) as [c|e] eqn:Hc; [|done]. cbn [cbind] in Hout.
    destruct (stripHtml _) as [d|e] eqn:Hd; [|done]. cbn [cbind] in Hout.
    injection Hout as <-.
    split; [done|]. split; [by repeat constructor|].
    split; [passed_through|]. split; [repeat constructor; passed_through|].
    split; [|split].
    + intros Habs. unfold coordinate_source in Hc. rewrite <- first_truthy_three in Hc.
      rewrite (first_truthy_absent _ _ Habs) in Hc. by injection Hc as <-.
    + intros Habs. unfold monument_description, absent in *.
      apply Forall_cons in Habs as [Hk1 Habs]. apply Forall_cons in Habs as [Hk2 _].
      rewrite Hk1, Hk2 in Hd. by injection Hd as <-.
    + intros Habs.
      change (parseTags (first_truthy (field_data item) ["tags"; "Tags"]) = JArr []).
      by rewrite (first_truthy_absent _ _ Habs).
  - intros item out Hout.
    destruct (not_nullish item) eqn:Hitem; [|by destruct item].
    rewrite (normalizeEcosystem_unfold item Hitem) in Hout.
    destruct (mapTypeAndCategory _ _) as [m|e] eqn:Hm; [|done]. cbn [cbind] in Hout.
    destruct (stripHtml _) as [d|e] eqn:Hd; [|done]. cbn [cbind] in Hout.
    injection Hout as <-.
    split; [done|]. split; [by repeat constructor|].
    split; [passed_through|]. split; [repeat constructor; passed_through|].
    split; [|split; [|split]].
    + intros Habs. apply Forall_cons in Habs as [Hk _]. rewrite Hk in Hm.
      unfold mapTypeAndCategory in Hm. cbn [table_get ToString cbind] in Hm.
      destruct (table_get categoryMap _) as [category|e]; [|done].
      by injection Hm as <-.
    + intros Habs. apply Forall_cons in Habs as [Hk _]. rewrite Hk in Hm.
      unfold mapTypeAndCategory in Hm.
      destruct (table_get typeMap _) as [type|e]; [|done].
      cbn [table_get ToString cbind] in Hm. by injection Hm as <-.
    + intros Habs. unfold ecosystem_description, absent in *.
      apply Forall_cons in Habs as [Hk1 Habs]. apply Forall_cons in Habs as [Hk2 Habs].
      apply Forall_cons in Habs as [Hk3 _].
      rewrite Hk1, Hk2, Hk3 in Hd. by injection Hd as <-.
    + intros Habs.
      change (parseTags (first_truthy (field_data item) ["tags"; "Tags"]) = JArr []).
      by rewrite (first_truthy_absent _ _ Habs).
Qed.

End Normalizer.

(** Witnesses and counterexamples of the normalizer, on the decimal host. *)

Section NormalizerExamples.
Import Client Spec Examples.
#[local] Existing Instance decimal_host.

(** A record as the vendor delivers it; a record with a second, unusable
    description that is never reached; a record whose coordinates are a
    pair; and a record whose [type] has no property name. *)
Lemma normalize_returns_witness :
  returns (normalizeMonument statue) = true
  /\ returns (normalizeMonument
                (JObj [ ("description", JStr "fine"); ("Description", JNum (Fin 42)) ]))
     = true
  /\ returns (normalizeMonument
                (JObj [ ("coordinates",
                         JArr [JObj [ ("toString", JNull) ]; JNum (Fin 1)]) ]))
     = true
  /\ returns (normalizeMonument (JObj [ ("Location", JObj [ ("toString", JNull) ]) ]))
     = false
  /\ returns (normalizeEcosystem statue) = true
  /\ returns (normalizeEcosystem (JObj [ ("type", JObj [ ("toString", JNull) ]) ]))
     = false
  /\ (forall out, normalizeMonument statue = Normal out ->
        field out "name" = JStr "Statue of Liberty"
        /\ field out "status" = JUndefined
        /\ field out "link" = JUndefined).
Proof.
  destruct normalize_returns as (Hm & He & Hdm & _).
  split; [exact (Hm statue eq_refl)|].
  split; [exact (Hm (JObj [ ("description", JStr "fine"); ("Description", JNum (Fin 42)) ])
                   eq_refl)|].
  split; [exact (Hm (JObj [ ("coordinates",
                            JArr [JObj [ ("toString", JNull) ]; JNum (Fin 1)]) ])
                   eq_refl)|].
  split; [exact (Hm (JObj [ ("Location", JObj [ ("toString", JNull) ]) ]) eq_refl)|].
  split; [exact (He statue eq_refl)|].
  split; [exact (He (JObj [ ("type", JObj [ ("toString", JNull) ]) ]) eq_refl)|].
  intros out Hout.
  destruct (Hdm statue out Hout) as (_ & Hpassed & _ & Habsent & _).
  split; [|split].
  - exact (Forall_inv Hpassed).
  - apply (Forall_inv (Forall_inv_tail Habsent)). by repeat constructor.
  - refine (Forall_inv (Forall_inv_tail (Forall_inv_tail (Forall_inv_tail
             (Forall_inv_tail (Forall_inv_tail (Forall_inv_tail (Forall_inv_tail
               (Forall_inv_tail Habsent)))))))) _).
    by repeat constructor.
Defined.

(** Against C6: a [null] item, and an item whose description is a number,
    make both transforms throw a TypeError. *)
Lemma normalize_raises :
  normalizeMonument JNull
    = Throw (mkError TypeError "Cannot read properties of null (reading 'fieldData')")
  /\ normalizeEcosystem JNull
    = Throw (mkError TypeError "Cannot read properties of null (reading 'fieldData')")
  /\ normalizeMonument (JObj [ ("description", JNum (Fin 42)) ])
    = Throw (mkError TypeError "html.replace is not a function")
  /\ normalizeEcosystem (JObj [ ("description", JNum (Fin 42)) ])
    = Throw (mkError TypeError "html.replace is not a function").
Proof. repeat split; reflexivity. Qed.

Lemma parseCoordinates_cases_witness :
  parseCoordinates (JStr "40.7,-74.0") = Normal (JArr [JNum (Fin 40.7); JNum (Fin (-74.0))])
  /\ parseCoordinates (JStr EmptyString) = Normal JNull
  /\ parseCoordinates (JStr "Texas") = Normal (coords 31.9686 (-99.9018))
  /\ parseCoordinates (JStr "Atlantis") = Normal JNull
  /\ parseCoordinates (JStr "constructor") = Normal (JBuiltin "Object.prototype.constructor").
Proof.
  destruct (parseCoordinates_cases (H:=decimal_host))
    as (Hstring & _ & Hfalsy & Hlookup & _).
  split; [exact (Hstring "40.7,-74.0" "40.7" "-74.0" eq_refl eq_refl eq_refl)|].
  split; [exact (Hfalsy (JStr EmptyString) eq_refl)|].
  split; [exact (Hlookup (JStr "Texas") "Texas" eq_refl eq_refl eq_refl eq_refl)|].
  split; [exact (Hlookup (JStr "Atlantis") "Atlantis" eq_refl eq_refl eq_refl eq_refl)|].
  exact (Hlookup (JStr "constructor") "constructor" eq_refl eq_refl eq_refl eq_refl).
Defined.

(** Against C2: the two-element array of strings [["40.7", "-74.0"]] passes
    through unchanged, and so does one whose strings are no numerals. *)
Lemma string_pair_passes_through :
  parseCoordinates (JArr [JStr "40.7"; JStr "-74.0"])
    = Normal (JArr [JStr "40.7"; JStr "-74.0"])
  /\ parseCoordinates (JArr [JStr "north"; JStr "south"])
    = Normal (JArr [JStr "north"; JStr "south"]).
Proof. split; reflexivity. Qed.

End NormalizerExamples.

(** ** Numbers *)

Lemma strict_eq_nat_length (n m : nat) :
  strict_eq_nat (JNum (num_of_nat n)) m = Nat.eqb n m.
Proof.
  unfold strict_eq_nat, num_of_nat. apply eq_true_iff_eq.
  rewrite Qeq_bool_iff, inject_Z_injective, Nat.eqb_eq. lia.
Qed.

Lemma num_ltb_nat (a b : nat) : num_ltb (num_of_nat a) (num_of_nat b) = Nat.ltb a b.
Proof.
  unfold num_ltb, num_lt, num_of_nat. simpl. apply eq_true_iff_eq.
  rewrite negb_true_iff, Nat.ltb_lt, <- not_true_iff_false, Qle_bool_iff, <- Zle_Qle. lia.
Qed.

(** On whole numbers [>=] is the order of the naturals. *)
Lemma num_geb_nat (a b : nat) : num_geb (num_of_nat a) (num_of_nat b) = Nat.leb b a.
Proof.
  unfold num_geb, num_lt, num_of_nat. simpl. apply eq_true_iff_eq.
  rewrite negb_involutive, Nat.leb_le, Qle_bool_iff, <- Zle_Qle. lia.
Qed.

(** ** Substrings *)

Lemma append_assoc (a b c : string) : (a +:+ b) +:+ c = a +:+ b +:+ c.
Proof.
  induction a as [|x a IH]; [done|].
  change (String x ((a +:+ b) +:+ c) = String x (a +:+ b +:+ c)). by rewrite IH.
Qed.

Lemma append_empty (a : string) : a +:+ EmptyString = a.
Proof.
  induction a as [|x a IH]; [done|].
  change (String x (a +:+ EmptyString) = String x a). by rewrite IH.
Qed.

Lemma starts_with_spec (t s : string) :
  Spec.starts_with t s = true <-> exists behind, s = t +:+ behind.
Proof.
  revert s. induction t as [|a t IH]; intros s; simpl.
  - split; [eauto | done].
  - destruct s as [|b s]; simpl.
    + split; [done | intros [behind Hb]; discriminate].
    + rewrite andb_true_iff, Ascii.eqb_eq, IH. split.
      * intros [-> [behind ->]]. by exists behind.
      * intros [behind [= -> ->]]. eauto.
Qed.

Lemma occurs_spec (t s : string) : Spec.occurs t s = true <-> Spec.occurs_in t s.
Proof.
  unfold Spec.occurs_in. induction s as [|b s IH]; simpl.
  - rewrite orb_false_r, starts_with_spec. split.
    + intros [behind Hb]. by exists EmptyString, behind.
    + intros [[|a before] [behind Hb]]; [by exists behind | discriminate].
  - rewrite orb_true_iff, starts_with_spec, IH. split.
    + intros [[behind Hb] | (before & behind & Hb)].
      * by exists EmptyString, behind.
      * exists (String b before), behind. simpl. by rewrite Hb.
    + intros [[|a before] [behind Hb]].
      * left. by exists behind.
      * right. injection Hb as -> ->. by exists before, behind.
Qed.

(** ** Sweeps *)

Lemma after_finished (req : Request) (c : Completion (list JsValue)) :
  after req (finished c) = mkSweep [req] (Some c).
Proof. done. Qed.

Lemma three_checks_collects (pageSize : nat) (collected page : list JsValue)
    (total : option JsNum) :
  match Spec.three_checks pageSize collected page total with
  | Spec.Stop out => out = collected ++ page
  | Spec.Advance running => running = collected ++ page /\ pageSize <= length page
  end.
Proof.
  unfold Spec.three_checks.
  destruct (Nat.eqb (length page) 0) eqn:Hz.
  - apply Nat.eqb_eq in Hz. destruct page; [by rewrite app_nil_r | done].
  - destruct (match total with Some _ => _ | None => _ end); [done|].
    destruct (Nat.ltb (length page) pageSize) eqn:Hlt; [done|].
    apply Nat.ltb_ge in Hlt. done.
Qed.

(** *** The proxy's paginator *)

Section ProxySweep.
Context `{Host}.
Import Spec.

Lemma proxy_turn_checks (body : JsValue) (collected page : list JsValue)
    (t : JsValue) (total : option JsNum) :
  Proxy.page_items body = Normal (JArr page) ->
  Proxy.page_total body = Normal t ->
  reports t total ->
  Proxy.turn body collected =
    Normal match three_checks Proxy.PAGE_SIZE collected page total with
           | Stop out => inl out
           | Advance running => inr running
           end.
Proof.
  intros Hitems Htotal Hrep. unfold Proxy.turn, three_checks.
  rewrite Hitems, Htotal. cbn [cbind get String.eqb Ascii.eqb Bool.eqb concat_value].
  rewrite strict_eq_nat_length.
  destruct (Nat.eqb (length page) 0); [done|].
  unfold lt_nat. cbn [ToNumber cbind]. rewrite num_ltb_nat.
  destruct Hrep; cbn [not_nullish cbind nat_ge ToNumber].
  - by destruct (Nat.ltb (length page) Proxy.PAGE_SIZE).
  - by destruct (Nat.ltb (length page) Proxy.PAGE_SIZE).
  - unfold nat_ge. cbn [ToNumber cbind].
    destruct (num_geb (num_of_nat (length (collected ++ page))) n); [done|].
    by destruct (Nat.ltb (length page) Proxy.PAGE_SIZE).
Qed.

Lemma proxy_follows_three_checks (fetch : Network) (collectionId apiToken : string) :
  follows_three_checks Proxy.PAGE_SIZE (Proxy.page_request collectionId apiToken)
    (fun fuel => Proxy.loop fuel fetch collectionId apiToken) fetch
    Proxy.page_items Proxy.page_total.
Proof.
  intros fuel offset collected response body page t total Hf Hok Hj Hi Ht Hr.
  cbn [Proxy.loop]. rewrite Hf, Hok, Hj. cbn [negb].
  rewrite (proxy_turn_checks _ _ _ _ _ Hi Ht Hr).
  by destruct (three_checks _ _ _ _).
Qed.

(** Whatever the page reports, a turn leaves the earlier items followed by
    the page's. *)
Lemma proxy_turn_collects (body : JsValue) (collected page : list JsValue)
    (r : list JsValue + list JsValue) :
  Proxy.page_items body = Normal (JArr page) ->
  Proxy.turn body collected = Normal r ->
  r = inl (collected ++ page) \/ (r = inr (collected ++ page) /\ page <> []).
Proof.
  intros Hitems. unfold Proxy.turn.
  rewrite Hitems. cbn [cbind get String.eqb Ascii.eqb Bool.eqb concat_value].
  rewrite strict_eq_nat_length.
  destruct (Nat.eqb (length page) 0) eqn:Hz.
  - apply Nat.eqb_eq in Hz. destruct page; [|done].
    rewrite app_nil_r. intros [= <-]. by left.
  - assert (page <> []) by (by destruct page).
    destruct (Proxy.page_total body) as [t|e]; [|done]. cbn [cbind].
    destruct (if not_nullish t then _ else _) as [[]|e]; cbn [cbind]; [| |done].
    + intros [= <-]. by left.
    + destruct (lt_nat _ _) as [[]|e]; cbn [cbind]; [| |done].
      * intros [= <-]. by left.
      * intros [= <-]. by right.
Qed.

Lemma proxy_loop_more_fuel (fetch : Network) (collectionId apiToken : string)
    (fuel fuel' offset : nat) (collected : list JsValue) :
  fuel <= fuel' ->
  result (Proxy.loop fuel fetch collectionId apiToken offset collected) <> None ->
  Proxy.loop fuel' fetch collectionId apiToken offset collected
  = Proxy.loop fuel fetch collectionId apiToken offset collected.
Proof.
  revert fuel' offset collected.
  induction fuel as [|fuel IH]; intros fuel' offset collected Hle Hres; [done|].
  destruct fuel' as [|fuel']; [lia|].
  cbn [Proxy.loop] in *.
  destruct (fetch _) as [response|e]; [|done].
  destruct (negb (ok response)); [by destruct (text response)|].
  destruct (json response) as [body|e]; [|done].
  destruct (Proxy.turn body collected) as [[out|acc]|e]; [done| |done].
  unfold after in *. cbn [result sent] in *.
  rewrite (IH fuel' _ acc); [done | lia | done].
Qed.

Lemma proxy_loop_log (fetch : Network) (collectionId apiToken : string)
    (fuel offset : nat) (collected out : list JsValue) :
  sends_lists Proxy.page_items fetch ->
  let run := Proxy.loop fuel fetch collectionId apiToken offset collected in
  result run = Some (Normal out) ->
  out = collected ++ concat ((fun req => page_of Proxy.page_items (fetch req)) <$> sent run)
  /\ sent run = (fun i => Proxy.page_request collectionId apiToken (offset + i * Proxy.PAGE_SIZE))
                 <$> seq 0 (length (sent run)).
Proof.
  intros Hlists. revert offset collected.
  induction fuel as [|fuel IH]; intros offset collected; [done|].
  cbn [Proxy.loop]. cbn zeta.
  set (req := Proxy.page_request collectionId apiToken offset).
  destruct (fetch req) as [response|e] eqn:Hf; [|done].
  destruct (ok response) eqn:Hok; [|by destruct (text response)]. cbn [negb].
  destruct (json response) as [body|e] eqn:Hj; [|done].
  destruct (Proxy.page_items body) as [v|e] eqn:Hi.
  2:{ unfold Proxy.turn. rewrite Hi. done. }
  pose proof (Hlists _ _ _ _ Hf Hj Hi) as Harr.
  destruct v as [| | | | |page| |]; try done.
  assert (page_of Proxy.page_items (fetch req) = page) as Hpage.
  { unfold page_of. by rewrite Hf, Hok, Hj, Hi. }
  destruct (Proxy.turn body collected) as [r|e] eqn:Ht; [|done].
  destruct (proxy_turn_collects _ _ _ _ Hi Ht) as [-> | [-> Hne]].
  - cbn. intros [= <-]. rewrite Hpage, app_nil_r, Nat.add_0_r. done.
  - intros Hres. cbn [after result sent] in *.
    destruct (IH (offset + Proxy.PAGE_SIZE) (collected ++ page) Hres) as [Hout Hsent].
    split.
    + rewrite Hout. cbn [fmap list_fmap concat]. fold req. rewrite Hpage.
      by rewrite app_assoc.
    + cbn [length seq fmap list_fmap]. rewrite Nat.add_0_r. f_equal.
      rewrite Hsent at 1. rewrite <- seq_shift, <- list_fmap_compose.
      apply list_fmap_ext. intros ? i _. unfold compose. f_equal. lia.
Qed.

End ProxySweep.

(** *** Sweeping a sequence of pages

    Any loop that follows the three checks walks through a sequence of
    full pages closed by a short one, and returns their concatenation. *)

Section Pages.
Import Spec.
Variables (pageSize : nat) (request : nat -> Request)
          (run : nat -> nat -> list JsValue -> Sweep) (fetch : Network)
          (items_of total_of : JsValue -> Completion JsValue).
Hypothesis Hchecks : follows_three_checks pageSize request run fetch items_of total_of.
Hypothesis Hitems : forall page, items_of (JObj [ ("items", JArr page) ]) = Normal (JArr page).
Hypothesis Htotal : forall page, total_of (JObj [ ("items", JArr page) ]) = Normal JUndefined.

Lemma full_page_advances (collected page : list JsValue) :
  pageSize <= length page -> 0 < pageSize ->
  three_checks pageSize collected page None = Advance (collected ++ page).
Proof.
  intros Hfull Hpos. unfold three_checks.
  destruct (Nat.eqb_spec (length page) 0) as [Hz|_]; [lia|].
  destruct (Nat.ltb_spec (length page) pageSize); [lia | done].
Qed.

Lemma short_page_stops (collected page : list JsValue) :
  length page < pageSize ->
  three_checks pageSize collected page None = Stop (collected ++ page).
Proof.
  intros Hshort. unfold three_checks.
  destruct (Nat.eqb_spec (length page) 0) as [Hz|_].
  - destruct page; [by rewrite app_nil_r | done].
  - destruct (Nat.ltb_spec (length page) pageSize); [done | lia].
Qed.

Lemma pages_from (full : list (list JsValue)) (last : list JsValue)
    (k : nat) (collected : list JsValue) :
  Forall (fun page => pageSize <= length page) full ->
  length last < pageSize ->
  (forall i page, (full ++ [last]) !! i = Some page ->
     exists response,
       fetch (request ((k + i) * pageSize)) = Normal response
       /\ ok response = true
       /\ json response = Normal (JObj [ ("items", JArr page) ])) ->
  run (S (length full)) (k * pageSize) collected =
    mkSweep ((fun i => request ((k + i) * pageSize)) <$> seq 0 (S (length full)))
            (Some (Normal (collected ++ concat (full ++ [last])))).
Proof.
  intros Hfull Hlast. revert k collected.
  induction Hfull as [|page full Hpage Hfull IH]; intros k collected Hserve;
    cbn [length].
  - destruct (Hserve 0 last eq_refl) as (response & Hf & Hok & Hj).
    rewrite Nat.add_0_r in Hf.
    rewrite (Hchecks 0 _ collected _ _ last _ None Hf Hok Hj (Hitems _) (Htotal _)
               reports_undefined).
    rewrite (short_page_stops _ _ Hlast). cbn. rewrite Nat.add_0_r, app_nil_r. done.
  - destruct (Hserve 0 page eq_refl) as (response & Hf & Hok & Hj).
    rewrite Nat.add_0_r in Hf.
    rewrite (Hchecks _ _ collected _ _ page _ None Hf Hok Hj (Hitems _) (Htotal _)
               reports_undefined).
    rewrite (full_page_advances _ _ Hpage) by lia.
    replace (k * pageSize + pageSize) with (S k * pageSize) by lia.
    rewrite (IH (S k)).
    + unfold after. cbn [sent result]. f_equal.
      * change (seq 0 (S (S (length full)))) with (0 :: seq 1 (S (length full))).
        rewrite <- seq_shift. rewrite fmap_cons, Nat.add_0_r. f_equal.
        rewrite <- list_fmap_compose.
        apply list_fmap_ext. intros ? i _. unfold compose. do 2 f_equal. lia.
      * cbn [app concat]. by rewrite app_assoc.
    + intros i p Hp. destruct (Hserve (S i) p Hp) as (r & Hr & ? & ?).
      exists r. split; [|done]. rewrite <- Hr. do 2 f_equal. lia.
Qed.

Lemma pages_sweep (full : list (list JsValue)) (last : list JsValue) :
  Forall (fun page => pageSize <= length page) full ->
  length last < pageSize ->
  serves fetch request pageSize (full ++ [last]) ->
  run (S (length full)) 0 [] =
    mkSweep (request <$> offsets pageSize (S (length full)))
            (Some (Normal (concat (full ++ [last])))).
Proof.
  intros Hfull Hlast Hserve.
  change 0 with (0 * pageSize) at 1.
  rewrite (pages_from full last 0 [] Hfull Hlast); [|done].
  unfold offsets. by rewrite <- list_fmap_compose.
Qed.

End Pages.

(** *** The browser client's paginator *)

Section ClientSweep.
Context `{Host}.
Import Spec.

Lemma client_turn_checks (this : Client.WebflowCMS) (body : JsValue)
    (collected page : list JsValue) (t : JsValue) (total : option JsNum) :
  Client.page_items body = Normal (JArr page) ->
  get body "total" = Normal t ->
  reports t total ->
  Client.turn this body collected =
    Normal match three_checks (Client.pageSize this) collected page total with
           | Stop out => inl out
           | Advance running => inr running
           end.
Proof.
  intros Hitems Htotal Hrep. unfold Client.turn, three_checks.
  rewrite Hitems. cbn [cbind].
  destruct page as [|x page]; [done|].
  rewrite Htotal. cbn [cbind length Nat.eqb].
  destruct Hrep; cbn [not_nullish cbind].
  - by destruct (Nat.ltb _ _).
  - by destruct (Nat.ltb _ _).
  - unfold nat_ge. cbn [ToNumber cbind].
    destruct (num_geb _ n); [done|]. by destruct (Nat.ltb _ _).
Qed.

Lemma client_follows_three_checks (this : Client.WebflowCMS) (fetch : Network)
    (baseUrl : string) :
  follows_three_checks (Client.pageSize this) (Client.page_request this baseUrl)
    (fun fuel => Client.loop fuel this fetch baseUrl) fetch
    Client.page_items (fun body => get body "total").
Proof.
  intros fuel offset collected response body page t total Hf Hok Hj Hi Ht Hr.
  cbn [Client.loop]. rewrite Hf, Hok, Hj. cbn [negb].
  rewrite (client_turn_checks _ _ _ _ _ _ Hi Ht Hr).
  by destruct (three_checks _ _ _ _).
Qed.

(** A body that holds no array ends the sweep like an empty page. *)
Lemma client_turn_no_list (this : Client.WebflowCMS) (body v : JsValue)
    (collected : list JsValue) :
  Client.page_items body = Normal v -> is_array v = false ->
  Client.turn this body collected = Normal (inl collected).
Proof.
  intros Hitems Hv. unfold Client.turn. rewrite Hitems. cbn [cbind].
  by destruct v.
Qed.

Lemma client_turn_collects (this : Client.WebflowCMS) (body v : JsValue)
    (collected : list JsValue) (r : list JsValue + list JsValue) :
  Client.page_items body = Normal v ->
  Client.turn this body collected = Normal r ->
  r = inl (collected ++ item_list v) \/ r = inr (collected ++ item_list v).
Proof.
  intros Hitems. unfold Client.turn. rewrite Hitems. cbn [cbind].
  destruct v as [| | | | |page| |]; cbn [item_list]; rewrite ?app_nil_r;
    try (intros [= <-]; by left).
  destruct page as [|x page]; [rewrite app_nil_r; intros [= <-]; by left|].
  destruct (get body "total") as [t|e]; [|done]. cbn [cbind].
  destruct (if not_nullish t then _ else _) as [[]|e]; cbn [cbind]; [| |done].
  - intros [= <-]. by left.
  - destruct (Nat.ltb _ _); intros [= <-]; [by left | by right].
Qed.

Lemma client_loop_more_fuel (this : Client.WebflowCMS) (fetch : Network)
    (baseUrl : string) (fuel fuel' offset : nat) (collected : list JsValue) :
  fuel <= fuel' ->
  result (Client.loop fuel this fetch baseUrl offset collected) <> None ->
  Client.loop fuel' this fetch baseUrl offset collected
  = Client.loop fuel this fetch baseUrl offset collected.
Proof.
  revert fuel' offset collected.
  induction fuel as [|fuel IH]; intros fuel' offset collected Hle Hres; [done|].
  destruct fuel' as [|fuel']; [lia|].
  cbn [Client.loop] in *.
  destruct (fetch _) as [response|e]; [|done].
  destruct (negb (ok response)); [done|].
  destruct (json response) as [body|e]; [|done].
  destruct (Client.turn this body collected) as [[out|acc]|e]; [done| |done].
  unfold after in *. cbn [result sent] in *.
  rewrite (IH fuel' _ acc); [done | lia | done].
Qed.

Lemma client_loop_log (this : Client.WebflowCMS) (fetch : Network) (baseUrl : string)
    (fuel offset : nat) (collected out : list JsValue) :
  let run := Client.loop fuel this fetch baseUrl offset collected in
  result run = Some (Normal out) ->
  out = collected ++ concat ((fun req => page_of Client.page_items (fetch req)) <$> sent run)
  /\ sent run = (fun i => Client.page_request this baseUrl (offset + i * Client.pageSize this))
                 <$> seq 0 (length (sent run)).
Proof.
  revert offset collected.
  induction fuel as [|fuel IH]; intros offset collected; [done|].
  cbn [Client.loop]. cbn zeta.
  set (req := Client.page_request this baseUrl offset).
  destruct (fetch req) as [response|e] eqn:Hf; [|done].
  destruct (ok response) eqn:Hok; [|done]. cbn [negb].
  destruct (json response) as [body|e] eqn:Hj; [|done].
  destruct (Client.page_items body) as [v|e] eqn:Hi.
  2:{ unfold Client.turn. rewrite Hi. done. }
  assert (page_of Client.page_items (fetch req) = item_list v) as Hpage.
  { unfold page_of. by rewrite Hf, Hok, Hj, Hi. }
  destruct (Client.turn this body collected) as [r|e] eqn:Ht; [|done].
  destruct (client_turn_collects _ _ _ _ _ Hi Ht) as [-> | ->].
  - cbn. intros [= <-]. rewrite Hpage, app_nil_r, Nat.add_0_r. done.
  - intros Hres. cbn [after result sent] in *.
    destruct (IH (offset + Client.pageSize this) (collected ++ item_list v) Hres)
      as [Hout Hsent].
    split.
    + rewrite Hout. cbn [fmap list_fmap concat]. fold req. rewrite Hpage.
      by rewrite app_assoc.
    + cbn [length seq fmap list_fmap]. rewrite Nat.add_0_r. f_equal.
      rewrite Hsent at 1. rewrite <- seq_shift, <- list_fmap_compose.
      apply list_fmap_ext. intros ? i _. unfold compose. f_equal. lia.
Qed.

End ClientSweep.

(** ** The paginators, claim by claim *)

Section Paginators.
Context `{Host}.
Import Spec.

Lemma field_listed (body : JsValue) (k : string) (l : list JsValue) :
  field body k = JArr l ->
  not_nullish body = true /\ get body k = Normal (JArr l).
Proof.
  unfold field. destruct (get body k) as [x|e] eqn:Hg; [|done].
  intros ->. split; [by destruct body | done].
Qed.

Lemma proxy_page_total_field (body : JsValue) :
  not_nullish body = true ->
  Proxy.page_total body = Normal (field (field body "pagination") "total").
Proof.
  intros Hbody. unfold Proxy.page_total.
  rewrite (get_field body "pagination" Hbody). cbn [cbind].
  destruct (not_nullish (field body "pagination")) eqn:Hp.
  - rewrite <- (get_field _ "total" Hp). by destruct (field body "pagination").
  - by destruct (field body "pagination").
Qed.

(** C1, as the code has it.  After each page both paginators check, in
    this order: (a) no item in the page: stop; (b) a total is reported and
    the items collected so far, this page included, are at least as many:
    stop, also when the page is full; (c) fewer items than the page size,
    which is 100: stop; otherwise the offset grows by the page size and the
    next page is requested.  The total of check (b) is the one found where
    the paginator looks for it: the proxy reads [pagination.total] of the
    body, the browser client the top-level [total]; a total at the other
    place is not seen.  The proxy asks [.../items?limit=100&offset=<n>], the
    browser client [<url>?offset=<n>&limit=100]; for the client a body that
    is itself an array is a page without a total, and a body in which it
    finds no array ends the sweep like an empty page. *)
Theorem paginators_follow_three_checks :
  (forall (fetch : Network) (collectionId apiToken : string),
     checks_pages 100 (Proxy.page_request collectionId apiToken)
       (fun fuel => Proxy.loop fuel fetch collectionId apiToken) fetch
       (fun body => field (field body "pagination") "total"))
  /\ (forall (this : Client.WebflowCMS) (fetch : Network) (baseUrl : string),
        checks_pages (Client.pageSize this) (Client.page_request this baseUrl)
          (fun fuel => Client.loop fuel this fetch baseUrl) fetch
          (fun body => field body "total"))
  /\ Client.pageSize Client.constructor = 100
  /\ (forall (collectionId apiToken : string) (offset : nat),
        Proxy.page_request collectionId apiToken offset
        = mkRequest
            ("https://api.webflow.com/v2/collections/" +:+ collectionId
               +:+ "/items?limit=100&offset=" +:+ nat_to_string offset)
            [ ("Authorization", "Bearer " +:+ apiToken);
              ("Accept-Version", "1.0.0");
              ("Content-Type", "application/json") ])
  /\ (forall (baseUrl : string) (offset : nat),
        Client.page_request Client.constructor baseUrl offset
        = mkRequest
            (baseUrl +:+ (if includes "?"%char baseUrl then "&" else "?")
               +:+ "offset=" +:+ nat_to_string offset +:+ "&limit=100")
            [])
  /\ (forall (fetch : Network) (collectionId apiToken : string),
        asks_at_offset (Proxy.page_request collectionId apiToken)
          (fun fuel => Proxy.loop fuel fetch collectionId apiToken))
  /\ (forall (this : Client.WebflowCMS) (fetch : Network) (baseUrl : string),
        asks_at_offset (Client.page_request this baseUrl)
          (fun fuel => Client.loop fuel this fetch baseUrl))
  /\ (forall (this : Client.WebflowCMS) (fetch : Network) (baseUrl : string)
             (fuel offset : nat) (collected : list JsValue)
             (response : HttpResponse) (page : list JsValue),
        fetch (Client.page_request this baseUrl offset) = Normal response ->
        ok response = true ->
        json response = Normal (JArr page) ->
        Client.loop (S fuel) this fetch baseUrl offset collected
        = after (Client.page_request this baseUrl offset)
            match three_checks (Client.pageSize this) collected page None with
            | Stop out => finished (Normal out)
            | Advance running =>
                Client.loop fuel this fetch baseUrl (offset + Client.pageSize this) running
            end)
  /\ (forall (this : Client.WebflowCMS) (fetch : Network) (baseUrl : string)
             (fuel offset : nat) (collected : list JsValue)
             (response : HttpResponse) (body : JsValue),
        fetch (Client.page_request this baseUrl offset) = Normal response ->
        ok response = true ->
        json response = Normal body ->
        not_nullish body = true ->
        is_array (field body "items" ||| body) = false ->
        Client.loop (S fuel) this fetch baseUrl offset collected
        = after (Client.page_request this baseUrl offset) (finished (Normal collected)))
  /\ (forall (collected page : list JsValue) (count : nat),
        length page = 100 ->
        count <= length (collected ++ page) ->
        three_checks 100 collected page (Some (num_of_nat count))
        = Stop (collected ++ page))
  /\ (forall (collected page : list JsValue) (count : nat),
        length page = 100 ->
        length (collected ++ page) < count ->
        three_checks 100 collected page (Some (num_of_nat count))
        = Advance (collected ++ page)).
Proof.
  split.
  { intros fetch collectionId apiToken fuel offset collected response body page total
           Hf Hok Hj Hitems Hrep.
    destruct (field_listed _ _ _ Hitems) as [Hbody Hget].
    apply (proxy_follows_three_checks fetch collectionId apiToken fuel offset collected
             response body page (field (field body "pagination") "total") total
             Hf Hok Hj); [| |exact Hrep].
    - unfold Proxy.page_items. by rewrite Hget.
    - by apply proxy_page_total_field. }
  split.
  { intros this fetch baseUrl fuel offset collected response body page total
           Hf Hok Hj Hitems Hrep.
    destruct (field_listed _ _ _ Hitems) as [Hbody Hget].
    apply (client_follows_three_checks this fetch baseUrl fuel offset collected
             response body page (field body "total") total Hf Hok Hj); [| |exact Hrep].
    - unfold Client.page_items. by rewrite Hget.
    - by apply get_field. }
  split; [reflexivity|].
  split; [reflexivity|].
  split; [reflexivity|].
  split; [intros fetch collectionId apiToken fuel offset collected; cbn [Proxy.loop];
          unfold after; cbn [sent]; eauto|].
  split; [intros this fetch baseUrl fuel offset collected; cbn [Client.loop];
          unfold after; cbn [sent]; eauto|].
  split.
  { intros this fetch baseUrl fuel offset collected response page Hf Hok Hj.
    apply (client_follows_three_checks this fetch baseUrl fuel offset collected
             response (JArr page) page JUndefined None Hf Hok Hj);
      [reflexivity | reflexivity | constructor]. }
  split.
  { intros this fetch baseUrl fuel offset collected response body Hf Hok Hj Hbody Hv.
    cbn [Client.loop]. rewrite Hf, Hok, Hj. cbn [negb].
    rewrite (client_turn_no_list this body (field body "items" ||| body) collected);
      [done | | exact Hv].
    unfold Client.page_items. by rewrite (get_field body "items" Hbody). }
  split.
  - intros collected page count Hfull Hcount. unfold three_checks.
    rewrite Hfull, num_geb_nat. cbn [Nat.eqb].
    by destruct (Nat.leb_spec count (length (collected ++ page))); [|lia].
  - intros collected page count Hfull Hcount. unfold three_checks.
    rewrite Hfull, num_geb_nat. cbn [Nat.eqb].
    destruct (Nat.leb_spec count (length (collected ++ page))); [lia|].
    by rewrite Nat.ltb_irrefl.
Qed.

(** C4, as the code has it.  From a parsed body other than [null] the
    browser client takes the item list of the [items] field when the body
    has one, and of the whole body otherwise; the proxy takes the [items]
    field when the body has one that is not [null], and the empty list
    otherwise, never the body itself. *)
Theorem page_items_extraction (body : JsValue) :
  not_nullish body = true ->
  (exists v, Client.page_items body = Normal v /\ item_list v = body_items body)
  /\ Proxy.page_items body =
       Normal match body with
              | JObj fields =>
                  match own_property fields "items" with
                  | Some items => js_nullish items (JArr [])
                  | None => JArr []
                  end
              | _ => JArr []
              end
  /\ (forall fields page,
        body = JObj fields -> own_property fields "items" = Some (JArr page) ->
        Client.page_items body = Normal (JArr page)
        /\ Proxy.page_items body = Normal (JArr page))
  /\ (forall (this : Client.WebflowCMS) (collected : list JsValue)
             (r : list JsValue + list JsValue),
        Client.turn this body collected = Normal r ->
        r = inl (collected ++ body_items body) \/ r = inr (collected ++ body_items body))
  /\ (forall (collected page : list JsValue) (r : list JsValue + list JsValue),
        Proxy.page_items body = Normal (JArr page) ->
        Proxy.turn body collected = Normal r ->
        r = inl (collected ++ page) \/ r = inr (collected ++ page)).
Proof.
  intros Hbody.
  assert (exists v, Client.page_items body = Normal v /\ item_list v = body_items body)
    as Hclient; [|split; [exact Hclient|split; [|split; [|split]]]].
  - unfold Client.page_items, body_items, js_or.
    destruct body as [| |b|n|s|l|fields|name]; try done; cbn; eauto.
    unfold object_get. destruct (own_property fields "items") as [items|]; cbn.
    + destruct (truthy items) eqn:Ht; [eauto|].
      eexists; split; [done|]. by destruct items.
    + eauto.
  - unfold Proxy.page_items.
    destruct body as [| |b|n|s|l|fields|name]; try done.
    cbn. unfold object_get. by destruct (own_property fields "items").
  - intros fields page -> Hitems.
    unfold Client.page_items, Proxy.page_items. cbn. unfold object_get.
    by rewrite Hitems.
  - intros this collected r Hturn. destruct Hclient as (v & Hv & <-).
    by apply (client_turn_collects this body v).
  - intros collected page r Hitems Hturn.
    destruct (proxy_turn_collects _ _ _ _ Hitems Hturn) as [->|[-> _]]; auto.
Qed.

(** The body [null] makes both paginators throw where they read [items]. *)
Lemma null_body_throws :
  returns (Client.page_items JNull) = false /\ returns (Proxy.page_items JNull) = false.
Proof. done. Qed.

(** C8, as the code has it.  A page answered with a status outside 200-299
    ends the sweep at once with an error and no further request.  The proxy
    first reads the body text: when that read succeeds, its error is
    "Webflow API <status>: <body text>", which holds the status code and the
    body text; when the read fails, the sweep fails with the error of the
    read instead.  The browser client does not read the body: its error is
    "HTTP error! status: <status>", the status code only. *)
Theorem failed_page_ends_sweep :
  (forall (fuel : nat) (fetch : Network) (collectionId apiToken : string)
          (offset : nat) (collected : list JsValue) (response : HttpResponse),
     fetch (Proxy.page_request collectionId apiToken offset) = Normal response ->
     ok response = false ->
     (forall body : string,
        text response = Normal body ->
        Proxy.loop (S fuel) fetch collectionId apiToken offset collected
          = mkSweep [Proxy.page_request collectionId apiToken offset]
              (Some (Throw (mkError PlainError
                 ("Webflow API " +:+ nat_to_string (status response) +:+ ": " +:+ body))))
        /\ occurs_in (nat_to_string (status response))
             ("Webflow API " +:+ nat_to_string (status response) +:+ ": " +:+ body)
        /\ occurs_in body
             ("Webflow API " +:+ nat_to_string (status response) +:+ ": " +:+ body))
     /\ (forall error : JsError,
           text response = Throw error ->
           Proxy.loop (S fuel) fetch collectionId apiToken offset collected
             = mkSweep [Proxy.page_request collectionId apiToken offset]
                 (Some (Throw error))))
  /\ (forall (fuel : nat) (this : Client.WebflowCMS) (fetch : Network)
             (baseUrl : string) (offset : nat) (collected : list JsValue)
             (response : HttpResponse),
        fetch (Client.page_request this baseUrl offset) = Normal response ->
        ok response = false ->
        Client.loop (S fuel) this fetch baseUrl offset collected
          = mkSweep [Client.page_request this baseUrl offset]
              (Some (Throw (mkError PlainError
                 ("HTTP error! status: " +:+ nat_to_string (status response)))))
        /\ occurs_in (nat_to_string (status response))
             ("HTTP error! status: " +:+ nat_to_string (status response))).
Proof.
  split.
  - intros fuel fetch collectionId apiToken offset collected response Hf Hok.
    split.
    + intros body Hbody. split; [|split].
      * cbn [Proxy.loop]. by rewrite Hf, Hok, Hbody.
      * by exists "Webflow API ", (": " +:+ body).
      * exists ("Webflow API " +:+ nat_to_string (status response) +:+ ": "), EmptyString.
        by rewrite append_empty, !append_assoc.
    + intros error Hbody. cbn [Proxy.loop]. by rewrite Hf, Hok, Hbody.
  - intros fuel this fetch baseUrl offset collected response Hf Hok.
    split.
    + cbn [Client.loop]. by rewrite Hf, Hok.
    + exists "HTTP error! status: ", EmptyString.
      by rewrite append_empty.
Qed.

Lemma with_items_page (page : list JsValue) :
  Proxy.page_items (JObj [ ("items", JArr page) ]) = Normal (JArr page)
  /\ Proxy.page_total (JObj [ ("items", JArr page) ]) = Normal JUndefined
  /\ Client.page_items (JObj [ ("items", JArr page) ]) = Normal (JArr page)
  /\ get (JObj [ ("items", JArr page) ]) "total" = Normal JUndefined.
Proof. done. Qed.

Lemma proxy_pages_sweep (fetch : Network) (collectionId apiToken : string)
    (full : list (list JsValue)) (last : list JsValue) (fuel : nat) :
  Forall (fun page => 100 <= length page) full ->
  length last < 100 ->
  serves fetch (Proxy.page_request collectionId apiToken) 100 (full ++ [last]) ->
  length full < fuel ->
  Proxy.fetchAllCollectionItems fuel fetch collectionId apiToken
  = mkSweep (Proxy.page_request collectionId apiToken <$> offsets 100 (S (length full)))
      (Some (Normal (concat (full ++ [last])))).
Proof.
  intros Hfull Hlast Hserve Hfuel.
  pose proof (pages_sweep 100 _ _ fetch _ _
                (proxy_follows_three_checks fetch collectionId apiToken)
                (fun page => proj1 (with_items_page page))
                (fun page => proj1 (proj2 (with_items_page page)))
                full last Hfull Hlast Hserve) as Hrun.
  cbv beta in Hrun. unfold Proxy.fetchAllCollectionItems.
  rewrite (proxy_loop_more_fuel _ _ _ (S (length full)) fuel); [done | lia |].
  by rewrite Hrun.
Qed.

Lemma client_pages_sweep (this : Client.WebflowCMS) (fetch : Network) (baseUrl : string)
    (full : list (list JsValue)) (last : list JsValue) (fuel : nat) :
  Forall (fun page => Client.pageSize this <= length page) full ->
  length last < Client.pageSize this ->
  serves fetch (Client.page_request this baseUrl) (Client.pageSize this) (full ++ [last]) ->
  length full < fuel ->
  Client.fetchAllPages fuel this fetch baseUrl
  = mkSweep (Client.page_request this baseUrl
               <$> offsets (Client.pageSize this) (S (length full)))
      (Some (Normal (concat (full ++ [last])))).
Proof.
  intros Hfull Hlast Hserve Hfuel.
  pose proof (pages_sweep (Client.pageSize this) _ _ fetch _ _
                (client_follows_three_checks this fetch baseUrl)
                (fun page => proj1 (proj2 (proj2 (with_items_page page))))
                (fun page => proj2 (proj2 (proj2 (with_items_page page))))
                full last Hfull Hlast Hserve) as Hrun.
  cbv beta in Hrun. unfold Client.fetchAllPages.
  rewrite (client_loop_more_fuel _ _ _ (S (length full)) fuel); [done | lia |].
  by rewrite Hrun.
Qed.

(** C7. What a sweep returns is the concatenation, in request order, of
    the item lists of the pages it received, each in the order received,
    and its requests go out at the offsets 0, 100, 200, ...; a sequence of
    full pages closed by a short one is returned whole, with one request
    per page; so an upstream of 100, 100 and 37 items without a total is
    swept with exactly three requests and gives the 237 items in order. *)
Theorem sweep_concatenates_pages :
  (forall (fetch : Network) (collectionId apiToken : string) (fuel : nat)
          (out : list JsValue),
     sends_lists Proxy.page_items fetch ->
     result (Proxy.fetchAllCollectionItems fuel fetch collectionId apiToken)
       = Some (Normal out) ->
     out = concat ((fun req => page_of Proxy.page_items (fetch req))
                     <$> sent (Proxy.fetchAllCollectionItems fuel fetch collectionId apiToken))
     /\ sent (Proxy.fetchAllCollectionItems fuel fetch collectionId apiToken)
        = Proxy.page_request collectionId apiToken
            <$> offsets 100
                  (length (sent (Proxy.fetchAllCollectionItems fuel fetch collectionId apiToken))))
  /\ (forall (this : Client.WebflowCMS) (fetch : Network) (baseUrl : string) (fuel : nat)
             (out : list JsValue),
        result (Client.fetchAllPages fuel this fetch baseUrl) = Some (Normal out) ->
        out = concat ((fun req => page_of Client.page_items (fetch req))
                        <$> sent (Client.fetchAllPages fuel this fetch baseUrl))
        /\ sent (Client.fetchAllPages fuel this fetch baseUrl)
           = Client.page_request this baseUrl
               <$> offsets (Client.pageSize this)
                     (length (sent (Client.fetchAllPages fuel this fetch baseUrl))))
  /\ (forall (fetch : Network) (collectionId apiToken : string)
             (full : list (list JsValue)) (last : list JsValue) (fuel : nat),
        Forall (fun page => 100 <= length page) full ->
        length last < 100 ->
        serves fetch (Proxy.page_request collectionId apiToken) 100 (full ++ [last]) ->
        length full < fuel ->
        Proxy.fetchAllCollectionItems fuel fetch collectionId apiToken
        = mkSweep (Proxy.page_request collectionId apiToken
                     <$> offsets 100 (S (length full)))
            (Some (Normal (concat (full ++ [last])))))
  /\ (forall (fetch : Network) (baseUrl : string)
             (full : list (list JsValue)) (last : list JsValue) (fuel : nat),
        Forall (fun page => 100 <= length page) full ->
        length last < 100 ->
        serves fetch (Client.page_request Client.constructor baseUrl) 100 (full ++ [last]) ->
        length full < fuel ->
        Client.fetchAllPages fuel Client.constructor fetch baseUrl
        = mkSweep (Client.page_request Client.constructor baseUrl
                     <$> offsets 100 (S (length full)))
            (Some (Normal (concat (full ++ [last])))))
  /\ (forall fuel : nat,
        3 <= fuel ->
        Proxy.fetchAllCollectionItems fuel
          (Examples.serve (Proxy.page_request Examples.collection Examples.token) 100 0
             Examples.three_pages)
          Examples.collection Examples.token
        = mkSweep (Proxy.page_request Examples.collection Examples.token <$> [0; 100; 200])
            (Some (Normal (Examples.records 0 100 ++ Examples.records 100 100
                             ++ Examples.records 200 37))))
  /\ (forall fuel : nat,
        3 <= fuel ->
        Client.fetchAllPages fuel Client.constructor
          (Examples.serve (Client.page_request Client.constructor Client.monumentsUrl) 100 0
             Examples.three_pages)
          Client.monumentsUrl
        = mkSweep (Client.page_request Client.constructor Client.monumentsUrl
                     <$> [0; 100; 200])
            (Some (Normal (Examples.records 0 100 ++ Examples.records 100 100
                             ++ Examples.records 200 37))))
  /\ length (Examples.records 0 100 ++ Examples.records 100 100 ++ Examples.records 200 37)
     = 237.
Proof.
  split.
  { intros fetch collectionId apiToken fuel out Hlists Hres.
    destruct (proxy_loop_log fetch collectionId apiToken fuel 0 [] out Hlists Hres)
      as [Hout Hsent].
    split; [exact Hout|].
    unfold offsets. rewrite <- list_fmap_compose. exact Hsent. }
  split.
  { intros this fetch baseUrl fuel out Hres.
    destruct (client_loop_log this fetch baseUrl fuel 0 [] out Hres) as [Hout Hsent].
    split; [exact Hout|].
    unfold offsets. rewrite <- list_fmap_compose. exact Hsent. }
  split; [exact proxy_pages_sweep|].
  split; [exact (client_pages_sweep Client.constructor)|].
  split.
  { intros fuel Hfuel. unfold Proxy.fetchAllCollectionItems.
    rewrite (proxy_loop_more_fuel _ _ _ 3 fuel); [by vm_compute | done | by vm_compute]. }
  split; [|by vm_compute].
  intros fuel Hfuel. unfold Client.fetchAllPages.
  rewrite (client_loop_more_fuel _ _ _ 3 fuel); [by vm_compute | done | by vm_compute].
Qed.

End Paginators.

(** Witnesses and counterexamples of the paginators, on the decimal host. *)

Section PaginatorExamples.
Import Spec Examples.
#[local] Existing Instance decimal_host.

(** A full page whose total is reached ends the sweep of either
    paginator, when the total is where the paginator reads it. *)
Lemma paginators_follow_three_checks_witness :
  Proxy.loop 2
    (serve (Proxy.page_request collection token) 100 0
       [with_pagination (records 0 100) 100])
    collection token 0 []
  = mkSweep
      [ mkRequest
          "https://api.webflow.com/v2/collections/64f0c1monuments/items?limit=100&offset=0"
          [ ("Authorization", "Bearer wf-secret");
            ("Accept-Version", "1.0.0");
            ("Content-Type", "application/json") ] ]
      (Some (Normal (records 0 100)))
  /\ Client.loop 2 Client.constructor
       (serve (Client.page_request Client.constructor Client.monumentsUrl) 100 0
          [with_total (records 0 100) 100])
       Client.monumentsUrl 0 []
     = mkSweep
         [ mkRequest
             "https://mm1-fe52fb-7bc93d167bfbe6de86cc672332aa.webflow.io/api/api/monuments.json?offset=0&limit=100"
             [] ]
         (Some (Normal (records 0 100))).
Proof.
  destruct paginators_follow_three_checks as (Hproxy & Hclient & _).
  split.
  - exact (Hproxy
             (serve (Proxy.page_request collection token) 100 0
                [with_pagination (records 0 100) 100])
             collection token 1 0 []
             (mkResponse 200 (Normal EmptyString)
                (Normal (with_pagination (records 0 100) 100)))
             (with_pagination (records 0 100) 100) (records 0 100)
             (Some (num_of_nat 100))
             eq_refl eq_refl eq_refl eq_refl (reports_count _)).
  - exact (Hclient Client.constructor
             (serve (Client.page_request Client.constructor Client.monumentsUrl) 100 0
                [with_total (records 0 100) 100])
             Client.monumentsUrl 1 0 []
             (mkResponse 200 (Normal EmptyString)
                (Normal (with_total (records 0 100) 100)))
             (with_total (records 0 100) 100) (records 0 100)
             (Some (num_of_nat 100))
             eq_refl eq_refl eq_refl eq_refl (reports_count _)).
Defined.

(** Against C1: on the full page [{ items: [100 records], pagination:
    { total: 100 } }], whose total is reached, check (b) is to stop the
    sweep.  The proxy stops; the browser client does not see the total
    under [pagination], asks for the page at offset 100 and fails on the
    answer. *)
Lemma client_overlooks_pagination_total :
  three_checks 100 [] (records 0 100) (Some (num_of_nat 100)) = Stop (records 0 100)
  /\ Proxy.fetchAllCollectionItems 5
       (serve (Proxy.page_request collection token) 100 0
          [with_pagination (records 0 100) 100])
       collection token
     = mkSweep [Proxy.page_request collection token 0] (Some (Normal (records 0 100)))
  /\ Client.fetchAllPages 5 Client.constructor
       (serve (Client.page_request Client.constructor Client.monumentsUrl) 100 0
          [with_pagination (records 0 100) 100])
       Client.monumentsUrl
     = mkSweep [ Client.page_request Client.constructor Client.monumentsUrl 0;
                 Client.page_request Client.constructor Client.monumentsUrl 100 ]
         (Some (Throw (mkError PlainError "HTTP error! status: 404"))).
Proof. repeat split; by vm_compute. Qed.

Lemma page_items_extraction_witness :
  (exists v, Client.page_items (with_items (records 0 3)) = Normal v
             /\ item_list v = records 0 3)
  /\ Proxy.page_items (with_items (records 0 3)) = Normal (JArr (records 0 3)).
Proof.
  destruct (page_items_extraction (with_items (records 0 3)) eq_refl) as (Hc & Hp & _).
  split; [exact Hc | exact Hp].
Defined.

(** Against C4: a body that is a bare array has no [items] field; the
    proxy's sweep returns nothing of it, where the whole body was to be the
    item list (as it is for the browser client). *)
Lemma proxy_drops_bare_array :
  body_items (JArr (records 0 3)) = records 0 3
  /\ Proxy.fetchAllCollectionItems 5
       (serve (Proxy.page_request collection token) 100 0 [JArr (records 0 3)])
       collection token
     = mkSweep [Proxy.page_request collection token 0] (Some (Normal []))
  /\ Client.fetchAllPages 5 Client.constructor
       (serve (Client.page_request Client.constructor Client.monumentsUrl) 100 0
          [JArr (records 0 3)])
       Client.monumentsUrl
     = mkSweep [Client.page_request Client.constructor Client.monumentsUrl 0]
         (Some (Normal (records 0 3))).
Proof. repeat split; reflexivity. Qed.

(** A 503 at the third page: with the body text "upstream unavailable",
    and with a body that breaks off while the proxy reads it. *)
Lemma failed_page_ends_sweep_witness :
  Proxy.loop 3 down collection token 200 (records 0 200)
    = mkSweep [Proxy.page_request collection token 200]
        (Some (Throw (mkError PlainError "Webflow API 503: upstream unavailable")))
  /\ Proxy.loop 3 cut_off collection token 200 (records 0 200)
    = mkSweep [Proxy.page_request collection token 200]
        (Some (Throw (mkError TypeError "terminated")))
  /\ Client.loop 3 Client.constructor down Client.monumentsUrl 200 (records 0 200)
    = mkSweep [Client.page_request Client.constructor Client.monumentsUrl 200]
        (Some (Throw (mkError PlainError "HTTP error! status: 503")))
  /\ Client.loop 3 Client.constructor cut_off Client.monumentsUrl 200 (records 0 200)
    = mkSweep [Client.page_request Client.constructor Client.monumentsUrl 200]
        (Some (Throw (mkError PlainError "HTTP error! status: 503"))).
Proof.
  destruct failed_page_ends_sweep as [Hproxy Hclient].
  split; [|split; [|split]].
  - exact (proj1 (proj1 (Hproxy 2 down collection token 200 (records 0 200) _
                           eq_refl eq_refl)
                    "upstream unavailable" eq_refl)).
  - exact (proj2 (Hproxy 2 cut_off collection token 200 (records 0 200) _
                    eq_refl eq_refl)
             (mkError TypeError "terminated") eq_refl).
  - exact (proj1 (Hclient 2 Client.constructor down Client.monumentsUrl 200
                    (records 0 200) _ eq_refl eq_refl)).
  - exact (proj1 (Hclient 2 Client.constructor cut_off Client.monumentsUrl 200
                    (records 0 200) _ eq_refl eq_refl)).
Defined.

(** Against C8: the browser client's error for a 503 answered with the body
    text "upstream unavailable" is "HTTP error! status: 503"; the body text
    does not occur in it. *)
Lemma client_error_lacks_body :
  Client.fetchAllPages 5 Client.constructor down Client.monumentsUrl
    = mkSweep [Client.page_request Client.constructor Client.monumentsUrl 0]
        (Some (Throw (mkError PlainError "HTTP error! status: 503")))
  /\ down (Client.page_request Client.constructor Client.monumentsUrl 0)
     = refusal 503 "upstream unavailable"
  /\ ~ occurs_in "upstream unavailable" "HTTP error! status: 503".
Proof.
  split; [reflexivity|]. split; [reflexivity|].
  intros Hocc%occurs_spec. discriminate Hocc.
Qed.

Lemma three_pages_served :
  serves (serve (Proxy.page_request collection token) 100 0 three_pages)
    (Proxy.page_request collection token) 100
    ([records 0 100; records 100 100] ++ [records 200 37]).
Proof.
  intros i page Hi.
  destruct i as [|[|[|i]]]; cbn in Hi; [..|done]; injection Hi as <-;
    (eexists; split; [by vm_compute | split; reflexivity]).
Qed.

Lemma sweep_concatenates_pages_witness :
  (records 0 237
   = concat ((fun req =>
                page_of Client.page_items
                  (serve (Client.page_request Client.constructor Client.monumentsUrl) 100 0
                     three_pages req))
               <$> sent (Client.fetchAllPages 5 Client.constructor
                           (serve (Client.page_request Client.constructor Client.monumentsUrl)
                              100 0 three_pages)
                           Client.monumentsUrl)))
  /\ Proxy.fetchAllCollectionItems 7
       (serve (Proxy.page_request collection token) 100 0 three_pages) collection token
     = mkSweep (Proxy.page_request collection token <$> offsets 100 3)
         (Some (Normal (concat ([records 0 100; records 100 100] ++ [records 200 37])))).
Proof.
  destruct sweep_concatenates_pages as (_ & Hclient & Hpages & _).
  split.
  - apply (Hclient Client.constructor). by vm_compute.
  - apply (Hpages _ collection token [records 0 100; records 100 100] (records 200 37) 7).
    + repeat constructor; vm_compute; lia.
    + vm_compute; lia.
    + exact three_pages_served.
    + cbn. lia.
Defined.

End PaginatorExamples.

(** ** The TTL cache *)

Section Cache.
Context `{Host}.
Import Client Spec.

Lemma getCachedData_fresh (this : WebflowCMS) (key : string) (now : Z)
    (items : list JsValue) :
  getCachedData this key now = Some items <-> fresh this key now items.
Proof.
  unfold getCachedData, fresh. split.
  - destruct (cache this !! key) as [entry|]; [|done].
    destruct (Z.ltb_spec (now - timestamp entry) (cacheExpiry this)); [|done].
    intros [= <-]. by exists entry.
  - intros (entry & -> & Hlt & <-).
    by destruct (Z.ltb_spec (now - timestamp entry) (cacheExpiry this)); [|lia].
Qed.

Lemma getCachedData_stale (this : WebflowCMS) (key : string) (now : Z) :
  getCachedData this key now = None <-> stale this key now.
Proof.
  unfold stale. split.
  - intros Hnone items Hfresh%getCachedData_fresh. congruence.
  - intros Hstale. destruct (getCachedData this key now) as [items|] eqn:Hget; [|done].
    apply getCachedData_fresh in Hget. by destruct (Hstale items).
Qed.

(** The lookup after a store at [t]. *)
Lemma getCachedData_stored (this : WebflowCMS) (key : string) (items : list JsValue)
    (t now : Z) :
  getCachedData (setCachedData this key items t) key now
  = if (now - t <? cacheExpiry this)%Z then Some items else None.
Proof. unfold getCachedData, setCachedData. cbn. by rewrite lookup_insert_eq. Qed.

(** A store touches no other key. *)
Lemma setCachedData_other (this : WebflowCMS) (key key' : string) (items : list JsValue)
    (t : Z) :
  key <> key' ->
  cache (setCachedData this key items t) !! key' = cache this !! key'.
Proof. intros Hne. unfold setCachedData. cbn. by rewrite lookup_insert_ne. Qed.

Lemma fetchAllPages_setCachedData (fuel : nat) (this : WebflowCMS) (key : string)
    (items : list JsValue) (t : Z) (fetch : Network) (url : string) :
  fetchAllPages fuel (setCachedData this key items t) fetch url
  = fetchAllPages fuel this fetch url.
Proof.
  unfold fetchAllPages. generalize 0 at 1 2. generalize (@nil JsValue).
  induction fuel as [|fuel IH]; intros collected offset; [done|].
  cbn [loop]. unfold page_request, turn. cbn [pageSize setCachedData].
  destruct (fetch _) as [response|e]; [|done].
  destruct (negb (ok response)); [done|].
  destruct (json response) as [body|e]; [|done].
  destruct (let! items0 := page_items body in _) as [[out|acc]|e]; [done| |done].
  by rewrite IH.
Qed.

Lemma fetchAllPages_requests (fuel : nat) (this : WebflowCMS) (fetch : Network)
    (url : string) :
  sent (fetchAllPages (S fuel) this fetch url) <> [].
Proof. done. Qed.

Lemma producer_needs_fuel (this : WebflowCMS) (fetch : Network) (url : string)
    (normalize : JsValue -> Completion JsValue) :
  producer 0 this fetch url normalize = None.
Proof. done. Qed.

(** The three calls of the cache scenario follow from the behaviour of a
    single call. *)
Lemma caches_from_single_calls (key url : string)
    (normalize : JsValue -> Completion JsValue)
    (fetcher : nat -> WebflowCMS -> Network -> Z -> Z -> Call) :
  (forall fuel this fetch now now' items,
     fresh this key now items ->
     fetcher fuel this fetch now now' = mkCall [] (Some (Normal items)) this) ->
  (forall fuel this fetch now now',
     stale this key now ->
     requests (fetcher (S fuel) this fetch now now')
       = sent (fetchAllPages (S fuel) this fetch url)
     /\ requests (fetcher (S fuel) this fetch now now') <> []) ->
  (forall fuel this fetch now now' items,
     stale this key now ->
     producer fuel this fetch url normalize = Some (Normal items) ->
     returned (fetcher fuel this fetch now now') = Some (Normal items)
     /\ instance (fetcher fuel this fetch now now') = setCachedData this key items now') ->
  caches key url normalize fetcher.
Proof.
  intros Hhit Hmiss Hstore. split; [done|]. split; [done|]. split; [done|].
  intros fuel1 this fetch1 t1 t1' items Hstale Hprod first.
  destruct (Hstore _ _ _ _ t1' _ Hstale Hprod) as [_ Hinst]. fold first in Hinst.
  split; [|split].
  - destruct fuel1 as [|fuel1]; [by rewrite producer_needs_fuel in Hprod|].
    apply (Hmiss fuel1 this fetch1 t1 t1' Hstale).
  - intros fuel fetch t2 t2' Hwindow. apply Hhit.
    apply getCachedData_fresh. rewrite Hinst, getCachedData_stored.
    by destruct (Z.ltb_spec (t2 - t1') (cacheExpiry this)); [|lia].
  - intros fuel fetch t3 t3' Hexpired.
    assert (stale (instance first) key t3) as Hstale3.
    { apply getCachedData_stale. rewrite Hinst, getCachedData_stored.
      by destruct (Z.ltb_spec (t3 - t1') (cacheExpiry this)); [lia|]. }
    split; [apply (Hmiss fuel _ fetch t3 t3' Hstale3)|].
    intros items3 Hprod3.
    destruct (Hstore _ _ _ _ t3' _ Hstale3 Hprod3) as [Hret3 Hinst3].
    split; [done|]. rewrite Hinst3. unfold setCachedData. cbn.
    by rewrite lookup_insert_eq.
Qed.

Ltac unfold_fetcher := try unfold fetchMonuments; try unfold fetchEcosystem.

Ltac single_call_hit :=
  intros fuel this fetch now now' items Hfresh%getCachedData_fresh;
  unfold_fetcher; by rewrite Hfresh.

Ltac single_call_miss :=
  intros fuel this fetch now now' Hstale%getCachedData_stale;
  unfold_fetcher; rewrite Hstale; cbn zeta;
  destruct (result (fetchAllPages (S fuel) this fetch _)) as [[raw|e]|]; cbn [cbind];
  [destruct (map_throwing _ raw)| |]; cbn [requests];
  (split; [reflexivity | apply fetchAllPages_requests]).

Ltac single_call_store :=
  intros fuel this fetch now now' items Hstale%getCachedData_stale Hprod;
  unfold producer in Hprod; unfold_fetcher; rewrite Hstale; cbn zeta;
  destruct (result (fetchAllPages fuel this fetch _)) as [tried|]; [|done];
  injection Hprod as Hprod; by rewrite Hprod.

Lemma fetchMonuments_caches :
  caches "monuments" monumentsUrl normalizeMonument fetchMonuments.
Proof.
  apply caches_from_single_calls.
  - single_call_hit.
  - single_call_miss.
  - single_call_store.
Qed.

Lemma fetchEcosystem_caches :
  caches "ecosystem" ecosystemUrl normalizeEcosystem fetchEcosystem.
Proof.
  apply caches_from_single_calls.
  - single_call_hit.
  - single_call_miss.
  - single_call_store.
Qed.

Ltac failure_swallowed :=
  intros fuel this fetch now now' error Hstale%getCachedData_stale Hprod;
  unfold producer in Hprod; unfold_fetcher; rewrite Hstale; cbn zeta;
  destruct (result (fetchAllPages fuel this fetch _)) as [tried|]; [|done];
  injection Hprod as Hprod; by rewrite Hprod.

(** C5. A lookup returns the stored list exactly when an entry exists for
    the key and [now] minus its timestamp is below the TTL (five minutes
    from the constructor), and then the producer is not invoked; hence of
    two calls for the same key within the TTL window only the first invokes
    the producer, and a call at or after the expiry invokes it again and
    overwrites the entry with a fresh timestamp. *)
Theorem cache_returns_fresh_entries :
  (forall (this : WebflowCMS) (key : string) (now : Z) (items : list JsValue),
     getCachedData this key now = Some items
     <-> exists entry,
           cache this !! key = Some entry
           /\ (now - timestamp entry < cacheExpiry this)%Z
           /\ data entry = items)
  /\ cacheExpiry constructor = 300000%Z
  /\ caches "monuments" monumentsUrl normalizeMonument fetchMonuments
  /\ caches "ecosystem" ecosystemUrl normalizeEcosystem fetchEcosystem.
Proof.
  split; [exact getCachedData_fresh|].
  split; [reflexivity|].
  split; [exact fetchMonuments_caches | exact fetchEcosystem_caches].
Qed.

(** C3, as the code has it.  When the producer fails, [fetchMonuments] and
    [fetchEcosystem] catch the failure and return the empty list to their
    caller; nothing is written, so the instance, and with it any prior
    entry for the key, is exactly as it was. *)
Theorem failed_producer_leaves_cache :
  swallows_failures "monuments" monumentsUrl normalizeMonument fetchMonuments
  /\ swallows_failures "ecosystem" ecosystemUrl normalizeEcosystem fetchEcosystem.
Proof.
  split.
  - failure_swallowed.
  - failure_swallowed.
Qed.

End Cache.

(** Witnesses and counterexamples of the cache, on the decimal host. *)

Section CacheExamples.
Import Client Spec Examples.
#[local] Existing Instance decimal_host.

Lemma cache_returns_fresh_entries_witness :
  requests
    (fetchMonuments 5 constructor
       (serve (page_request constructor monumentsUrl) 100 0 [with_items (records 0 3)])
       1000 1500) <> []
  /\ (exists items,
        fetchMonuments 5 after_first_call down 200000 200001
        = mkCall [] (Some (Normal items)) after_first_call)
  /\ requests (fetchMonuments 5 after_first_call down 301500 301501) <> [].
Proof.
  destruct cache_returns_fresh_entries as (_ & _ & (_ & _ & _ & Hscenario) & _).
  assert (stale constructor "monuments" 1000) as Hstale
    by (apply getCachedData_stale; reflexivity).
  assert (exists items,
            producer 5 constructor
              (serve (page_request constructor monumentsUrl) 100 0 [with_items (records 0 3)])
              monumentsUrl normalizeMonument = Some (Normal items)) as [items Hprod]
    by (eexists; vm_compute; reflexivity).
  destruct (Hscenario 5 constructor _ 1000%Z 1500%Z items Hstale Hprod)
    as (Hfirst & Hsecond & Hthird).
  split; [exact Hfirst|]. split.
  - exists items. apply Hsecond. cbn. lia.
  - apply (Hthird 4 down 301500%Z 301501%Z). cbn. lia.
Defined.

Lemma failed_producer_leaves_cache_witness :
  fetchMonuments 5 warmed down 400000 400001
  = mkCall [page_request warmed monumentsUrl 0] (Some (Normal [])) warmed.
Proof.
  assert (stale warmed "monuments" 400000) as Hstale
    by (apply getCachedData_stale; reflexivity).
  exact (proj1 failed_producer_leaves_cache 5 warmed down 400000%Z 400001%Z
           (mkError PlainError "HTTP error! status: 503") Hstale eq_refl).
Defined.

(** Against C3: the producer fails (the upstream answers 503, or an item
    cannot be normalized), and the caller of [fetchMonuments] or
    [fetchEcosystem] gets the empty list, not the failure. *)
Lemma failure_is_not_propagated :
  producer 5 constructor down monumentsUrl normalizeMonument
    = Some (Throw (mkError PlainError "HTTP error! status: 503"))
  /\ returned (fetchMonuments 5 constructor down 0 1) = Some (Normal [])
  /\ producer 5 constructor down ecosystemUrl normalizeEcosystem
    = Some (Throw (mkError PlainError "HTTP error! status: 503"))
  /\ returned (fetchEcosystem 5 constructor down 0 1) = Some (Normal [])
  /\ producer 5 constructor
       (serve (page_request constructor monumentsUrl) 100 0 [with_items [JNull]])
       monumentsUrl normalizeMonument
     = Some (Throw (mkError TypeError
                      "Cannot read properties of null (reading 'fieldData')"))
  /\ returned
       (fetchMonuments 5 constructor
          (serve (page_request constructor monumentsUrl) 100 0 [with_items [JNull]]) 0 1)
     = Some (Normal []).
Proof. repeat split; reflexivity. Qed.

End CacheExamples.

(** ** The routes *)

Section RouteProofs.
Context `{Host}.
Import Routes Spec.

Lemma error_response_bare (message : string) : bare_error (error_response message).
Proof. split; [done|]. split; [done|]. by repeat constructor. Qed.

Lemma items_response_open (items : list JsValue) : open_success (items_response items).
Proof. done. Qed.

Lemma GET_monuments_kinds (fuel : nat) (env : Env) (fetch : Network) (response : Response) :
  GET_monuments fuel env fetch = Some response ->
  (exists message, response = error_response message)
  \/ (exists items, response = items_response items).
Proof.
  unfold GET_monuments. intros Hget.
  repeat case_match; simplify_eq; eauto.
Qed.

Lemma GET_ecosystem_kinds (fuel : nat) (env : Env) (fetch : Network) (response : Response) :
  GET_ecosystem fuel env fetch = Some response ->
  (exists message, response = error_response message)
  \/ (exists items, response = items_response items).
Proof.
  unfold GET_ecosystem. intros Hget.
  repeat case_match; simplify_eq; eauto.
Qed.

(** C10. Every response of the two route handlers is either a 500 whose
    only header is [Content-Type: application/json], so without any of the
    three CORS headers, or a 200 that carries all three; the 500 is what
    missing credentials and a failed sweep produce. *)
Theorem error_responses_lack_cors :
  (forall (fuel : nat) (env : Env) (fetch : Network) (response : Response),
     GET_monuments fuel env fetch = Some response
     \/ GET_ecosystem fuel env fetch = Some response ->
     bare_error response \/ open_success response)
  /\ (forall (fuel : nat) (env : Env) (fetch : Network),
        present (WEBFLOW_API_TOKEN env) = None ->
        (exists response, GET_monuments fuel env fetch = Some response /\ bare_error response)
        /\ (exists response, GET_ecosystem fuel env fetch = Some response /\ bare_error response))
  /\ (forall (fuel : nat) (env : Env) (fetch : Network),
        present (MONUMENTS_COLLECTION_ID env) = None ->
        exists response, GET_monuments fuel env fetch = Some response /\ bare_error response)
  /\ (forall (fuel : nat) (env : Env) (fetch : Network),
        present (ECOSYSTEM_COLLECTION_ID env) = None ->
        exists response, GET_ecosystem fuel env fetch = Some response /\ bare_error response)
  /\ (forall (fuel : nat) (env : Env) (fetch : Network) (apiToken collectionId : string)
             (error : JsError),
        present (WEBFLOW_API_TOKEN env) = Some apiToken ->
        result (Proxy.fetchAllCollectionItems fuel fetch collectionId apiToken)
          = Some (Throw error) ->
        (present (MONUMENTS_COLLECTION_ID env) = Some collectionId ->
         exists response, GET_monuments fuel env fetch = Some response /\ bare_error response)
        /\ (present (ECOSYSTEM_COLLECTION_ID env) = Some collectionId ->
            exists response, GET_ecosystem fuel env fetch = Some response
                             /\ bare_error response))
  /\ (forall (fuel : nat) (env : Env) (fetch : Network) (apiToken collectionId : string)
             (items : list JsValue),
        present (WEBFLOW_API_TOKEN env) = Some apiToken ->
        result (Proxy.fetchAllCollectionItems fuel fetch collectionId apiToken)
          = Some (Normal items) ->
        (present (MONUMENTS_COLLECTION_ID env) = Some collectionId ->
         exists response, GET_monuments fuel env fetch = Some response /\ open_success response)
        /\ (present (ECOSYSTEM_COLLECTION_ID env) = Some collectionId ->
            exists response, GET_ecosystem fuel env fetch = Some response
                             /\ open_success response)).
Proof.
  split.
  { intros fuel env fetch response [Hget|Hget].
    - destruct (GET_monuments_kinds _ _ _ _ Hget) as [[message ->]|[items ->]].
      + left. apply error_response_bare.
      + right. apply items_response_open.
    - destruct (GET_ecosystem_kinds _ _ _ _ Hget) as [[message ->]|[items ->]].
      + left. apply error_response_bare.
      + right. apply items_response_open. }
  split.
  { intros fuel env fetch Htoken. unfold GET_monuments, GET_ecosystem. rewrite Htoken.
    split; eexists; (split; [reflexivity | apply error_response_bare]). }
  split.
  { intros fuel env fetch Hid. unfold GET_monuments. rewrite Hid.
    destruct (present (WEBFLOW_API_TOKEN env));
      eexists; (split; [reflexivity | apply error_response_bare]). }
  split.
  { intros fuel env fetch Hid. unfold GET_ecosystem. rewrite Hid.
    destruct (present (WEBFLOW_API_TOKEN env));
      eexists; (split; [reflexivity | apply error_response_bare]). }
  split.
  - intros fuel env fetch apiToken collectionId error Htoken Hres.
    unfold GET_monuments, GET_ecosystem. rewrite Htoken.
    split; intros ->; rewrite Hres;
      eexists; (split; [reflexivity | apply error_response_bare]).
  - intros fuel env fetch apiToken collectionId items Htoken Hres.
    unfold GET_monuments, GET_ecosystem. rewrite Htoken.
    split; intros ->; rewrite Hres;
      eexists; (split; [reflexivity | apply items_response_open]).
Qed.

End RouteProofs.

Section RouteExamples.
Import Routes Spec Examples.
#[local] Existing Instance decimal_host.

Lemma error_responses_lack_cors_witness :
  bare_error (error_response "Failed to fetch monuments")
  /\ (exists response, GET_monuments 0 unconfigured down = Some response
                       /\ bare_error response)
  /\ (exists response, GET_ecosystem 0 unconfigured down = Some response
                       /\ bare_error response)
  /\ (exists response, GET_ecosystem 3 configured down = Some response
                       /\ bare_error response)
  /\ (exists response,
        GET_monuments 3 configured
          (serve (Proxy.page_request collection token) 100 0 [with_items (records 0 3)])
        = Some response /\ open_success response).
Proof.
  destruct error_responses_lack_cors
    as (Hkinds & _ & Hmonuments & Hecosystem & Hfailed & Hfetched).
  split.
  { destruct (Hkinds 3 configured down (error_response "Failed to fetch monuments")
                (or_introl eq_refl)) as [Hbare|Hopen]; [exact Hbare|].
    destruct Hopen as [Hstatus _]. discriminate Hstatus. }
  split; [exact (Hmonuments 0 unconfigured down eq_refl)|].
  split; [exact (Hecosystem 0 unconfigured down eq_refl)|].
  split.
  - exact (proj2 (Hfailed 3 configured down token collection
                    (mkError PlainError "Webflow API 503: upstream unavailable")
                    eq_refl eq_refl) eq_refl).
  - exact (proj1 (Hfetched 3 configured
                    (serve (Proxy.page_request collection token) 100 0
                       [with_items (records 0 3)])
                    token collection (records 0 3) eq_refl eq_refl) eq_refl).
Defined.

End RouteExamples.

(** * Further properties of the code *)

(** ** Strings *)

Lemma trim_end_idempotent (s : string) : trim_end (trim_end s) = trim_end s.
Proof.
  induction s as [|a rest IH]; [done|].
  cbn [trim_end]. destruct (trim_end rest) as [|b kept] eqn:Hrest.
  - destruct (is_space a) eqn:Ha; [done|]. cbn [trim_end]. by rewrite Ha.
  - cbn [trim_end] in *. by rewrite IH.
Qed.

Lemma trim_start_fixed (s : string) :
  match s with
  | EmptyString => True
  | String a _ => is_space a = false
  end ->
  trim_start s = s.
Proof. destruct s as [|a rest]; [done|]. cbn [trim_start]. by intros ->. Qed.

Lemma trim_idempotent (s : string) : trim (trim s) = trim s.
Proof.
  unfold trim at 1. rewrite (trim_start_fixed _ (trim_clean s)).
  unfold trim. apply trim_end_idempotent.
Qed.

Lemma includes_trim_start (c : ascii) (s : string) :
  includes c (trim_start s) = true -> includes c s = true.
Proof.
  induction s as [|a rest IH]; [done|].
  cbn [trim_start]. destruct (is_space a); [|done].
  intros Hr. cbn [includes]. rewrite (IH Hr). by destruct (Ascii.eqb a c).
Qed.

Lemma includes_trim_end (c : ascii) (s : string) :
  includes c (trim_end s) = true -> includes c s = true.
Proof.
  induction s as [|a rest IH]; [done|].
  cbn [trim_end includes]. destruct (trim_end rest) as [|b kept].
  - destruct (is_space a); [done|]. cbn [includes].
    by destruct (Ascii.eqb a c).
  - cbn [includes] in *. destruct (Ascii.eqb a c); [done|]. exact IH.
Qed.

Lemma includes_trim (c : ascii) (s : string) :
  includes c (trim s) = true -> includes c s = true.
Proof. intros Hc%includes_trim_end. by apply includes_trim_start. Qed.

Lemma includes_strip_tags (c : ascii) (in_tag : bool) (s : string) :
  includes c (strip_tags in_tag s) = true -> includes c s = true.
Proof.
  revert in_tag. induction s as [|a rest IH]; intros in_tag; [done|].
  cbn [strip_tags includes]. destruct in_tag.
  - intros Hr%IH. rewrite Hr. by destruct (Ascii.eqb a c).
  - destruct (Ascii.eqb a "<" && includes ">" rest).
    + intros Hr%IH. rewrite Hr. by destruct (Ascii.eqb a c).
    + cbn [includes]. destruct (Ascii.eqb a c); [done|]. apply IH.
Qed.

Lemma has_tag_strip_tags (s : string) :
  Observe.has_tag (strip_tags false s) = false
  /\ (includes ">" s = true -> Observe.has_tag (strip_tags true s) = false).
Proof.
  induction s as [|a rest [IHout IHin]]; [done|].
  cbn [strip_tags]. split.
  - destruct (Ascii.eqb a "<") eqn:Ha; cbn [andb].
    + destruct (includes ">" rest) eqn:Hgt; [by apply IHin|].
      cbn [Observe.has_tag]. rewrite IHout, Ha, orb_false_r. cbn [andb].
      destruct (includes ">" (strip_tags false rest)) eqn:Hs; [|done].
      apply includes_strip_tags in Hs. congruence.
    + cbn [Observe.has_tag]. by rewrite IHout, Ha.
  - cbn [includes]. destruct (Ascii.eqb a ">") eqn:Ha; cbn [negb]; [done|].
    exact IHin.
Qed.

Lemma strip_tags_fixed (s : string) :
  Observe.has_tag s = false -> strip_tags false s = s.
Proof.
  induction s as [|a rest IH]; [done|].
  cbn [Observe.has_tag strip_tags]. intros [Ha Hrest]%orb_false_iff.
  by rewrite Ha, (IH Hrest).
Qed.

Lemma has_tag_trim_start (s : string) :
  Observe.has_tag s = false -> Observe.has_tag (trim_start s) = false.
Proof.
  induction s as [|a rest IH]; [done|].
  cbn [trim_start]. destruct (is_space a); [|done].
  cbn [Observe.has_tag]. intros [_ Hrest]%orb_false_iff. by apply IH.
Qed.

Lemma has_tag_trim_end (s : string) :
  Observe.has_tag s = false -> Observe.has_tag (trim_end s) = false.
Proof.
  induction s as [|a rest IH]; [done|].
  cbn [Observe.has_tag trim_end]. intros [Ha Hrest]%orb_false_iff.
  specialize (IH Hrest).
  pose proof (includes_trim_end ">" rest) as Hgt.
  destruct (trim_end rest) as [|b kept].
  - destruct (is_space a); [done|]. cbn [Observe.has_tag includes].
    by rewrite andb_false_r.
  - cbn [Observe.has_tag] in *. rewrite IH, orb_false_r.
    destruct (Ascii.eqb a "<"); [|done]. cbn [andb] in *.
    destruct (includes ">" (String b kept)) eqn:Hk; [|done].
    by rewrite Hgt in Ha.
Qed.

Lemma has_tag_trim (s : string) :
  Observe.has_tag s = false -> Observe.has_tag (trim s) = false.
Proof. intros Hs. by apply has_tag_trim_end, has_tag_trim_start. Qed.

(** Takes a successful [let!] chain apart, one step at a time. *)
Ltac unbind H :=
  repeat match type of H with
         | cbind ?c _ = Normal _ =>
             let x := fresh "x" in
             let Hx := fresh "Hx" in
             destruct c as [x|] eqn:Hx; [cbn [cbind] in H | discriminate H]
         end.

(** ** The normalizer's helpers *)

Section Helpers.
Context `{Host}.
Import Client Spec Observe.

Lemma stripHtml_result (html out : JsValue) :
  stripHtml html = Normal out ->
  exists text, out = JStr text /\ has_tag text = false /\ trim text = text.
Proof.
  intros Hout. unfold stripHtml in Hout.
  destruct (truthy html) eqn:Ht; cbn [negb] in Hout.
  - destruct html as [| | | |s| | |]; try done. injection Hout as <-.
    eexists. split; [done|]. split.
    + apply has_tag_trim, has_tag_strip_tags.
    + apply trim_idempotent.
  - injection Hout as <-. by exists EmptyString.
Qed.

Lemma parseTags_array (tags : JsValue) : is_array (parseTags tags) = true.
Proof.
  unfold parseTags. destruct tags as [| |[]|n|s|l|fs|name]; cbn; try done.
  - by destruct (num_truthy n).
  - by destruct (negb _).
Qed.

(** X1. [stripHtml] raises exactly on a truthy value that is not a string.
    Whatever it returns is a string that holds no complete tag and has no
    white space at either end, and stripping it again changes nothing. *)
Theorem stripHtml_clean (html : JsValue) :
  returns (stripHtml html) = textual html
  /\ (forall out : JsValue,
        stripHtml html = Normal out ->
        (exists text, out = JStr text /\ has_tag text = false /\ trim text = text)
        /\ stripHtml out = Normal out).
Proof.
  split; [apply stripHtml_returns|].
  intros out Hout.
  destruct (stripHtml_result _ _ Hout) as (text & -> & Htag & Htrim).
  split; [by exists text|].
  unfold stripHtml. destruct (truthy (JStr text)) eqn:Ht; cbn [negb].
  - by rewrite (strip_tags_fixed _ Htag), Htrim.
  - by destruct text.
Qed.

(** X2. [parseTags] answers an array on every input and is idempotent;
    each tag it cuts out of a string is not empty, holds no comma and has no
    white space at either end. *)
Theorem parseTags_shape :
  (forall tags : JsValue,
     is_array (parseTags tags) = true
     /\ parseTags (parseTags tags) = parseTags tags)
  /\ (forall (s : string) (cut : list JsValue),
        parseTags (JStr s) = JArr cut ->
        Forall (fun v => exists tag,
                           v = JStr tag /\ tag <> EmptyString
                           /\ includes comma tag = false /\ trim tag = tag) cut).
Proof.
  split.
  - intros tags. split; [apply parseTags_array|].
    pose proof (parseTags_array tags) as Harr.
    by destruct (parseTags tags).
  - intros s cut. unfold parseTags.
    destruct (truthy (JStr s)); cbn [negb]; [|intros [= <-]; constructor].
    intros [= <-]. rewrite kept_tags.
    pose proof (split_pieces_clean comma s) as Hclean.
    induction Hclean as [|piece pieces Hpiece _ IH]; [constructor|].
    cbn [flat_map]. rewrite fmap_app. apply Forall_app. split; [|exact IH].
    destruct (trim piece) as [|a rest] eqn:Htrim; [constructor|].
    repeat constructor. exists (String a rest). split; [done|]. split; [done|].
    rewrite <- Htrim. split; [|apply trim_idempotent].
    destruct (includes comma (trim piece)) eqn:Hc; [|done].
    apply includes_trim in Hc. congruence.
Qed.

Lemma table_value (table : list (string * JsValue)) (name : string) (v : JsValue) :
  own_property table name = Some v -> v ∈ snd <$> table.
Proof.
  induction table as [|[k w] table IH]; [done|].
  cbn [own_property fmap list_fmap snd]. destruct (String.eqb k name).
  - intros [= ->]. apply list_elem_of_here.
  - intros Hv. apply list_elem_of_further. by apply IH.
Qed.

Lemma label_cases (table : list (string * JsValue)) (key : JsValue) (name : string)
    (found : JsValue) :
  Forall (fun v => truthy v = true) (snd <$> table) ->
  ToString key = Normal name ->
  table_get table key = Normal found ->
  truthy (found ||| JStr "Unknown") = true
  /\ (inherited name = false ->
      found ||| JStr "Unknown" ∈ (snd <$> table) ++ [JStr "Unknown"]).
Proof.
  intros Htable Hname. rewrite (table_get_key _ _ _ Hname). intros [= <-].
  unfold object_get. destruct (own_property table name) as [v|] eqn:Hown.
  - apply table_value in Hown.
    pose proof (proj1 (Forall_forall _ _) Htable v Hown) as Hv.
    unfold js_or. rewrite Hv. split; [done|]. intros _. apply elem_of_app. by left.
  - destruct (inherited name); [done|]. split; [done|]. intros _.
    apply elem_of_app. right. apply list_elem_of_here.
Qed.

(** X3. [mapTypeAndCategory] raises exactly when one of the two ids cannot
    be turned into a property name.  The labels it returns are never empty
    or undefined; unless an id spells a name inherited from
    [Object.prototype], the type is one of Concept, Program, Organization,
    Person, Unknown and the category one of Concepts, Programs,
    Organizations, Patrons, Founders, Unknown. *)
Theorem mapTypeAndCategory_labels (typeId categoryId : JsValue) :
  returns (mapTypeAndCategory typeId categoryId)
    = converts typeId && converts categoryId
  /\ (forall type category typeName categoryName,
        mapTypeAndCategory typeId categoryId = Normal (type, category) ->
        ToString typeId = Normal typeName ->
        ToString categoryId = Normal categoryName ->
        truthy type = true /\ truthy category = true
        /\ (inherited typeName = false -> type ∈ type_labels)
        /\ (inherited categoryName = false -> category ∈ category_labels)).
Proof.
  split.
  - unfold mapTypeAndCategory, table_get, converts.
    destruct (ToString typeId); [|done]. by destruct (ToString categoryId).
  - intros type category typeName categoryName Hmap Htype Hcategory.
    unfold mapTypeAndCategory in Hmap.
    destruct (table_get typeMap typeId) as [t|] eqn:Ht; [|done].
    destruct (table_get categoryMap categoryId) as [c|] eqn:Hc; [|done].
    injection Hmap as <- <-.
    destruct (label_cases typeMap typeId typeName t) as [Ht1 Ht2];
      [by repeat constructor | done | done |].
    destruct (label_cases categoryMap categoryId categoryName c) as [Hc1 Hc2];
      [by repeat constructor | done | done |].
    repeat split; done.
Qed.

(** X4. Whatever pair of numbers [parseCoordinates] returns for a string
    holds no NaN: the string either parsed into two numbers or named an
    entry of the location table. *)
Theorem parseCoordinates_no_NaN (s : string) (lat lng : JsNum) :
  parseCoordinates (JStr s) = Normal (JArr [JNum lat; JNum lng]) ->
  num_is_nan lat = false /\ num_is_nan lng = false
  /\ (coordinate_string (JStr s) = true
      \/ own_property commonLocations s = Some (JArr [JNum lat; JNum lng])).
Proof.
  intros Hparse.
  destruct (truthy (JStr s)) eqn:Htruthy.
  2:{ by rewrite (parseCoordinates_falsy _ Htruthy) in Hparse. }
  destruct (coordinate_string (JStr s)) eqn:Hcoord.
  - cbn [coordinate_string] in Hcoord.
    destruct (split comma s) as [|a [|b [|c rest]]] eqn:Hsplit; try done.
    apply andb_true_iff in Hcoord as [Ha%negb_true_iff Hb%negb_true_iff].
    rewrite (parseCoordinates_string _ _ _ Hsplit Ha Hb) in Hparse.
    injection Hparse as <- <-. auto.
  - rewrite (parseCoordinates_fallback _ Htruthy eq_refl Hcoord) in Hparse.
    unfold geocodeLocation, table_get in Hparse. cbn [ToString cbind] in Hparse.
    unfold object_get in Hparse.
    destruct (own_property commonLocations s) as [found|] eqn:Hown.
    + unfold js_or in Hparse. rewrite (commonLocations_truthy _ _ Hown) in Hparse.
      injection Hparse as ->.
      pose proof (table_value _ _ _ Hown) as Hin.
      cbn in Hin. repeat (apply elem_of_cons in Hin as [Hin|Hin];
                          [injection Hin as -> ->; auto|]).
      by apply elem_of_nil in Hin.
    + by destruct (inherited s).
Qed.

Lemma parseCoordinates_defined (locationData out : JsValue) :
  parseCoordinates locationData = Normal out ->
  out = JNull \/ truthy out = true.
Proof.
  intros Hout.
  destruct (truthy locationData) eqn:Ht.
  2:{ rewrite (parseCoordinates_falsy _ Ht) in Hout. injection Hout as <-. by left. }
  destruct (is_pair locationData) eqn:Hpair.
  { destruct locationData as [| | | | |[|x [|y [|z l]]]| |]; try done.
    injection Hout as <-. by right. }
  destruct (coordinate_string locationData) eqn:Hcoord.
  { destruct locationData as [| | | |s| | |]; try done. cbn [coordinate_string] in Hcoord.
    destruct (split comma s) as [|lat [|lng [|c rest]]] eqn:Hsplit; try done.
    apply andb_true_iff in Hcoord as [Hlat%negb_true_iff Hlng%negb_true_iff].
    rewrite (parseCoordinates_string _ _ _ Hsplit Hlat Hlng) in Hout.
    injection Hout as <-. by right. }
  rewrite (parseCoordinates_fallback _ Ht Hpair Hcoord) in Hout.
  unfold geocodeLocation in Hout. unbind Hout. injection Hout as <-.
  unfold js_or. destruct (truthy x) eqn:Hx0; [by right | by left].
Qed.

(** X5. A monument that comes out of the transform is an object with the
    thirteen keys [id] ... [link] in this order; its description is a
    string without a tag, its tags are an array and its coordinates are
    [null] or truthy, never [undefined].  An ecosystem record has its nine
    keys, a string description, an array of tags, and a type and category
    that are never empty or undefined. *)
Theorem normalized_shape (item out : JsValue) :
  (normalizeMonument item = Normal out ->
   keys_of out = monument_keys
   /\ (exists text, object_get (item_fields out) "description" = JStr text
                    /\ has_tag text = false)
   /\ is_array (object_get (item_fields out) "tags") = true
   /\ (object_get (item_fields out) "coordinates" = JNull
       \/ truthy (object_get (item_fields out) "coordinates") = true))
  /\ (normalizeEcosystem item = Normal out ->
      keys_of out = ecosystem_keys
      /\ (exists text, object_get (item_fields out) "description" = JStr text
                       /\ has_tag text = false)
      /\ is_array (object_get (item_fields out) "tags") = true
      /\ truthy (object_get (item_fields out) "type") = true
      /\ truthy (object_get (item_fields out) "category") = true).
Proof.
  split.
  - unfold normalizeMonument. intros Hout. unbind Hout. injection Hout as <-.
    split; [reflexivity|]. cbn.
    match goal with
    | Hs : stripHtml _ = Normal _ |- _ =>
        destruct (stripHtml_result _ _ Hs) as (text & -> & Htag & _)
    end.
    split; [by exists text|].
    split; [apply parseTags_array|].
    match goal with
    | Hp : parseCoordinates _ = Normal _ |- _ => exact (parseCoordinates_defined _ _ Hp)
    end.
  - unfold normalizeEcosystem. intros Hout. unbind Hout. injection Hout as <-.
    split; [reflexivity|]. cbn.
    match goal with
    | Hs : stripHtml _ = Normal _ |- _ =>
        destruct (stripHtml_result _ _ Hs) as (text & -> & Htag & _)
    end.
    split; [by exists text|].
    split; [apply parseTags_array|].
    match goal with
    | Hm : mapTypeAndCategory _ _ = Normal _ |- _ =>
        unfold mapTypeAndCategory in Hm; unbind Hm; injection Hm as <-
    end.
    cbn. unfold js_or. split; by repeat case_match.
Qed.

Lemma or_else_truthy (a : JsValue) (b : Completion JsValue) :
  truthy a = true -> (Normal a ||! b) = Normal a.
Proof. intros Ha. unfold or_else. cbn [cbind]. by rewrite Ha. Qed.

Lemma field_not_nullish (item : JsValue) (k : string) :
  truthy (field item k) = true -> not_nullish item = true.
Proof. by destruct item. Qed.

(** X6. When an item has a truthy [fieldData], the vendor fields are read
    from it alone: two items with the same [fieldData], [id] and [_id] are
    normalized alike, whatever else they hold at top level. *)
Theorem fieldData_shadows (item item' : JsValue) :
  truthy (field item "fieldData") = true ->
  field item' "fieldData" = field item "fieldData" ->
  field item' "id" = field item "id" ->
  field item' "_id" = field item "_id" ->
  normalizeMonument item' = normalizeMonument item
  /\ normalizeEcosystem item' = normalizeEcosystem item.
Proof.
  intros Htruthy Hfd Hid H_id.
  pose proof (field_not_nullish _ _ Htruthy) as Hitem.
  rewrite <- Hfd in Htruthy.
  pose proof (field_not_nullish _ _ Htruthy) as Hitem'.
  unfold normalizeMonument, normalizeEcosystem.
  rewrite !(get_field item _ Hitem), !(get_field item' _ Hitem').
  rewrite !(or_else_truthy _ _ Htruthy).
  rewrite Hfd in Htruthy. rewrite !(or_else_truthy _ _ Htruthy).
  by rewrite Hfd, Hid, H_id.
Qed.

End Helpers.

(** Witnesses of the helpers' properties, on the decimal host. *)

Section HelperExamples.
Import Client Spec Observe Examples.
#[local] Existing Instance decimal_host.

Lemma stripHtml_clean_witness :
  (exists text,
     JStr "Hi there" = JStr text /\ has_tag text = false /\ trim text = text)
  /\ stripHtml (JStr "Hi there") = Normal (JStr "Hi there").
Proof.
  exact (proj2 (stripHtml_clean (JStr "  <p>Hi <b>there</b></p> ")) (JStr "Hi there")
           eq_refl).
Defined.

Lemma parseTags_shape_witness :
  Forall (fun v => exists tag,
                     v = JStr tag /\ tag <> EmptyString
                     /\ includes comma tag = false /\ trim tag = tag)
    [JStr "a"; JStr "b"; JStr "c"].
Proof. exact (proj2 parseTags_shape "a, b ,,c" _ eq_refl). Defined.

Lemma mapTypeAndCategory_labels_witness :
  truthy (JStr "Person") = true /\ truthy (JStr "Unknown") = true
  /\ (inherited "1f06ba3b3460d24d4fc5a9514218ab36" = false -> JStr "Person" ∈ type_labels)
  /\ (inherited "undefined" = false -> JStr "Unknown" ∈ category_labels).
Proof.
  exact (proj2 (mapTypeAndCategory_labels (JStr "1f06ba3b3460d24d4fc5a9514218ab36")
                  JUndefined)
           (JStr "Person") (JStr "Unknown") _ _ eq_refl eq_refl eq_refl).
Defined.

Lemma parseCoordinates_no_NaN_witness :
  num_is_nan (Fin 31.9686) = false /\ num_is_nan (Fin (-99.9018)) = false
  /\ (coordinate_string (JStr "Texas") = true
      \/ own_property commonLocations "Texas"
         = Some (JArr [JNum (Fin 31.9686); JNum (Fin (-99.9018))])).
Proof. exact (parseCoordinates_no_NaN "Texas" _ _ eq_refl). Defined.

Lemma normalized_shape_witness :
  keys_of
    (JObj
       [ ("id", JStr "m1"); ("name", JStr "Statue of Liberty"); ("status", JUndefined);
         ("location", JUndefined);
         ("coordinates", JArr [JNum (Fin 40.6892); JNum (Fin (-74.0445))]);
         ("description", JStr "A gift from France"); ("year", JUndefined);
         ("height", JUndefined); ("builtBy", JUndefined); ("fundedBy", JUndefined);
         ("conceptualizedBy", JUndefined);
         ("tags", JArr [JStr "copper"; JStr "harbor"; JStr "1886"]);
         ("link", JUndefined) ])
  = monument_keys.
Proof. exact (proj1 (proj1 (normalized_shape statue _) eq_refl)). Defined.

Lemma fieldData_shadows_witness :
  normalizeMonument
    (JObj [ ("name", JStr "ignored"); ("id", JStr "m1");
            ("fieldData", field statue "fieldData") ])
  = normalizeMonument statue.
Proof.
  exact (proj1 (fieldData_shadows statue
                  (JObj [ ("name", JStr "ignored"); ("id", JStr "m1");
                          ("fieldData", field statue "fieldData") ])
                  eq_refl eq_refl eq_refl eq_refl)).
Defined.

End HelperExamples.

(** ** Sweeps, whatever their outcome *)

Lemma to_uint_digits (n : nat) : Nat.to_uint n <> Decimal.Nil.
Proof.
  intros Hnil. pose proof (Unsigned.of_to n) as Hn. rewrite Hnil in Hn.
  cbn in Hn. subst n. discriminate Hnil.
Qed.

Lemma nat_to_string_inj (a b : nat) : nat_to_string a = nat_to_string b -> a = b.
Proof.
  unfold nat_to_string. intros Heq.
  apply (f_equal NilZero.uint_of_string) in Heq.
  rewrite !NilZero.usu in Heq by apply to_uint_digits.
  injection Heq as Heq. by apply Unsigned.to_uint_inj.
Qed.

Lemma append_length (a b : string) :
  String.length (a +:+ b) = String.length a + String.length b.
Proof.
  induction a as [|x a IH]; [done|].
  change (S (String.length (a +:+ b)) = S (String.length a + String.length b)).
  by rewrite IH.
Qed.

Lemma append_cancel_r (a b c : string) : a +:+ c = b +:+ c -> a = b.
Proof.
  revert b. induction a as [|x a IH]; intros [|y b] Heq; [done| | |].
  - apply (f_equal String.length) in Heq.
    rewrite !append_length in Heq. cbn [String.length] in Heq. lia.
  - apply (f_equal String.length) in Heq.
    rewrite !append_length in Heq. cbn [String.length] in Heq. lia.
  - change (String x (a +:+ c) = String y (b +:+ c)) in Heq.
    injection Heq as -> Heq. by rewrite (IH _ Heq).
Qed.

Lemma proxy_page_request_inj (collectionId apiToken : string) (a b : nat) :
  Proxy.page_request collectionId apiToken a = Proxy.page_request collectionId apiToken b ->
  a = b.
Proof.
  unfold Proxy.page_request. intros [= Heq].
  repeat apply (inj (String.app _)) in Heq.
  by apply nat_to_string_inj.
Qed.

Lemma client_page_request_inj (this : Client.WebflowCMS) (baseUrl : string) (a b : nat) :
  Client.page_request this baseUrl a = Client.page_request this baseUrl b -> a = b.
Proof.
  unfold Client.page_request. intros [= Heq].
  do 3 apply (inj (String.app _)) in Heq.
  apply append_cancel_r in Heq. by apply nat_to_string_inj.
Qed.

Section AnySweep.
Import Observe.
Variables (request : nat -> Request) (refusal : HttpResponse -> Completion JsError)
          (turns : JsValue -> list JsValue -> Completion (list JsValue + list JsValue))
          (step : nat) (fetch : Network).

#[local] Abbreviation run :=
  (sweep_loop request (fun response => thrown (refusal response)) turns step).

Lemma sweep_requests (fuel offset : nat) (collected : list JsValue) :
  sent (run fuel fetch offset collected)
    = (fun i => request (offset + i * step))
        <$> seq 0 (length (sent (run fuel fetch offset collected)))
  /\ length (sent (run fuel fetch offset collected)) <= fuel
  /\ (result (run fuel fetch offset collected) = None ->
      length (sent (run fuel fetch offset collected)) = fuel)
  /\ (result (run fuel fetch offset collected) <> None ->
      sent (run fuel fetch offset collected) <> []).
Proof.
  revert offset collected. induction fuel as [|fuel IH]; intros offset collected.
  { cbn. repeat split; auto with lia. }
  cbn [sweep_loop].
  assert (forall c, sent (after (request offset) (finished c))
                    = (fun i => request (offset + i * step))
                        <$> seq 0 (length (sent (after (request offset) (finished c))))
                    /\ length (sent (after (request offset) (finished c))) <= S fuel
                    /\ (result (after (request offset) (finished c)) = None ->
                        length (sent (after (request offset) (finished c))) = S fuel)
                    /\ (result (after (request offset) (finished c)) <> None ->
                        sent (after (request offset) (finished c)) <> [])) as Hdone.
  { intros c. cbn. rewrite Nat.add_0_r. repeat split; [lia | done | done]. }
  destruct (fetch (request offset)) as [response|e]; [|apply Hdone].
  destruct (negb (ok response)); [apply Hdone|].
  destruct (json response) as [body|e]; [|apply Hdone].
  destruct (turns body collected) as [[out|acc]|e]; [apply Hdone| |apply Hdone].
  destruct (IH (offset + step) acc) as (Hsent & Hlen & Hnone & _).
  unfold after. cbn [sent result length]. repeat split; [|lia|auto with lia|done].
  change (seq 0 (S (length (sent (run fuel fetch (offset + step) acc)))))
    with (0 :: seq 1 (length (sent (run fuel fetch (offset + step) acc)))).
  rewrite <- seq_shift, fmap_cons, Nat.add_0_r. f_equal.
  rewrite Hsent at 1. rewrite <- list_fmap_compose.
  apply list_fmap_ext. intros ? i _. unfold compose. f_equal. lia.
Qed.

Lemma sweep_failure (fuel offset : nat) (collected : list JsValue) (error : JsError) :
  result (run fuel fetch offset collected) = Some (Throw error) ->
  exists earlier req,
    sent (run fuel fetch offset collected) = earlier ++ [req]
    /\ fails_with fetch refusal turns req error
    /\ Forall (answered_well fetch) earlier.
Proof.
  revert offset collected. induction fuel as [|fuel IH]; intros offset collected; [done|].
  cbn [sweep_loop].
  destruct (fetch (request offset)) as [response|e] eqn:Hf.
  2:{ intros [= ->]. exists [], (request offset). repeat split; [|done]. by left. }
  destruct (ok response) eqn:Hok; cbn [negb].
  2:{ intros [= <-]. exists [], (request offset). repeat split; [|done].
      destruct (refusal response) as [built|e] eqn:Hr; cbn [thrown].
      - right; left. by exists response.
      - right; right; left. by exists response. }
  destruct (json response) as [body|e] eqn:Hj.
  2:{ intros [= ->]. exists [], (request offset). repeat split; [|done].
      right; right; right; left. by exists response. }
  destruct (turns body collected) as [[out|acc]|e] eqn:Ht; [done| |].
  - intros Hres. destruct (IH _ _ Hres) as (earlier & req & Hsent & Hfail & Hwell).
    exists (request offset :: earlier), req. unfold after. cbn [sent].
    rewrite Hsent. repeat split; [done|].
    constructor; [|done]. by exists response, body.
  - intros [= ->]. exists [], (request offset). repeat split; [|done].
    right; right; right; right. by exists response, body, collected.
Qed.

Lemma sweep_success (fuel offset : nat) (collected out : list JsValue) :
  result (run fuel fetch offset collected) = Some (Normal out) ->
  Forall (answered_well fetch) (sent (run fuel fetch offset collected)).
Proof.
  revert offset collected. induction fuel as [|fuel IH]; intros offset collected; [done|].
  cbn [sweep_loop].
  destruct (fetch (request offset)) as [response|e] eqn:Hf; [|done].
  destruct (ok response) eqn:Hok; cbn [negb]; [|done].
  destruct (json response) as [body|e] eqn:Hj; [|done].
  assert (answered_well fetch (request offset)) by (by exists response, body).
  destruct (turns body collected) as [[out'|acc]|e] eqn:Ht; [|  |done].
  - intros _. by repeat constructor.
  - intros Hres. unfold after. cbn [sent]. constructor; [done|]. by apply IH.
Qed.

(** An upstream whose every answer makes the loop go on never lets it end. *)
Lemma sweep_runaway :
  (forall offset collected,
     exists response body acc,
       fetch (request offset) = Normal response /\ ok response = true
       /\ json response = Normal body /\ turns body collected = Normal (inr acc)) ->
  forall fuel offset collected,
    result (run fuel fetch offset collected) = None
    /\ length (sent (run fuel fetch offset collected)) = fuel.
Proof.
  intros Hfull fuel. induction fuel as [|fuel IH]; intros offset collected; [done|].
  destruct (Hfull offset collected) as (response & body & acc & Hf & Hok & Hj & Ht).
  cbn [sweep_loop]. rewrite Hf, Hok, Hj, Ht. cbn [negb].
  destruct (IH (offset + step) acc) as [Hres Hlen].
  unfold after. cbn [sent result length]. by rewrite Hres, Hlen.
Qed.

(** Every page before the last one brought at least [step] items. *)
Lemma sweep_bound :
  (forall req response body collected acc,
     fetch req = Normal response -> json response = Normal body ->
     turns body collected = Normal (inr acc) -> length collected + step <= length acc) ->
  (forall req response body collected out,
     fetch req = Normal response -> json response = Normal body ->
     turns body collected = Normal (inl out) -> length collected <= length out) ->
  forall fuel offset collected out,
    result (run fuel fetch offset collected) = Some (Normal out) ->
    length collected + (length (sent (run fuel fetch offset collected)) - 1) * step
    <= length out.
Proof.
  intros Hadvance Hstop fuel.
  induction fuel as [|fuel IH]; intros offset collected out; [done|].
  cbn [sweep_loop].
  destruct (fetch (request offset)) as [response|e] eqn:Hf; [|done].
  destruct (negb (ok response)); [done|].
  destruct (json response) as [body|e] eqn:Hj; [|done].
  destruct (turns body collected) as [[out'|acc]|e] eqn:Ht; [| |done].
  - intros [= <-]. cbn. specialize (Hstop _ _ _ _ _ Hf Hj Ht). lia.
  - intros Hres. unfold after in *. cbn [sent result length] in *.
    specialize (IH _ _ _ Hres). specialize (Hadvance _ _ _ _ _ Hf Hj Ht).
    assert (sent (run fuel fetch (offset + step) acc) <> []) as Hne.
    { apply sweep_requests. by rewrite Hres. }
    destruct (sent (run fuel fetch (offset + step) acc)) as [|r rest]; [done|].
    cbn [length] in *. nia.
Qed.

End AnySweep.

Section BothLoops.
Context `{Host}.
Import Observe.

Lemma proxy_loop_shape (fuel : nat) (fetch : Network) (collectionId apiToken : string)
    (offset : nat) (collected : list JsValue) :
  Proxy.loop fuel fetch collectionId apiToken offset collected
  = sweep_loop (Proxy.page_request collectionId apiToken)
      (fun response => thrown (proxy_refusal response)) Proxy.turn
      Proxy.PAGE_SIZE fuel fetch offset collected.
Proof.
  revert offset collected. induction fuel as [|fuel IH]; intros offset collected; [done|].
  cbn [Proxy.loop sweep_loop].
  destruct (fetch _) as [response|e]; [|done].
  destruct (negb (ok response)).
  { unfold proxy_refusal. by destruct (text response). }
  destruct (json response) as [body|e]; [|done].
  destruct (Proxy.turn body collected) as [[out|acc]|e]; [done| |done].
  by rewrite IH.
Qed.

Lemma client_loop_shape (fuel : nat) (this : Client.WebflowCMS) (fetch : Network)
    (baseUrl : string) (offset : nat) (collected : list JsValue) :
  Client.loop fuel this fetch baseUrl offset collected
  = sweep_loop (Client.page_request this baseUrl)
      (fun response => thrown (client_refusal response)) (Client.turn this)
      (Client.pageSize this) fuel fetch offset collected.
Proof.
  revert offset collected. induction fuel as [|fuel IH]; intros offset collected; [done|].
  cbn [Client.loop sweep_loop].
  destruct (fetch _) as [response|e]; [|done].
  destruct (negb (ok response)); [done|].
  destruct (json response) as [body|e]; [|done].
  destruct (Client.turn this body collected) as [[out|acc]|e]; [done| |done].
  by rewrite IH.
Qed.

Lemma offsets_requests (request : nat -> Request) (step n : nat) :
  (fun i => request (0 + i * step)) <$> seq 0 n = request <$> Spec.offsets step n.
Proof. unfold Spec.offsets. by rewrite <- list_fmap_compose. Qed.

Lemma offsets_NoDup (request : nat -> Request) (step n : nat) :
  (forall a b, request a = request b -> a = b) -> 0 < step ->
  NoDup (request <$> Spec.offsets step n).
Proof.
  intros Hinj Hstep. unfold Spec.offsets. rewrite <- list_fmap_compose.
  apply NoDup_fmap_2; [|apply NoDup_seq].
  intros a b Heq%Hinj. nia.
Qed.

(** X7. Whatever a sweep comes to (a result, a failure, or still running),
    its requests are those for the offsets 0, 100, 200, ... in this order,
    one per turn of the loop, and no page is requested twice. *)
Theorem sweeps_ask_in_order :
  (forall (fuel : nat) (fetch : Network) (collectionId apiToken : string),
     sent (Proxy.fetchAllCollectionItems fuel fetch collectionId apiToken)
       = Proxy.page_request collectionId apiToken
           <$> Spec.offsets 100
                 (length (sent (Proxy.fetchAllCollectionItems fuel fetch collectionId apiToken)))
     /\ length (sent (Proxy.fetchAllCollectionItems fuel fetch collectionId apiToken)) <= fuel
     /\ NoDup (sent (Proxy.fetchAllCollectionItems fuel fetch collectionId apiToken)))
  /\ (forall (fuel : nat) (this : Client.WebflowCMS) (fetch : Network) (baseUrl : string),
        sent (Client.fetchAllPages fuel this fetch baseUrl)
          = Client.page_request this baseUrl
              <$> Spec.offsets (Client.pageSize this)
                    (length (sent (Client.fetchAllPages fuel this fetch baseUrl)))
        /\ length (sent (Client.fetchAllPages fuel this fetch baseUrl)) <= fuel
        /\ (0 < Client.pageSize this ->
            NoDup (sent (Client.fetchAllPages fuel this fetch baseUrl)))).
Proof.
  split.
  - intros fuel fetch collectionId apiToken. unfold Proxy.fetchAllCollectionItems.
    rewrite proxy_loop_shape.
    destruct (sweep_requests (Proxy.page_request collectionId apiToken) proxy_refusal
                Proxy.turn Proxy.PAGE_SIZE fetch fuel 0 []) as (Hsent & Hlen & _).
    rewrite offsets_requests in Hsent. split; [exact Hsent|]. split; [exact Hlen|].
    rewrite Hsent. apply offsets_NoDup; [apply proxy_page_request_inj|].
    unfold Proxy.PAGE_SIZE. lia.
  - intros fuel this fetch baseUrl. unfold Client.fetchAllPages.
    rewrite client_loop_shape.
    destruct (sweep_requests (Client.page_request this baseUrl) client_refusal
                (Client.turn this) (Client.pageSize this) fetch fuel 0 [])
      as (Hsent & Hlen & _).
    rewrite offsets_requests in Hsent. split; [exact Hsent|]. split; [exact Hlen|].
    intros Hstep. rewrite Hsent. by apply offsets_NoDup; [apply client_page_request_inj|].
Qed.

(** X8. A sweep that fails fails on its last request: the request was
    rejected; or it was answered with a status outside 200-299, and the
    error is the one the paginator builds for that status (the proxy from
    the status and the body text, the browser client from the status
    alone) or, for the proxy, the error of reading a body text that cannot
    be read; or it was answered with a body that is not JSON, or with a
    body the loop choked on.  Every request before it was answered with a
    success status and a JSON body, and nothing of what they brought is
    returned.  A sweep that returns has only such answers. *)
Theorem sweep_fails_on_last_request :
  (forall (fuel : nat) (fetch : Network) (collectionId apiToken : string),
     (forall error,
        result (Proxy.fetchAllCollectionItems fuel fetch collectionId apiToken)
          = Some (Throw error) ->
        exists earlier req,
          sent (Proxy.fetchAllCollectionItems fuel fetch collectionId apiToken)
            = earlier ++ [req]
          /\ fails_with fetch proxy_refusal Proxy.turn req error
          /\ Forall (answered_well fetch) earlier)
     /\ (forall out,
           result (Proxy.fetchAllCollectionItems fuel fetch collectionId apiToken)
             = Some (Normal out) ->
           Forall (answered_well fetch)
             (sent (Proxy.fetchAllCollectionItems fuel fetch collectionId apiToken))))
  /\ (forall (fuel : nat) (this : Client.WebflowCMS) (fetch : Network) (baseUrl : string),
        (forall error,
           result (Client.fetchAllPages fuel this fetch baseUrl) = Some (Throw error) ->
           exists earlier req,
             sent (Client.fetchAllPages fuel this fetch baseUrl) = earlier ++ [req]
             /\ fails_with fetch client_refusal (Client.turn this) req error
             /\ Forall (answered_well fetch) earlier)
        /\ (forall out,
              result (Client.fetchAllPages fuel this fetch baseUrl) = Some (Normal out) ->
              Forall (answered_well fetch)
                (sent (Client.fetchAllPages fuel this fetch baseUrl)))).
Proof.
  split.
  - intros fuel fetch collectionId apiToken. unfold Proxy.fetchAllCollectionItems.
    rewrite proxy_loop_shape. split.
    + intros error. apply sweep_failure.
    + intros out. apply sweep_success.
  - intros fuel this fetch baseUrl. unfold Client.fetchAllPages.
    rewrite client_loop_shape. split.
    + intros error. apply sweep_failure.
    + intros out. apply sweep_success.
Qed.

Lemma proxy_full_page_goes_on (body t : JsValue) (collected page : list JsValue) :
  Proxy.page_items body = Normal (JArr page) ->
  Proxy.page_total body = Normal t ->
  Spec.reports t None ->
  100 <= length page ->
  Proxy.turn body collected = Normal (inr (collected ++ page)).
Proof.
  intros Hitems Htotal Hreports Hfull.
  rewrite (proxy_turn_checks _ _ _ _ _ Hitems Htotal Hreports).
  by rewrite full_page_advances by (unfold Proxy.PAGE_SIZE; lia).
Qed.

Lemma client_full_page_goes_on (this : Client.WebflowCMS) (body t : JsValue)
    (collected page : list JsValue) :
  Client.page_items body = Normal (JArr page) ->
  get body "total" = Normal t ->
  Spec.reports t None ->
  0 < Client.pageSize this ->
  Client.pageSize this <= length page ->
  Client.turn this body collected = Normal (inr (collected ++ page)).
Proof.
  intros Hitems Htotal Hreports Hpos Hfull.
  rewrite (client_turn_checks _ _ _ _ _ _ Hitems Htotal Hreports).
  by rewrite full_page_advances.
Qed.

(** X9. Neither loop has a bound of its own: against an upstream that
    answers every offset with a full page and reports no total, the sweep
    never ends; however many turns it is given, it has used them all and has
    no result. *)
Theorem full_pages_never_end :
  (forall (fetch : Network) (collectionId apiToken : string),
     (forall offset,
        exists response body page t,
          fetch (Proxy.page_request collectionId apiToken offset) = Normal response
          /\ ok response = true /\ json response = Normal body
          /\ Proxy.page_items body = Normal (JArr page)
          /\ Proxy.page_total body = Normal t /\ Spec.reports t None
          /\ 100 <= length page) ->
     forall fuel,
       result (Proxy.fetchAllCollectionItems fuel fetch collectionId apiToken) = None
       /\ length (sent (Proxy.fetchAllCollectionItems fuel fetch collectionId apiToken))
          = fuel)
  /\ (forall (this : Client.WebflowCMS) (fetch : Network) (baseUrl : string),
        0 < Client.pageSize this ->
        (forall offset,
           exists response body page t,
             fetch (Client.page_request this baseUrl offset) = Normal response
             /\ ok response = true /\ json response = Normal body
             /\ Client.page_items body = Normal (JArr page)
             /\ get body "total" = Normal t /\ Spec.reports t None
             /\ Client.pageSize this <= length page) ->
        forall fuel,
          result (Client.fetchAllPages fuel this fetch baseUrl) = None
          /\ length (sent (Client.fetchAllPages fuel this fetch baseUrl)) = fuel).
Proof.
  split.
  - intros fetch collectionId apiToken Hfull fuel. unfold Proxy.fetchAllCollectionItems.
    rewrite proxy_loop_shape. apply sweep_runaway. intros offset collected.
    destruct (Hfull offset) as (response & body & page & t & Hf & Hok & Hj & Hi & Ht & Hr & Hl).
    exists response, body, (collected ++ page). repeat split; try done.
    by apply proxy_full_page_goes_on with t.
  - intros this fetch baseUrl Hpos Hfull fuel. unfold Client.fetchAllPages.
    rewrite client_loop_shape. apply sweep_runaway. intros offset collected.
    destruct (Hfull offset) as (response & body & page & t & Hf & Hok & Hj & Hi & Ht & Hr & Hl).
    exists response, body, (collected ++ page). repeat split; try done.
    by apply client_full_page_goes_on with t.
Qed.

Lemma client_turn_advance (this : Client.WebflowCMS) (body : JsValue)
    (collected acc : list JsValue) :
  Client.turn this body collected = Normal (inr acc) ->
  length collected + Client.pageSize this <= length acc.
Proof.
  unfold Client.turn. intros Hturn. unbind Hturn.
  destruct x as [| | | | |[|item page]| |]; try done.
  unbind Hturn. destruct x0; [done|].
  destruct (Nat.ltb_spec (length (item :: page)) (Client.pageSize this)); [done|].
  injection Hturn as <-. rewrite length_app. lia.
Qed.

Lemma proxy_turn_advance (body : JsValue) (collected page acc : list JsValue) :
  Proxy.page_items body = Normal (JArr page) ->
  Proxy.turn body collected = Normal (inr acc) ->
  length collected + 100 <= length acc.
Proof.
  intros Hitems. unfold Proxy.turn. rewrite Hitems.
  cbn [cbind get String.eqb Ascii.eqb Bool.eqb concat_value].
  rewrite strict_eq_nat_length. destruct (Nat.eqb (length page) 0); [done|].
  unfold lt_nat. cbn [ToNumber cbind]. rewrite num_ltb_nat.
  intros Hturn. unbind Hturn. destruct x0; [done|].
  destruct (Nat.ltb_spec (length page) Proxy.PAGE_SIZE) as [|Hfull]; [done|].
  injection Hturn as <-. rewrite length_app. unfold Proxy.PAGE_SIZE in Hfull. lia.
Qed.

(** X10. A sweep that returns [n] items has made at most [n / 100 + 1]
    requests: every page but the last brought at least a page size of
    items.  (For the proxy, with [items] an array whenever it is sent.) *)
Theorem requests_bounded_by_items :
  (forall (fuel : nat) (this : Client.WebflowCMS) (fetch : Network) (baseUrl : string)
          (out : list JsValue),
     result (Client.fetchAllPages fuel this fetch baseUrl) = Some (Normal out) ->
     (length (sent (Client.fetchAllPages fuel this fetch baseUrl)) - 1)
       * Client.pageSize this <= length out)
  /\ (forall (fuel : nat) (fetch : Network) (collectionId apiToken : string)
             (out : list JsValue),
        Spec.sends_lists Proxy.page_items fetch ->
        result (Proxy.fetchAllCollectionItems fuel fetch collectionId apiToken)
          = Some (Normal out) ->
        (length (sent (Proxy.fetchAllCollectionItems fuel fetch collectionId apiToken)) - 1)
          * 100 <= length out).
Proof.
  split.
  - intros fuel this fetch baseUrl out. unfold Client.fetchAllPages.
    rewrite client_loop_shape. intros Hres.
    apply (sweep_bound _ _ _ _ fetch) in Hres; [exact Hres| |].
    + intros req response body collected acc _ _. apply client_turn_advance.
    + intros req response body collected out' _ _ Hturn.
      destruct (Client.page_items body) as [v|] eqn:Hv.
      2:{ unfold Client.turn in Hturn. by rewrite Hv in Hturn. }
      destruct (client_turn_collects this body v collected _ Hv Hturn) as [[= ->]|[=]].
      rewrite length_app. lia.
  - intros fuel fetch collectionId apiToken out Hlists. unfold Proxy.fetchAllCollectionItems.
    rewrite proxy_loop_shape. intros Hres.
    apply (sweep_bound _ _ _ _ fetch) in Hres; [exact Hres| |].
    + intros req response body collected acc Hf Hj Hturn.
      destruct (Proxy.page_items body) as [v|] eqn:Hv.
      2:{ unfold Proxy.turn in Hturn. by rewrite Hv in Hturn. }
      pose proof (Hlists _ _ _ _ Hf Hj Hv) as Harr.
      destruct v as [| | | | |page| |]; try done.
      by apply proxy_turn_advance with body page.
    + intros req response body collected out' Hf Hj Hturn.
      destruct (Proxy.page_items body) as [v|] eqn:Hv.
      2:{ unfold Proxy.turn in Hturn. by rewrite Hv in Hturn. }
      pose proof (Hlists _ _ _ _ Hf Hj Hv) as Harr.
      destruct v as [| | | | |page| |]; try done.
      destruct (proxy_turn_collects _ _ _ _ Hv Hturn) as [[= ->]|[[=] _]].
      rewrite length_app. lia.
Qed.

End BothLoops.

(** ** The two paginators side by side *)

Section Agreement.
Context `{Host}.
Import Observe.

Lemma turns_agree (this : Client.WebflowCMS) (fields : list (string * JsValue))
    (page collected : list JsValue) :
  Client.pageSize this = 100 ->
  own_property fields "items" = Some (JArr page) ->
  own_property fields "total" = None ->
  own_property fields "pagination" = None ->
  Proxy.turn (JObj fields) collected = Client.turn this (JObj fields) collected.
Proof.
  intros Hsize Hitems Htotal Hpagination.
  rewrite (proxy_turn_checks (JObj fields) collected page JUndefined None);
    [|unfold Proxy.page_items; cbn; unfold object_get; by rewrite Hitems
     |unfold Proxy.page_total; cbn; unfold object_get; by rewrite Hpagination
     |constructor].
  rewrite (client_turn_checks this (JObj fields) collected page JUndefined None);
    [|unfold Client.page_items; cbn; unfold object_get; by rewrite Hitems
     |cbn; unfold object_get; by rewrite Htotal
     |constructor].
  by rewrite Hsize.
Qed.

(** X11. On an upstream whose pages are objects with an array under
    [items] and neither [total] nor [pagination], the proxy's paginator and
    the browser client's (with its page size of 100) come to the same
    result after the same number of requests. *)
Theorem paginators_agree (this : Client.WebflowCMS) (fetch fetch' : Network)
    (collectionId apiToken baseUrl : string) (fuel : nat) :
  Client.pageSize this = 100 ->
  plain_pages fetch fetch' (Proxy.page_request collectionId apiToken)
    (Client.page_request this baseUrl) ->
  result (Proxy.fetchAllCollectionItems fuel fetch collectionId apiToken)
    = result (Client.fetchAllPages fuel this fetch' baseUrl)
  /\ length (sent (Proxy.fetchAllCollectionItems fuel fetch collectionId apiToken))
     = length (sent (Client.fetchAllPages fuel this fetch' baseUrl)).
Proof.
  intros Hsize Hplain. unfold Proxy.fetchAllCollectionItems, Client.fetchAllPages.
  generalize 0 (@nil JsValue).
  induction fuel as [|fuel IH]; intros offset collected; [done|].
  destruct (Hplain offset)
    as (response & fields & page & Hf & Hf' & Hok & Hj & Hitems & Htotal & Hpagination).
  cbn [Proxy.loop Client.loop]. rewrite Hf, Hf', Hok, Hj. cbn [negb].
  rewrite <- (turns_agree this fields page collected Hsize Hitems Htotal Hpagination).
  destruct (Proxy.turn (JObj fields) collected) as [[out|acc]|e]; [done| |done].
  rewrite Hsize. unfold after. cbn [sent result length].
  destruct (IH (offset + Proxy.PAGE_SIZE) acc) as [Hres Hlen].
  by rewrite Hres, Hlen.
Qed.

End Agreement.

(** ** The cache and the fetchers, beyond the claims *)

Section CacheMore.
Context `{Host}.
Import Client Observe.

(** X12. Looking up what was just stored gives it back as long as the TTL
    has not passed since the store; a store leaves the other keys alone and
    replaces an earlier store for the same key; a fresh instance holds
    nothing; and an entry that is valid at some time is valid at every
    earlier time. *)
Theorem cache_store_lookup :
  (forall this key items t now,
     getCachedData (setCachedData this key items t) key now
     = if (now - t <? cacheExpiry this)%Z then Some items else None)
  /\ (forall this key other items t now,
        key <> other ->
        getCachedData (setCachedData this key items t) other now
        = getCachedData this other now)
  /\ (forall this key first second t t',
        setCachedData (setCachedData this key first t) key second t'
        = setCachedData this key second t')
  /\ (forall key now, getCachedData constructor key now = None)
  /\ (forall this key now earlier items,
        getCachedData this key now = Some items ->
        (earlier <= now)%Z ->
        getCachedData this key earlier = Some items).
Proof.
  split; [exact getCachedData_stored|].
  split.
  { intros this key other items t now Hne. unfold getCachedData.
    by rewrite (setCachedData_other _ _ _ _ _ Hne). }
  split.
  { intros this key first second t t'. unfold setCachedData. cbn.
    by rewrite insert_insert_eq. }
  split; [done|].
  intros this key now earlier items. unfold getCachedData.
  destruct (cache this !! key) as [entry|]; [|done].
  destruct (Z.ltb_spec (now - timestamp entry) (cacheExpiry this)); [|done].
  intros [= <-] Hle.
  by destruct (Z.ltb_spec (earlier - timestamp entry) (cacheExpiry this)); [|lia].
Qed.

Lemma dom_setCachedData (this : WebflowCMS) (key : string) (items : list JsValue) (t : Z) :
  dom (cache this) ⊆ dom (cache (setCachedData this key items t)).
Proof. unfold setCachedData. cbn. rewrite dom_insert_L. set_solver. Qed.

Ltac unfold_fetchers := try unfold fetchMonuments; try unfold fetchEcosystem.

Ltac keeps_instance_proof :=
  intros fuel this fetch now now'; unfold_fetchers;
  destruct (getCachedData this _ now) as [cachedData|]; [by repeat split|];
  cbn zeta;
  destruct (result (fetchAllPages fuel this fetch _)) as [tried|] eqn:Hres;
    [|by repeat split];
  destruct (let! items := tried in map_throwing _ items) as [processedData|error];
    (split; [done|]); (split; [done|]); (split; [done|]); cbn [instance requests];
    [|by repeat split];
  split; [intros other Hne; by apply setCachedData_other|];
  split; [apply dom_setCachedData|];
  intros Hsent; destruct fuel as [|fuel]; [done|];
  by apply fetchAllPages_requests in Hsent.

(** X13. [fetchMonuments] and [fetchEcosystem] never throw; a call keeps
    the TTL and the page size of the instance, touches no cache entry but
    its own, removes none, and changes nothing when it sends no request. *)
Theorem fetchers_keep_instance :
  keeps_instance "monuments" fetchMonuments
  /\ keeps_instance "ecosystem" fetchEcosystem.
Proof. split; keeps_instance_proof. Qed.

Lemma map_throwing_cases {A B} (f : A -> Completion B) (l : list A) :
  match map_throwing f l with
  | Normal out => Forall2 (fun x y => f x = Normal y) l out
  | Throw error => exists bad, bad ∈ l /\ f bad = Throw error
  end.
Proof.
  induction l as [|x l IH]; cbn [map_throwing]; [constructor|].
  destruct (f x) as [y|e] eqn:Hx; cbn [cbind].
  - destruct (map_throwing f l) as [ys|e]; cbn [cbind].
    + by constructor.
    + destruct IH as (bad & Hin & Hbad). exists bad. split; [|done].
      by apply list_elem_of_further.
  - exists x. split; [apply list_elem_of_here | done].
Qed.

Ltac all_or_nothing_proof :=
  intros fuel this fetch now now' raw Hmiss Hres; unfold_fetchers;
  rewrite Hmiss; cbn zeta; rewrite Hres; cbn [cbind];
  match goal with
  | |- context [map_throwing ?f ?l] =>
      generalize (map_throwing_cases f l); destruct (map_throwing f l)
  end;
  [ let Hall := fresh in
    intros Hall; left; eexists; split; [exact Hall | reflexivity]
  | let Hbad := fresh in
    intros Hbad; right; destruct Hbad as (? & ? & ?);
    eexists _, _; split; [eassumption|]; split; [eassumption | reflexivity] ].

(** X14. When the sweep has brought its items, [fetchMonuments] and
    [fetchEcosystem] return and store their normalizations, one per item
    in the same order; a single item that cannot be normalized makes them
    return the empty list instead and store nothing. *)
Theorem fetchers_all_or_nothing :
  all_or_nothing "monuments" monumentsUrl normalizeMonument fetchMonuments
  /\ all_or_nothing "ecosystem" ecosystemUrl normalizeEcosystem fetchEcosystem.
Proof. split; all_or_nothing_proof. Qed.

End CacheMore.

(** ** The routes, beyond the claims *)

Section RoutesMore.
Context `{Host}.
Import Routes Observe.

Ltac unfold_routes := try unfold GET_monuments in *; try unfold GET_ecosystem in *.

Ltac route_contract_proof :=
  split; [|split];
  [ intros fuel fuel' env fetch fetch' Hmissing; unfold_routes;
    destruct Hmissing as [-> | ->];
    [done | by destruct (present (WEBFLOW_API_TOKEN env))]
  | intros fuel env fetch response Hget Hstatus; unfold_routes;
    repeat case_match; simplify_eq; auto; discriminate Hstatus
  | intros fuel env fetch response Hget Hstatus; unfold_routes;
    repeat case_match; simplify_eq; try discriminate Hstatus;
    eexists _, _, _; repeat split; eauto ].

(** X15. Without the API token or its collection id a route answers the
    fixed configuration error, whatever the network would do; a 500 of a
    route carries one of two fixed messages and nothing of the cause; a 200
    carries exactly the items the sweep returned, as they came. *)
Theorem routes_keep_contract :
  route_contract GET_monuments MONUMENTS_COLLECTION_ID "Failed to fetch monuments"
  /\ route_contract GET_ecosystem ECOSYSTEM_COLLECTION_ID "Failed to fetch ecosystem".
Proof.
  split; route_contract_proof.
Qed.

End RoutesMore.

(** Witnesses of the further properties, on the decimal host. *)

Section FurtherExamples.
Import Client Spec Observe Examples.
#[local] Existing Instance decimal_host.

Lemma sweeps_ask_in_order_witness :
  NoDup (sent (fetchAllPages 4 constructor always_full monumentsUrl)).
Proof.
  apply (proj2 sweeps_ask_in_order 4 constructor always_full monumentsUrl).
  cbn. lia.
Defined.

Lemma sweep_fails_on_last_request_witness :
  (exists earlier req,
     sent (fetchAllPages 4 constructor down monumentsUrl) = earlier ++ [req]
     /\ fails_with down client_refusal (turn constructor) req
          (mkError PlainError "HTTP error! status: 503")
     /\ Forall (answered_well down) earlier)
  /\ (exists earlier req,
        sent (Proxy.fetchAllCollectionItems 4 down collection token) = earlier ++ [req]
        /\ fails_with down proxy_refusal Proxy.turn req
             (mkError PlainError "Webflow API 503: upstream unavailable")
        /\ Forall (answered_well down) earlier)
  /\ (exists earlier req,
        sent (Proxy.fetchAllCollectionItems 4 cut_off collection token) = earlier ++ [req]
        /\ fails_with cut_off proxy_refusal Proxy.turn req
             (mkError TypeError "terminated")
        /\ Forall (answered_well cut_off) earlier)
  /\ Forall (answered_well always_short)
       (sent (fetchAllPages 4 constructor always_short monumentsUrl)).
Proof.
  destruct (proj2 sweep_fails_on_last_request 4 constructor down monumentsUrl)
    as [Hfail _].
  destruct (proj1 sweep_fails_on_last_request 4 down collection token)
    as [Hdown _].
  destruct (proj1 sweep_fails_on_last_request 4 cut_off collection token)
    as [Hcut _].
  destruct (proj2 sweep_fails_on_last_request 4 constructor always_short monumentsUrl)
    as [_ Hwell].
  split; [|split; [|split]].
  - exact (Hfail _ eq_refl).
  - exact (Hdown _ eq_refl).
  - exact (Hcut _ eq_refl).
  - exact (Hwell (records 0 3) eq_refl).
Defined.

Lemma full_pages_never_end_witness :
  result (Proxy.fetchAllCollectionItems 7 always_full collection token) = None
  /\ length (sent (Proxy.fetchAllCollectionItems 7 always_full collection token)) = 7.
Proof.
  apply (proj1 full_pages_never_end always_full collection token).
  intros offset.
  exists (mkResponse 200 (Normal EmptyString) (Normal (with_items (records 0 100)))),
    (with_items (records 0 100)), (records 0 100), JUndefined.
  repeat split; [constructor | vm_compute; lia].
Defined.

Lemma requests_bounded_by_items_witness :
  (length (sent (fetchAllPages 5 constructor
                   (serve (page_request constructor monumentsUrl) 100 0 three_pages)
                   monumentsUrl)) - 1) * pageSize constructor
  <= length (records 0 237).
Proof.
  apply (proj1 requests_bounded_by_items 5 constructor
           (serve (page_request constructor monumentsUrl) 100 0 three_pages)
           monumentsUrl (records 0 237)).
  by vm_compute.
Defined.

Lemma paginators_agree_witness :
  result (Proxy.fetchAllCollectionItems 3 always_short collection token)
    = result (fetchAllPages 3 constructor always_short monumentsUrl)
  /\ length (sent (Proxy.fetchAllCollectionItems 3 always_short collection token))
     = length (sent (fetchAllPages 3 constructor always_short monumentsUrl)).
Proof.
  apply paginators_agree; [reflexivity|].
  intros offset.
  exists (mkResponse 200 (Normal EmptyString) (Normal (with_items (records 0 3)))),
    [ ("items", JArr (records 0 3)) ], (records 0 3).
  repeat split.
Defined.

Lemma cache_store_lookup_witness :
  getCachedData warmed "ecosystem" 1000 = getCachedData constructor "ecosystem" 1000
  /\ getCachedData warmed "monuments" 1000 = Some (records 0 3).
Proof.
  destruct cache_store_lookup as (_ & Hother & _ & _ & Hearlier).
  split.
  - apply Hother. discriminate.
  - apply (Hearlier warmed "monuments" 299999%Z 1000%Z); [reflexivity | lia].
Defined.

Lemma fetchers_keep_instance_witness :
  cache (instance (fetchEcosystem 3 warmed always_short 1000 1001)) !! "monuments"
    = cache warmed !! "monuments"
  /\ instance (fetchMonuments 3 warmed down 1000 1001) = warmed.
Proof.
  destruct fetchers_keep_instance as [Hmonuments Hecosystem].
  split.
  - destruct (Hecosystem 3 warmed always_short 1000%Z 1001%Z) as (_ & _ & _ & Hother & _).
    apply Hother. discriminate.
  - destruct (Hmonuments 3 warmed down 1000%Z 1001%Z) as (_ & _ & _ & _ & _ & Hidle).
    apply Hidle. reflexivity.
Defined.

Lemma fetchers_all_or_nothing_witness :
  ((exists items,
      Forall2 (fun item normalized => normalizeMonument item = Normal normalized)
        (records 0 3) items
      /\ fetchMonuments 3 constructor always_short 1000 1001
         = mkCall (sent (fetchAllPages 3 constructor always_short monumentsUrl))
             (Some (Normal items)) (setCachedData constructor "monuments" items 1001))
   \/ (exists bad error,
         bad ∈ records 0 3 /\ normalizeMonument bad = Throw error
         /\ fetchMonuments 3 constructor always_short 1000 1001
            = mkCall (sent (fetchAllPages 3 constructor always_short monumentsUrl))
                (Some (Normal [])) constructor))
  /\ ((exists items,
         Forall2 (fun item normalized => normalizeEcosystem item = Normal normalized)
           [record 0; JNull] items
         /\ fetchEcosystem 3 constructor spoiled 1000 1001
            = mkCall (sent (fetchAllPages 3 constructor spoiled ecosystemUrl))
                (Some (Normal items)) (setCachedData constructor "ecosystem" items 1001))
      \/ (exists bad error,
            bad ∈ [record 0; JNull] /\ normalizeEcosystem bad = Throw error
            /\ fetchEcosystem 3 constructor spoiled 1000 1001
               = mkCall (sent (fetchAllPages 3 constructor spoiled ecosystemUrl))
                   (Some (Normal [])) constructor)).
Proof.
  destruct fetchers_all_or_nothing as [Hmonuments Hecosystem].
  split.
  - exact (Hmonuments 3 constructor always_short 1000%Z 1001%Z (records 0 3)
             eq_refl eq_refl).
  - exact (Hecosystem 3 constructor spoiled 1000%Z 1001%Z [record 0; JNull]
             eq_refl eq_refl).
Defined.

Lemma routes_keep_contract_witness :
  Routes.GET_monuments 0 unconfigured down
    = Some (Routes.error_response "Missing API credentials")
  /\ Routes.GET_monuments 9 unconfigured always_short
     = Routes.GET_monuments 0 unconfigured down.
Proof.
  destruct routes_keep_contract as [(Hmissing & _) _].
  apply (Hmissing 0 9 unconfigured down always_short). by right.
Defined.

End FurtherExamples.
